(** * The Lorenz notebook: a shallow embedding of [solve_lorenz]

    The notebook [Lorenz Differential Equations.ipynb] defines one function,
    [solve_lorenz], which seeds NumPy's global generator, draws [N] starting
    points in a cube, integrates the Lorenz vector field from each of them
    with [scipy.integrate.odeint] on one time grid, and plots every
    trajectory in a colour of its own.

    Python's [float] and NumPy's [float64] are IEEE-754 binary64 numbers.
    They are modelled here by the bit-level specification of the Standard
    Library ([SpecFloat], precision 53, [emax] 1024), so that every
    arithmetic step rounds as it does at run time and every definition can
    be evaluated. *)

From Stdlib Require Import ZArith List Bool Lia.
From Stdlib Require Import SpecFloat.
Import ListNotations.

Local Open Scope Z_scope.

(** ** Binary64 arithmetic *)

Module F64.

Definition prec : Z := 53.
Definition emax : Z := 1024.

Definition float : Type := spec_float.

Definition add : float -> float -> float := SFadd prec emax.
Definition sub : float -> float -> float := SFsub prec emax.
Definition mul : float -> float -> float := SFmul prec emax.
Definition div : float -> float -> float := SFdiv prec emax.

Definition eqb : float -> float -> bool := SFeqb.
Definition ltb : float -> float -> bool := SFltb.
Definition leb : float -> float -> bool := SFleb.

(** Conversion of a Python [int] to a float: the nearest binary64,
    ties to even. *)
Definition of_Z (z : Z) : float := binary_normalize prec emax z 0 false.

(** Well-formed binary64 values: the mantissa of a finite number has
    exactly the digits its exponent allows. *)
Definition valid (x : float) : bool := valid_binary prec emax x.

(** Neither an infinity nor a NaN. *)
Definition is_finite (x : float) : bool :=
  match x with
  | S754_zero _ | S754_finite _ _ _ => true
  | S754_infinity _ | S754_nan => false
  end.

(** A finite number other than a zero. *)
Definition is_nonzero_finite (x : float) : bool :=
  match x with
  | S754_finite _ _ _ => true
  | _ => false
  end.

Definition sign (x : float) : bool :=
  match x with
  | S754_zero s | S754_infinity s | S754_finite s _ _ => s
  | S754_nan => false
  end.

Definition zero : float := S754_zero false.
Definition one : float := Eval vm_compute in of_Z 1.
Definition infinity : float := S754_infinity false.
Definition nan : float := S754_nan.

End F64.

Declare Scope f64_scope.
Delimit Scope f64_scope with f64.
Bind Scope f64_scope with F64.float.
Infix "+" := F64.add : f64_scope.
Infix "-" := F64.sub : f64_scope.
Infix "*" := F64.mul : f64_scope.
Infix "/" := F64.div : f64_scope.
Infix "==" := F64.eqb (at level 70, no associativity) : f64_scope.
Infix "<?" := F64.ltb : f64_scope.
Infix "<=?" := F64.leb : f64_scope.

Abbreviation float := F64.float.

(** ** The vector field *)

(** A point of the phase space, the [(3,)] array [odeint] hands to the
    right-hand side. *)
Definition state : Type := (float * float * float)%type.

(** [lorenz_deriv(x_y_z, t0, sigma, beta, rho)], the nested function of
    [solve_lorenz]. *)
Definition lorenz_deriv (x_y_z : state) (t0 : float)
  (sigma beta rho : float) : state :=
  let '(x, y, z) := x_y_z in
  (sigma * (y - x), x * (rho - z) - y, x * y - beta * z)%f64.


(** The origin of the phase space. *)
Definition origin : state := (F64.zero, F64.zero, F64.zero).

(** A state all of whose components compare equal to [0.0]. *)
Definition is_origin (s : state) : bool :=
  let '(x, y, z) := s in
  ((x == F64.zero) && (y == F64.zero) && (z == F64.zero))%f64.

(** ** Exceptions *)

(** The exceptions the body of [solve_lorenz] can meet. *)
Inductive exn : Type :=
| ValueError
| OverflowError
| IndexError.

Inductive result (A : Type) : Type :=
| Ok (a : A)
| Raise (e : exn).

Arguments Ok {A} a.
Arguments Raise {A} e.

Definition result_bind {A B : Type} (r : result A) (k : A -> result B)
  : result B :=
  match r with
  | Ok a => k a
  | Raise e => Raise e
  end.

Definition result_map {A B : Type} (f : A -> B) (r : result A) : result B :=
  result_bind r (fun a => Ok (f a)).

(** [int(x)] on a Python float: truncation toward zero; a NaN raises
    [ValueError], an infinity [OverflowError]. *)
Definition int_of_float (x : float) : result Z :=
  match x with
  | S754_nan => Raise ValueError
  | S754_infinity _ => Raise OverflowError
  | S754_zero _ => Ok 0
  | S754_finite s m e => Ok (cond_Zopp s (Z.shiftl (Z.pos m) e))
  end.

(** ** NumPy *)

(** [np.arange(0, num, dtype=float)]. *)
Definition arange (num : Z) : list float :=
  map (fun i => F64.of_Z (Z.of_nat i)) (seq 0 (Z.to_nat num)).

(** [y[-1] = v] on a one-dimensional array. *)
Definition set_last (y : list float) (v : float) : list float :=
  match y with
  | [] => []
  | _ :: _ => removelast y ++ [v]
  end.

(** [np.linspace(start, stop, num)] with the default [endpoint=True]:
    the samples are [arange(0, num) * step + start] for
    [step = (stop - start) / (num - 1)], and the last one is then set to
    [stop]. A step that underflows to zero is handled as NumPy does, by
    dividing first; a negative [num] is rejected. The list may be of any
    length: the array size NumPy allows and the memory of the machine
    are not modelled, so that the model says what the samples are
    wherever NumPy returns them, not that it does. *)
Definition linspace (start stop : float) (num : Z) : result (list float) :=
  if num <? 0 then Raise ValueError
  else
    let div := num - 1 in
    let start := (start * F64.one)%f64 in
    let stop := (stop * F64.one)%f64 in
    let delta := (stop - start)%f64 in
    let y := arange num in
    let y :=
      if 0 <? div then
        let step := (delta / F64.of_Z div)%f64 in
        if (step == F64.zero)%f64
        then map (fun v => (v / F64.of_Z div * delta)%f64) y
        else map (fun v => (v * step)%f64) y
      else map (fun v => (v * delta)%f64) y in
    let y := map (fun v => (v + start)%f64) y in
    Ok (if 1 <? num then set_last y stop else y).

(** NumPy's global generator, as far as the notebook uses it:
    [np.random.seed(s)] replaces the state, and drawing one double of
    [np.random.random] advances it. *)
Record random_state : Type := {
  rng : Type;
  rng_seed : Z -> rng;
  rng_double : rng -> float * rng
}.

(** What NumPy documents of [np.random.random]: the doubles lie in the
    half-open interval [[0.0, 1.0)]. *)
Definition in_unit_interval (u : float) : bool :=
  (F64.valid u && (F64.zero <=? u) && (u <? F64.one))%f64.

Definition draws_in_unit_interval (R : random_state) : Prop :=
  forall g : rng R, in_unit_interval (fst (rng_double R g)) = true.

(** ** SciPy and Matplotlib *)

(** [scipy.integrate.odeint(func, y0, t)]: one row per time of [t]. *)
Definition integrator : Type :=
  (state -> float -> state) -> state -> list float -> list state.

(** What SciPy documents of [odeint]: the result has shape
    [(len(t), len(y0))], with the initial value [y0] in the first row. *)
Definition integrator_contract (odeint : integrator) : Prop :=
  forall func y0 t,
    length (odeint func y0 t) = length t /\
    (t <> [] -> hd_error (odeint func y0 t) = Some y0).

Definition rgba : Type := (float * float * float * float)%type.

(** A colour map such as [plt.cm.jet], from positions in [[0, 1]]. *)
Definition colormap : Type := float -> rgba.

(** A line of the 3D plot: the three coordinate arrays [x, y, z] and
    the colour [c]. *)
Record line3d : Type := {
  line_x : list float;
  line_y : list float;
  line_z : list float;
  line_c : rgba
}.

(** The figure [solve_lorenz] shows. *)
Record figure : Type := {
  xlim : Z * Z;
  ylim : Z * Z;
  zlim : Z * Z;
  lines : list line3d;
  view : Z * float
}.

(** The local variables of [solve_lorenz] when it returns, and its
    figure. *)
Record locals : Type := {
  x0 : list state;
  t : list float;
  x_t : list (list state);
  colors : list rgba;
  fig : figure
}.

(** ** [solve_lorenz] *)

Section Model.

Variable R : random_state.
Variable odeint : integrator.
Variable jet : colormap.

(** Computations of the notebook: they read and write the global
    generator and may raise. *)
Definition py (A : Type) : Type := rng R -> result A * rng R.

Definition ret {A : Type} (a : A) : py A := fun g => (Ok a, g).

Definition bind {A B : Type} (c : py A) (k : A -> py B) : py B :=
  fun g =>
    match c g with
    | (Ok a, g') => k a g'
    | (Raise e, g') => (Raise e, g')
    end.

Definition lift {A : Type} (r : result A) : py A := fun g => (r, g).

(** [np.random.seed(s)]. *)
Definition np_random_seed (s : Z) : py unit :=
  fun _ => (Ok tt, rng_seed R s).

(** Three consecutive doubles, one row of [np.random.random((N, 3))]. *)
Definition random_row (g : rng R) : state * rng R :=
  let (a, g1) := rng_double R g in
  let (b, g2) := rng_double R g1 in
  let (c, g3) := rng_double R g2 in
  ((a, b, c), g3).

Fixpoint random_rows (n : nat) (g : rng R) : list state * rng R :=
  match n with
  | O => ([], g)
  | S n' =>
      let (r, g1) := random_row g in
      let (rs, g2) := random_rows n' g1 in
      (r :: rs, g2)
  end.

(** [np.random.random((N, 3))]: the rows are filled in order; a negative
    dimension is rejected. *)
Definition np_random_random (N : Z) : py (list state) :=
  fun g =>
    if N <? 0 then (Raise ValueError, g)
    else let (rows, g') := random_rows (Z.to_nat N) g in (Ok rows, g').

(** [-15 + 30 * u], applied to every entry of the array. *)
Definition scale (u : float) : float :=
  (F64.of_Z (-15) + F64.of_Z 30 * u)%f64.

Definition scale_row (r : state) : state :=
  let '(a, b, c) := r in (scale a, scale b, scale c).

(** [np.random.seed(1); x0 = -15 + 30 * np.random.random((N, 3))]. *)
Definition initial_conditions (N : Z) : py (list state) :=
  bind (np_random_seed 1) (fun _ =>
  bind (np_random_random N) (fun u =>
  ret (map scale_row u))).

(** [int(250*max_time)], the number of time samples. *)
Definition sample_count (max_time : float) : result Z :=
  int_of_float (F64.of_Z 250 * max_time)%f64.

(** [t = np.linspace(0, max_time, int(250*max_time))]. *)
Definition time_grid (max_time : float) : result (list float) :=
  result_bind (sample_count max_time) (fun n =>
  linspace F64.zero max_time n).

(** [x_t = np.asarray([integrate.odeint(lorenz_deriv, x0i, t)
    for x0i in x0])]; the coefficients are the defaults the nested
    function captured. *)
Definition trajectories (sigma beta rho : float) (x0 : list state)
  (t : list float) : list (list state) :=
  map (fun x0i =>
         odeint (fun s t0 => lorenz_deriv s t0 sigma beta rho) x0i t)
      x0.

(** The positions of the colour map the trajectories are drawn at,
    [np.linspace(0, 1, N)]. *)
Definition color_positions (N : Z) : result (list float) :=
  linspace F64.zero F64.one N.

(** [colors = plt.cm.jet(np.linspace(0, 1, N))]. *)
Definition trajectory_colors (N : Z) : result (list rgba) :=
  result_map (map jet) (color_positions N).

(** [x, y, z = x_t[i,:,:].T]. *)
Definition transpose (tr : list state) : list float * list float * list float :=
  (map (fun s => fst (fst s)) tr, map (fun s => snd (fst s)) tr,
   map (fun s => snd s) tr).

(** The line [ax.plot(x, y, z, '-', c=c)] draws for a trajectory. *)
Definition line_of (tr : list state) (c : rgba) : line3d :=
  let '(x, y, z) := transpose tr in
  {| line_x := x; line_y := y; line_z := z; line_c := c |}.

(** One turn of the plotting loop:
    [ax.plot(x, y, z, '-', c=colors[i])] for [x_t[i]]. *)
Definition plot_line (x_t : list (list state)) (colors : list rgba)
  (i : nat) : result line3d :=
  match nth_error x_t i, nth_error colors i with
  | Some tr, Some c => Ok (line_of tr c)
  | _, _ => Raise IndexError
  end.

Fixpoint plot_loop (x_t : list (list state)) (colors : list rgba)
  (range : list nat) : result (list line3d) :=
  match range with
  | [] => Ok []
  | i :: rest =>
      result_bind (plot_line x_t colors i) (fun l =>
      result_bind (plot_loop x_t colors rest) (fun ls =>
      Ok (l :: ls)))
  end.

(** [solve_lorenz(N, angle, max_time, sigma, beta, rho)]. *)
Definition solve_lorenz (N : Z) (angle max_time sigma beta rho : float)
  : py locals :=
  bind (initial_conditions N) (fun x0 =>
  bind (lift (time_grid max_time)) (fun t =>
  let x_t := trajectories sigma beta rho x0 t in
  bind (lift (trajectory_colors N)) (fun colors =>
  bind (lift (plot_loop x_t colors (seq 0 (Z.to_nat N)))) (fun ls =>
  ret {| x0 := x0; t := t; x_t := x_t; colors := colors;
         fig := {| xlim := (-25, 25); ylim := (-35, 35); zlim := (5, 55);
                   lines := ls; view := (30, angle) |} |})))).

End Model.

Arguments ret {R A} a.
Arguments bind {R A B} c k.
Arguments lift {R A} r.

(** ** Rounding, in integers *)

Abbreviation fexp64 := (fexp 53 1024).

(** Round to nearest, ties to even, of [m / 2^n] for an exact [m]. *)
Definition round_shift (m n : Z) : Z :=
  let q := m / 2 ^ n in
  match 2 * (m mod 2 ^ n) ?= 2 ^ n with
  | Lt => q
  | Eq => if Z.even q then q else q + 1
  | Gt => q + 1
  end.

(** The second half: the rounded mantissa is brought back into the
    format when rounding carried it to [2^53]. *)
Definition finish (s : bool) (m1 e1 : Z) : spec_float :=
  let '(mrs, e2) := shr_fexp 53 1024 m1 e1 loc_Exact in
  match shr_m mrs with
  | Z0 => S754_zero s
  | Z.pos m => if e2 <=? 1024 - 53 then S754_finite s m e2 else S754_infinity s
  | Z.neg _ => S754_nan
  end.

(** The mantissas the format allows at an exponent. *)
Definition canonical (m : positive) (e : Z) : Prop :=
  -1074 <= e <= 971 /\
  (Z.pos (digits2_pos m) = 53 \/ e = -1074 /\ Z.pos (digits2_pos m) <= 53).

(** A finite, well-formed result that is at most [H * 2^eh], read on
    the way [SFcompare] orders numbers of one sign; or a zero. *)
Definition at_most (s : bool) (H : positive) (eh : Z) (r : spec_float) : Prop :=
  (exists z, r = S754_zero z) \/
  exists m e, r = S754_finite s m e /\ canonical m e /\
              (e < eh \/ e = eh /\ Z.pos m <= Z.pos H).

(** ** The libraries, concretely *)

(** The generator behind [np.random.seed] and [np.random.random]: the
    Mersenne Twister MT19937, on 32-bit words. *)
Module MT19937.

Definition mask32 (x : Z) : Z := Z.land x 4294967295.

Record mt_state : Type := {
  key : list Z;
  pos : nat
}.

(** Seeding from one integer, by Knuth's linear congruential
    recurrence. *)
Fixpoint init_key (n : nat) (i s : Z) : list Z :=
  match n with
  | O => []
  | S n' =>
      s :: init_key n' (i + 1)
             (mask32 (1812433253 * Z.lxor s (Z.shiftr s 30) + i + 1))
  end.

Definition seed (s : Z) : mt_state :=
  {| key := init_key 624 0 (mask32 s); pos := 624 |}.

Fixpoint set_nth (i : nat) (v : Z) (k : list Z) : list Z :=
  match k, i with
  | [], _ => []
  | _ :: k', O => v :: k'
  | x :: k', S i' => x :: set_nth i' v k'
  end.

(** One step of the in-place regeneration of the 624 words. *)
Definition twist_at (k : list Z) (i : nat) : list Z :=
  let y := Z.lor (Z.land (nth i k 0) 2147483648)
                 (Z.land (nth ((i + 1) mod 624) k 0) 2147483647) in
  let v := Z.lxor (Z.lxor (nth ((i + 397) mod 624) k 0) (Z.shiftr y 1))
                  (if Z.odd y then 2567483615 else 0) in
  set_nth i v k.

Definition gen (k : list Z) : list Z := fold_left twist_at (seq 0 624) k.

Definition temper (y : Z) : Z :=
  let y := Z.lxor y (Z.shiftr y 11) in
  let y := Z.lxor y (Z.land (Z.shiftl y 7) 2636928640) in
  let y := Z.lxor y (Z.land (Z.shiftl y 15) 4022730752) in
  Z.lxor y (Z.shiftr y 18).

(** The next 32-bit word. *)
Definition next (st : mt_state) : Z * mt_state :=
  let st := if Nat.eqb (pos st) 624
            then {| key := gen (key st); pos := 0 |} else st in
  (mask32 (temper (nth (pos st) (key st) 0)),
   {| key := key st; pos := S (pos st) |}).

(** [k / 2^53] as a double. *)
Definition dyadic53 (k : Z) : float := binary_normalize 53 1024 k (-53) false.

(** The next double: 27 bits of one word and 26 of the next,
    [(a * 67108864.0 + b) / 9007199254740992.0] with [a = x >> 5] and
    [b = y >> 6]; both operations are exact in binary64. *)
Definition next_double (st : mt_state) : float * mt_state :=
  let (x, st1) := next st in
  let (y, st2) := next st1 in
  (dyadic53 (Z.shiftr x 5 * 67108864 + Z.shiftr y 6), st2).

End MT19937.

(** NumPy's legacy global generator. *)
Definition numpy_random : random_state :=
  {| rng := MT19937.mt_state;
     rng_seed := MT19937.seed;
     rng_double := MT19937.next_double |}.

(** A generator that only ever draws [0.0], the least value the
    interval [[0.0, 1.0)] allows. *)
Definition constant_zero_random : random_state :=
  {| rng := unit;
     rng_seed := fun _ => tt;
     rng_double := fun g => (F64.zero, g) |}.

(** An integrator that meets the contract of [odeint]: the explicit
    Euler method on the given times. *)
Definition euler_step (h : float) (k y : state) : state :=
  let '(k1, k2, k3) := k in
  let '(y1, y2, y3) := y in
  (y1 + h * k1, y2 + h * k2, y3 + h * k3)%f64.

Fixpoint euler_from (func : state -> float -> state) (y : state)
  (t_prev : float) (ts : list float) : list state :=
  match ts with
  | [] => []
  | t1 :: rest =>
      let y' := euler_step (t1 - t_prev)%f64 (func y t_prev) y in
      y' :: euler_from func y' t1 rest
  end.

Definition euler : integrator :=
  fun func y0 t =>
    match t with
    | [] => []
    | t0 :: ts => y0 :: euler_from func y0 t0 ts
    end.

(** A colour map: shades of grey. *)
Definition gray : colormap := fun x => (x, x, x, F64.one).

(** ** Vocabulary of the statements *)

(** The sample [np.linspace] computes from the index [v] when it is
    asked for two samples or more. *)
Definition linspace_sample (start stop : float) (num : Z) (v : float)
  : float :=
  let start := (start * F64.one)%f64 in
  let stop := (stop * F64.one)%f64 in
  let delta := (stop - start)%f64 in
  let step := (delta / F64.of_Z (num - 1))%f64 in
  ((if (step == F64.zero)%f64 then v / F64.of_Z (num - 1) * delta
    else v * step) + start)%f64.


(** A row of three doubles of [[0.0, 1.0)]. *)
Definition row_in_unit_interval (r : state) : Prop :=
  let '(a, b, c) := r in
  in_unit_interval a = true /\ in_unit_interval b = true /\
  in_unit_interval c = true.


(** The rows drawn right after [np.random.seed(1)]. *)
Definition seeded_rows (R : random_state) (N : Z) : list state * rng R :=
  random_rows R (Z.to_nat N) (rng_seed R 1).


(** A coordinate within [[-15, 15]]. *)
Definition in_range (c : float) : bool :=
  ((F64.of_Z (-15) <=? c) && (c <=? F64.of_Z 15))%f64.

(** A point of the cube [[-15, 15]^3]. *)
Definition in_cube (p : state) : bool :=
  let '(a, b, c) := p in in_range a && in_range b && in_range c.

(** A coordinate within [[-15, 15)]. *)
Definition in_half_open_range (c : float) : bool :=
  ((F64.of_Z (-15) <=? c) && (c <? F64.of_Z 15))%f64.

(** A point of the cube [[-15, 15)^3]. *)
Definition in_half_open_cube (p : state) : bool :=
  let '(a, b, c) := p in
  in_half_open_range a && in_half_open_range b && in_half_open_range c.

(** The horizons [0.25] and [1/128], and the parameters
    [sigma=10.0, beta=8./3, rho=28.0] the notebook starts from. *)
Definition quarter : float := F64.div (F64.of_Z 1) (F64.of_Z 4).
Definition one_128th : float := F64.div (F64.of_Z 1) (F64.of_Z 128).
Definition sigma0 : float := F64.of_Z 10.
Definition beta0 : float := F64.div (F64.of_Z 8) (F64.of_Z 3).
Definition rho0 : float := F64.of_Z 28.

(** ** Vocabulary of the further properties *)

(** The generator after [k] more draws. *)
Definition advance (R : random_state) (k : nat) (g : rng R) : rng R :=
  Nat.iter k (fun g' => snd (rng_double R g')) g.

(** The double drawn from [g] after [k] earlier draws. *)
Definition draw (R : random_state) (k : nat) (g : rng R) : float :=
  fst (rng_double R (advance R k g)).

(** [-x] on a Python float. The model has one NaN: the sign bit that
    negation flips on a NaN is not represented. *)
Definition neg (x : float) : float := SFopp x.

Definition is_nan (x : float) : bool :=
  match x with
  | S754_nan => true
  | _ => false
  end.

Definition is_zero (x : float) : bool :=
  match x with
  | S754_zero _ => true
  | _ => false
  end.

(** The same float bit for bit, or two zeros whatever their signs, or
    two NaNs. *)
Definition same_number (x y : float) : bool :=
  match x, y with
  | S754_zero _, S754_zero _ => true
  | S754_nan, S754_nan => true
  | S754_infinity a, S754_infinity b => Bool.eqb a b
  | S754_finite a m e, S754_finite b m' e' =>
      Bool.eqb a b && Pos.eqb m m' && Z.eqb e e'
  | _, _ => false
  end.

(** The locals of a run with the azimuth of the camera replaced. *)
Definition with_azimuth (a : float) (l : locals) : locals :=
  {| x0 := x0 l; t := t l; x_t := x_t l; colors := colors l;
     fig := {| xlim := xlim (fig l); ylim := ylim (fig l);
               zlim := zlim (fig l); lines := lines (fig l);
               view := (fst (view (fig l)), a) |} |}.

(** What a run shows apart from the integrated coordinates: the
    initial conditions, the time grid, the colours, the bounding box,
    the camera and the colour of every line. *)
Definition surroundings (l : locals)
  : list state * list float * list rgba * (Z * Z) * (Z * Z) * (Z * Z)
    * (Z * float) * list rgba :=
  (x0 l, t l, colors l, xlim (fig l), ylim (fig l), zlim (fig l),
   view (fig l), map line_c (lines (fig l))).

(** The samples of a line, put back side by side. *)
Definition line_points (ln : line3d) : list state :=
  combine (combine (line_x ln) (line_y ln)) (line_z ln).

(** The double [2^1015]. *)
Definition two_pow_1015 : float := S754_finite false 4503599627370496 963.

(** The double [-2^-7], that is [-0.0078125]. *)
Definition minus_one_128th : float := neg one_128th.

(** A list of doubles each strictly below the next. *)
Fixpoint increasing (l : list float) : bool :=
  match l with
  | [] => true
  | a :: r =>
      match r with
      | [] => true
      | b :: _ => (a <? b)%f64 && increasing r
      end
  end.

(** A position of the colour map, within [[0, 1]]. *)
Definition in_unit_range (p : float) : bool :=
  ((F64.zero <=? p) && (p <=? F64.one))%f64.

(** A time of the grid, within [[0, max_time]]. *)
Definition in_horizon (max_time s : float) : bool :=
  ((F64.zero <=? s) && (s <=? max_time))%f64.

(** The double [1/64]. *)
Definition one_64th : float := F64.div (F64.of_Z 1) (F64.of_Z 64).

(** The double [4096.0]. *)
Definition c_4096 : float := F64.of_Z 4096.

(** ** The colour map as a table *)

(** [plt.cm.jet] is a table of 256 colours, followed by the three
    entries for positions below the range, above it, and invalid. A
    position [x] is multiplied by 256 and truncated to the index of its
    entry; the position [1.0] reads the last of the 256. *)
Definition lut_index (x : float) : Z :=
  let xa := (x * F64.of_Z 256)%f64 in
  if is_nan xa then 258
  else if (xa == F64.of_Z 256)%f64 then 255
  else if (xa <? F64.zero)%f64 then 256
  else if (F64.of_Z 256 <=? xa)%f64 then 257
  else match int_of_float xa with
       | Ok k => k
       | Raise _ => 258
       end.


(** The entry of the table that holds the exact position [i / (N - 1)]:
    [floor(256 * i / (N - 1))], and the last entry for [i = N - 1]. *)
Definition exact_index (N i : Z) : Z :=
  if i =? N - 1 then 255 else 256 * i / (N - 1).



(** The doubles [0.004] and [0.008], the quotients [1/250] and
    [2/250]. *)
Definition c_004 : float := F64.div (F64.of_Z 1) (F64.of_Z 250).
Definition c_008 : float := F64.div (F64.of_Z 2) (F64.of_Z 250).

(** * Binary64 rounding *)


(** Number of binary digits. *)
Lemma digits2_pos_size (p : positive) : digits2_pos p = Pos.size p.
Proof.
  induction p as [p IH|p IH|]; simpl; congruence.
Qed.

Lemma digits2_pos_log2 (p : positive) :
  Z.pos (digits2_pos p) = Z.log2 (Z.pos p) + 1.
Proof.
  destruct p as [p|p|]; simpl; rewrite ?digits2_pos_size; lia.
Qed.

Lemma digits2_pos_bounds (p : positive) :
  2 ^ (Z.pos (digits2_pos p) - 1) <= Z.pos p < 2 ^ Z.pos (digits2_pos p).
Proof.
  rewrite digits2_pos_log2.
  replace (Z.log2 (Z.pos p) + 1 - 1) with (Z.log2 (Z.pos p)) by lia.
  apply (Z.log2_spec (Z.pos p)). lia.
Qed.

Lemma digits2_pos_unique (p : positive) (d : Z) :
  2 ^ (d - 1) <= Z.pos p < 2 ^ d -> Z.pos (digits2_pos p) = d.
Proof.
  intros H.
  assert (0 < d).
  { destruct (Z.lt_trichotomy d 0) as [Hd|[Hd|Hd]]; try assumption.
    - rewrite (Z.pow_neg_r 2 d) in H by assumption. lia.
    - subst. simpl in H. lia. }
  rewrite digits2_pos_log2.
  rewrite (Z.log2_unique (Z.pos p) (d - 1)); try lia.
  replace (Z.succ (d - 1)) with d by lia. exact H.
Qed.


(** One right shift keeps the round and sticky bits. *)
Lemma shr_1_nonneg (m : Z) (r s : bool) :
  0 <= m ->
  shr_1 (Build_shr_record m r s) = Build_shr_record (m / 2) (Z.odd m) (r || s).
Proof.
  intros Hm. rewrite <- Z.div2_div.
  destruct m as [|p|p]; [reflexivity| |lia].
  destruct p; reflexivity.
Qed.

Lemma iter_pos_nat {A : Type} (f : A -> A) (p : positive) (x : A) :
  iter_pos f p x = Nat.iter (Pos.to_nat p) f x.
Proof.
  revert x; induction p as [p IH|p IH|]; intros x; simpl iter_pos.
  - rewrite 2 IH, Pos2Nat.inj_xI, Nat.iter_succ_r.
    replace (2 * Pos.to_nat p)%nat with (Pos.to_nat p + Pos.to_nat p)%nat by lia.
    now rewrite Nat.iter_add.
  - rewrite 2 IH, Pos2Nat.inj_xO.
    replace (2 * Pos.to_nat p)%nat with (Pos.to_nat p + Pos.to_nat p)%nat by lia.
    now rewrite Nat.iter_add.
  - reflexivity.
Qed.

Lemma mod_pow2_succ (m k : Z) :
  0 <= k ->
  m mod 2 ^ (k + 1) = m mod 2 ^ k + 2 ^ k * ((m / 2 ^ k) mod 2).
Proof.
  intros Hk. rewrite Z.pow_add_r by lia. change (2 ^ 1) with 2.
  apply Z.rem_mul_r; [|lia].
  apply Z.pow_nonzero; lia.
Qed.

Lemma odd_mod2 (a : Z) : Z.odd a = negb (a mod 2 =? 0).
Proof.
  rewrite Zmod_odd. destruct (Z.odd a); reflexivity.
Qed.

(** [k + 1] right shifts: the quotient, the bit shifted out last, and
    whether anything below it was set. *)
Lemma iter_shr_1 (k : nat) (m : Z) (r s : bool) :
  0 <= m ->
  Nat.iter (S k) shr_1 (Build_shr_record m r s) =
  Build_shr_record (m / 2 ^ Z.of_nat (S k)) (Z.odd (m / 2 ^ Z.of_nat k))
    (r || s || negb (m mod 2 ^ Z.of_nat k =? 0)).
Proof.
  intros Hm. induction k as [|k IH].
  - rewrite Nat.iter_succ.
    change (Nat.iter 0 shr_1 (Build_shr_record m r s))
      with (Build_shr_record m r s).
    rewrite shr_1_nonneg by assumption.
    change (2 ^ Z.of_nat 1) with 2. change (2 ^ Z.of_nat 0) with 1.
    rewrite Z.div_1_r, Z.mod_1_r. simpl. now rewrite orb_false_r.
  - rewrite Nat.iter_succ, IH.
    assert (Hp : 0 < 2 ^ Z.of_nat (S k)) by (apply Z.pow_pos_nonneg; lia).
    rewrite shr_1_nonneg by (apply Z.div_pos; lia).
    f_equal.
    + rewrite Z.div_div by lia.
      f_equal. rewrite (Nat2Z.inj_succ (S k)), Z.pow_succ_r by lia. lia.
    + replace (Z.of_nat (S k)) with (Z.of_nat k + 1) by lia.
      rewrite mod_pow2_succ by lia.
      rewrite (odd_mod2 (m / 2 ^ Z.of_nat k)).
      assert (0 < 2 ^ Z.of_nat k) by (apply Z.pow_pos_nonneg; lia).
      assert (0 <= m mod 2 ^ Z.of_nat k < 2 ^ Z.of_nat k)
        by (apply Z.mod_pos_bound; lia).
      assert (0 <= (m / 2 ^ Z.of_nat k) mod 2 < 2)
        by (apply Z.mod_pos_bound; lia).
      destruct r, s; simpl;
      destruct (Z.eqb_spec ((m / 2 ^ Z.of_nat k) mod 2) 0);
      destruct (Z.eqb_spec (m mod 2 ^ Z.of_nat k) 0);
      destruct (Z.eqb_spec
        (m mod 2 ^ Z.of_nat k + 2 ^ Z.of_nat k * ((m / 2 ^ Z.of_nat k) mod 2)) 0);
      simpl; try reflexivity; exfalso; nia.
Qed.



Lemma round_shift_0 (m : Z) : round_shift m 0 = m.
Proof.
  unfold round_shift. change (2 ^ 0) with 1.
  now rewrite Z.mod_1_r, Z.div_1_r.
Qed.

Lemma shr_round (m : Z) (p : positive) :
  0 <= m ->
  let mrs := iter_pos shr_1 p (Build_shr_record m false false) in
  round_nearest_even (shr_m mrs) (loc_of_shr_record mrs)
  = round_shift m (Z.pos p).
Proof.
  intros Hm mrs. subst mrs. rewrite iter_pos_nat.
  destruct (Pos2Nat.is_succ p) as [k Hk]. rewrite Hk.
  rewrite iter_shr_1 by assumption.
  assert (Ep : Z.pos p = Z.of_nat k + 1) by lia.
  unfold round_shift. rewrite Ep.
  replace (Z.of_nat (S k)) with (Z.of_nat k + 1) by lia.
  rewrite mod_pow2_succ by lia.
  rewrite (Z.pow_add_r 2 (Z.of_nat k) 1) by lia. change (2 ^ 1) with 2.
  set (P := 2 ^ Z.of_nat k).
  assert (HP : 0 < P) by (apply Z.pow_pos_nonneg; lia).
  set (q := m / (P * 2)).
  rewrite (odd_mod2 (m / P)).
  assert (Hl : 0 <= m mod P < P) by (apply Z.mod_pos_bound; lia).
  assert (Hb : 0 <= (m / P) mod 2 < 2) by (apply Z.mod_pos_bound; lia).
  cbn [shr_m orb].
  destruct (Z.eqb_spec ((m / P) mod 2) 0) as [Eb|Eb];
  destruct (Z.eqb_spec (m mod P) 0) as [El|El]; cbn [negb loc_of_shr_record round_nearest_even].
  - rewrite Eb, El.
    replace (2 * (0 + P * 0) ?= P * 2) with Lt; [reflexivity|].
    symmetry; apply Z.compare_lt_iff; lia.
  - rewrite Eb.
    replace (2 * (m mod P + P * 0) ?= P * 2) with Lt; [reflexivity|].
    symmetry; apply Z.compare_lt_iff; lia.
  - replace ((m / P) mod 2) with 1 by lia. rewrite El.
    replace (2 * (0 + P * 1) ?= P * 2) with Eq; [reflexivity|].
    symmetry; apply Z.compare_eq_iff; lia.
  - replace ((m / P) mod 2) with 1 by lia.
    replace (2 * (m mod P + P * 1) ?= P * 2) with Gt; [reflexivity|].
    symmetry; apply Z.compare_gt_iff; lia.
Qed.


Lemma fexp64_eq (e : Z) : fexp64 e = Z.max (e - 53) (-1074).
Proof. reflexivity. Qed.

(** The first half of [binary_round_aux]: shift to the exponent the
    format asks for and round. *)
Lemma shr_fexp_round (M : positive) (E : Z) :
  E <= fexp64 (Z.pos (digits2_pos M) + E) ->
  let '(mrs, e1) := shr_fexp 53 1024 (Z.pos M) E loc_Exact in
  e1 = fexp64 (Z.pos (digits2_pos M) + E) /\
  round_nearest_even (shr_m mrs) (loc_of_shr_record mrs)
  = round_shift (Z.pos M) (e1 - E).
Proof.
  intros Hn. unfold shr_fexp. cbn [Zdigits2 shr_record_of_loc].
  set (e1 := fexp64 (Z.pos (digits2_pos M) + E)) in *.
  unfold shr.
  destruct (e1 - E) as [|p|p] eqn:En; try lia.
  - split; [lia|]. cbn [shr_m loc_of_shr_record round_nearest_even].
    replace (E - E) with 0 by lia. now rewrite round_shift_0.
  - split; [lia|]. replace (E + Z.pos p - E) with (Z.pos p) by lia.
    apply shr_round. lia.
Qed.


Lemma binary_round_aux_finish (s : bool) (M : positive) (E : Z) :
  E <= fexp64 (Z.pos (digits2_pos M) + E) ->
  binary_round_aux 53 1024 s (Z.pos M) E loc_Exact
  = finish s (round_shift (Z.pos M) (fexp64 (Z.pos (digits2_pos M) + E) - E))
      (fexp64 (Z.pos (digits2_pos M) + E)).
Proof.
  intros Hn. unfold binary_round_aux.
  pose proof (shr_fexp_round M E Hn) as H.
  destruct (shr_fexp 53 1024 (Z.pos M) E loc_Exact) as [mrs e1].
  destruct H as [-> ->]. reflexivity.
Qed.

Lemma finish_zero (s : bool) (e1 : Z) :
  -1074 <= e1 -> finish s 0 e1 = S754_zero s.
Proof.
  intros He. unfold finish, shr_fexp. cbn [Zdigits2 shr_record_of_loc].
  rewrite fexp64_eq. unfold shr.
  destruct (Z.max (0 + e1 - 53) (-1074) - e1) eqn:En; try lia; reflexivity.
Qed.

Lemma finish_small (s : bool) (m : positive) (e1 : Z) :
  -1074 <= e1 -> Z.pos m < 2 ^ 53 ->
  finish s (Z.pos m) e1
  = if e1 <=? 971 then S754_finite s m e1 else S754_infinity s.
Proof.
  intros He Hm. unfold finish, shr_fexp. cbn [Zdigits2 shr_record_of_loc].
  rewrite fexp64_eq. unfold shr.
  assert (Hd : Z.pos (digits2_pos m) <= 53).
  { pose proof (digits2_pos_bounds m) as B.
    destruct (Z_le_gt_dec (Z.pos (digits2_pos m)) 53) as [L|G]; [exact L|].
    exfalso. assert (2 ^ 53 <= 2 ^ (Z.pos (digits2_pos m) - 1))
      by (apply Z.pow_le_mono_r; lia). lia. }
  destruct (Z.max (Z.pos (digits2_pos m) + e1 - 53) (-1074) - e1) eqn:En;
    try lia; reflexivity.
Qed.

Lemma finish_carry (s : bool) (e1 : Z) :
  -1074 <= e1 ->
  finish s (2 ^ 53) e1
  = if e1 + 1 <=? 971 then S754_finite s (2 ^ 52)%positive (e1 + 1)
    else S754_infinity s.
Proof.
  intros He. unfold finish, shr_fexp.
  change (Zdigits2 (2 ^ 53)) with 54. rewrite fexp64_eq.
  replace (Z.max (54 + e1 - 53) (-1074) - e1) with 1 by lia.
  reflexivity.
Qed.


Lemma round_shift_bounds (m n : Z) :
  m / 2 ^ n <= round_shift m n <= m / 2 ^ n + 1.
Proof.
  unfold round_shift.
  destruct (2 * (m mod 2 ^ n) ?= 2 ^ n); [destruct (Z.even _)| |]; lia.
Qed.

Lemma round_shift_down (m n : Z) :
  2 * (m mod 2 ^ n) < 2 ^ n -> round_shift m n = m / 2 ^ n.
Proof.
  intros H. unfold round_shift.
  apply Z.compare_lt_iff in H. now rewrite H.
Qed.

(** A value strictly below the midpoint above [B] does not round
    past [B]. *)
Lemma round_shift_le (m n B : Z) :
  0 <= n -> 2 * m < (2 * B + 1) * 2 ^ n -> round_shift m n <= B.
Proof.
  intros Hn H.
  assert (HP : 0 < 2 ^ n) by (apply Z.pow_pos_nonneg; lia).
  pose proof (Z.div_mod m (2 ^ n) ltac:(lia)) as E.
  pose proof (Z.mod_pos_bound m (2 ^ n) HP) as Hr.
  pose proof (round_shift_bounds m n) as Hb.
  destruct (Z_lt_le_dec (m / 2 ^ n) B) as [L|G]; [lia|].
  rewrite round_shift_down; nia.
Qed.


Lemma bounded_canonical (m : positive) (e : Z) :
  bounded 53 1024 m e = true <-> canonical m e.
Proof.
  unfold bounded, canonical_mantissa, canonical. rewrite fexp64_eq.
  rewrite andb_true_iff, Z.eqb_eq, Z.leb_le. change (1024 - 53) with 971.
  lia.
Qed.

Lemma digits_lt_pow (m : positive) (d : Z) :
  Z.pos (digits2_pos m) <= d -> Z.pos m < 2 ^ d.
Proof.
  intros H. pose proof (digits2_pos_bounds m) as B.
  assert (2 ^ Z.pos (digits2_pos m) <= 2 ^ d)
    by (apply Z.pow_le_mono_r; lia).
  lia.
Qed.

Lemma digits_ge_pow (m : positive) (d : Z) :
  d <= Z.pos (digits2_pos m) -> 2 ^ (d - 1) <= Z.pos m.
Proof.
  intros H. pose proof (digits2_pos_bounds m) as B.
  assert (2 ^ (d - 1) <= 2 ^ (Z.pos (digits2_pos m) - 1))
    by (apply Z.pow_le_mono_r; lia).
  lia.
Qed.



Lemma digits_le_of_lt (m : positive) (d : Z) :
  Z.pos m < 2 ^ d -> Z.pos (digits2_pos m) <= d.
Proof.
  intros H. destruct (Z_le_gt_dec (Z.pos (digits2_pos m)) d) as [L|G]; [exact L|].
  pose proof (digits_ge_pow m (d + 1) ltac:(lia)) as B.
  replace (d + 1 - 1) with d in B by lia. lia.
Qed.

(** Rounding a positive exact value that lies strictly below the
    midpoint above the binary64 number [H * 2^eh] gives at most that
    number. *)
Lemma round_aux_at_most (s : bool) (M H : positive) (E eh : Z) :
  E <= fexp64 (Z.pos (digits2_pos M) + E) ->
  E <= eh -> canonical H eh ->
  2 * Z.pos M < (2 * Z.pos H + 1) * 2 ^ (eh - E) ->
  at_most s H eh (binary_round_aux 53 1024 s (Z.pos M) E loc_Exact).
Proof.
  intros Hn HE [Heh HcH] Hlt.
  rewrite binary_round_aux_finish by assumption.
  rewrite fexp64_eq in *.
  pose proof (digits2_pos_bounds M) as [BdL BdU].
  set (d := Z.pos (digits2_pos M)) in *.
  set (e1 := Z.max (d + E - 53) (-1074)) in *.
  set (n := e1 - E).
  assert (Hn0 : 0 <= n) by (unfold n; lia).
  assert (HH : Z.pos H < 2 ^ 53) by (apply digits_lt_pow; lia).
  assert (HPn : 0 < 2 ^ n) by (apply Z.pow_pos_nonneg; lia).
  (* the result's exponent does not exceed that of the bound *)
  assert (He1 : e1 <= eh).
  { destruct (Z_le_gt_dec e1 eh) as [L|G]; [exact L|exfalso].
    assert (Ed : d - 1 = 52 + n) by (unfold n; lia).
    rewrite Ed, Z.pow_add_r in BdL by lia.
    assert (Hk : 2 ^ (eh - E) <= 2 ^ (n - 1))
      by (apply Z.pow_le_mono_r; unfold n; lia).
    assert (En : 2 ^ n = 2 * 2 ^ (n - 1)).
    { rewrite <- Z.pow_succ_r by (unfold n; lia). f_equal; lia. }
    assert (0 < 2 ^ (eh - E)) by (apply Z.pow_pos_nonneg; lia).
    change (2 ^ 52) with 4503599627370496 in BdL.
    change (2 ^ 53) with 9007199254740992 in HH.
    nia. }
  set (m1 := round_shift (Z.pos M) n).
  pose proof (round_shift_bounds (Z.pos M) n) as Hrs. fold m1 in Hrs.
  assert (Hq : Z.pos M / 2 ^ n < 2 ^ 53).
  { apply Z.div_lt_upper_bound; [lia|].
    rewrite <- Z.pow_add_r by lia.
    assert (2 ^ d <= 2 ^ (n + 53)) by (apply Z.pow_le_mono_r; unfold n; lia).
    lia. }
  assert (Hq0 : 0 <= Z.pos M / 2 ^ n) by (apply Z.div_pos; lia).
  (* the rounded mantissa does not exceed the bound at the same exponent *)
  assert (HB : m1 <= Z.pos H * 2 ^ (eh - e1)).
  { destruct (Z.eq_dec eh e1) as [Ee|Ne].
    - replace (eh - e1) with 0 by lia. rewrite Z.mul_1_r.
      apply round_shift_le; [lia|].
      replace n with (eh - E) by (unfold n; lia). exact Hlt.
    - assert (2 ^ 1 <= 2 ^ (eh - e1)) by (apply Z.pow_le_mono_r; lia).
      change (2 ^ 1) with 2 in *.
      destruct HcH as [Hd|[Hd _]]; [|unfold e1 in *; lia].
      pose proof (digits_ge_pow H 53 ltac:(lia)) as HL.
      change (2 ^ (53 - 1)) with 4503599627370496 in HL.
      change (2 ^ 53) with 9007199254740992 in *. nia. }
  destruct (Z.eq_dec m1 0) as [E0|N0].
  { rewrite E0. left. exists s. apply finish_zero. unfold e1; lia. }
  destruct (Z.eq_dec m1 (2 ^ 53)) as [Ec|Nc].
  { rewrite Ec. rewrite finish_carry by (unfold e1; lia).
    assert (Hk : e1 + 1 <= eh).
    { destruct (Z_le_gt_dec (e1 + 1) eh) as [L|G]; [exact L|exfalso].
      replace (eh - e1) with 0 in HB by lia. lia. }
    replace (e1 + 1 <=? 971) with true by (symmetry; apply Z.leb_le; lia).
    right. exists (2 ^ 52)%positive, (e1 + 1). split; [reflexivity|].
    split.
    - split; [unfold e1; lia|]. left. reflexivity.
    - destruct (Z.eq_dec (e1 + 1) eh) as [Ee|Ne]; [right|left; lia].
      split; [exact Ee|].
      replace (eh - e1) with 1 in HB by lia. change (2 ^ 1) with 2 in HB.
      rewrite Ec in HB. change (2 ^ 53) with 9007199254740992 in HB.
      change (Z.pos (2 ^ 52)) with 4503599627370496. lia. }
  destruct m1 as [|p|p] eqn:Em1; try lia.
  rewrite finish_small by (unfold e1; lia).
  replace (e1 <=? 971) with true by (symmetry; apply Z.leb_le; lia).
  right. exists p, e1. split; [reflexivity|]. split.
  - split; [unfold e1; lia|].
    destruct (Z.eq_dec e1 (-1074)) as [Em|Nm].
    + right. split; [exact Em|]. apply digits_le_of_lt. lia.
    + left. apply digits2_pos_unique. change (53 - 1) with 52.
      split; [|lia].
      assert (Ed : d - 1 = 52 + n) by (unfold n, e1 in *; lia).
      rewrite Ed, Z.pow_add_r in BdL by lia.
      assert (2 ^ 52 <= Z.pos M / 2 ^ n)
        by (apply Z.div_le_lower_bound; lia).
      lia.
  - destruct (Z.eq_dec e1 eh) as [Ee|Ne]; [right|left; lia].
    split; [exact Ee|].
    replace (eh - e1) with 0 in HB by lia. lia.
Qed.


Lemma shl_align_le (mx : positive) (ex ez : Z) :
  ez <= ex ->
  Z.pos (fst (shl_align mx ex ez)) = Z.pos mx * 2 ^ (ex - ez) /\
  snd (shl_align mx ex ez) = ez.
Proof.
  intros H. unfold shl_align.
  destruct (ez - ex) as [|p|p] eqn:E; try lia; cbn [fst snd].
  - replace (ex - ez) with 0 by lia. lia.
  - change (Pos.iter xO mx p) with (shift_pos p mx).
    rewrite shift_pos_correct. replace (ex - ez) with (Z.pos p) by lia.
    change (Z.pow_pos 2 p) with (2 ^ Z.pos p). lia.
Qed.

Lemma shl_align_ge (mx : positive) (ex ez : Z) :
  ex <= ez -> shl_align mx ex ez = (mx, ex).
Proof.
  intros H. unfold shl_align.
  destruct (ez - ex) as [|p|p] eqn:E; try lia; reflexivity.
Qed.

Lemma digits_shift (m mz : positive) (k : Z) :
  0 <= k -> Z.pos mz = Z.pos m * 2 ^ k ->
  Z.pos (digits2_pos mz) = Z.pos (digits2_pos m) + k.
Proof.
  intros Hk E. apply digits2_pos_unique. rewrite E.
  pose proof (digits2_pos_bounds m) as [L U].
  replace (Z.pos (digits2_pos m) + k - 1)
    with (Z.pos (digits2_pos m) - 1 + k) by lia.
  rewrite 2 Z.pow_add_r by lia.
  assert (0 < 2 ^ k) by (apply Z.pow_pos_nonneg; lia).
  nia.
Qed.

(** The same bound for [binary_round], which first aligns the mantissa
    to the exponent of the format. *)
Lemma binary_round_at_most (s : bool) (M H : positive) (E eh : Z) :
  E <= eh -> canonical H eh ->
  2 * Z.pos M < (2 * Z.pos H + 1) * 2 ^ (eh - E) ->
  at_most s H eh (binary_round 53 1024 s M E).
Proof.
  intros HE Hc Hlt. unfold binary_round.
  set (e1 := fexp64 (Z.pos (digits2_pos M) + E)).
  destruct (Z_le_gt_dec E e1) as [L|G].
  - rewrite shl_align_ge by exact L.
    apply round_aux_at_most; assumption.
  - destruct (shl_align_le M E e1 ltac:(lia)) as [Em Ee].
    destruct (shl_align M E e1) as [mz ez]. cbn [fst snd] in Em, Ee. subst ez.
    pose proof (digits_shift M mz (E - e1) ltac:(lia) Em) as Ed.
    apply round_aux_at_most; try assumption.
    + rewrite Ed. replace (Z.pos (digits2_pos M) + (E - e1) + e1)
        with (Z.pos (digits2_pos M) + E) by lia.
      fold e1. lia.
    + lia.
    + rewrite Em. replace (eh - e1) with ((eh - E) + (E - e1)) by lia.
      destruct Hc as [Hc _].
      rewrite Z.pow_add_r by lia.
      assert (0 < 2 ^ (E - e1)) by (apply Z.pow_pos_nonneg; lia).
      nia.
Qed.


(** ** Rounding from any location *)

Lemma round_nearest_even_bounds (m : Z) (l : location) :
  m <= round_nearest_even m l <= m + 1.
Proof.
  destruct l as [|[]]; cbn [round_nearest_even];
    try destruct (Z.even m); lia.
Qed.

Lemma shr_record_of_loc_m (m : Z) (l : location) :
  exists r s, shr_record_of_loc m l = Build_shr_record m r s.
Proof. destruct l as [|[]]; cbn; eauto. Qed.

(** [binary_round_aux], whatever the location it starts from: the
    mantissa is cut down to the exponent the format asks for, rounded up
    by one at most, and brought back into the format. *)
Lemma binary_round_aux_loc (s : bool) (q E : Z) (l : location) :
  0 < q ->
  E <= fexp64 (Zdigits2 q + E) ->
  exists m1,
    q / 2 ^ (fexp64 (Zdigits2 q + E) - E) <= m1
      <= q / 2 ^ (fexp64 (Zdigits2 q + E) - E) + 1 /\
    binary_round_aux 53 1024 s q E l
    = finish s m1 (fexp64 (Zdigits2 q + E)).
Proof.
  intros Hq Hn. unfold binary_round_aux, shr_fexp.
  set (e1 := fexp64 (Zdigits2 q + E)) in *.
  destruct (shr_record_of_loc_m q l) as (r0 & s0 & ->).
  unfold shr. destruct (e1 - E) as [|p|p] eqn:En; try lia.
  - exists (round_nearest_even q
              (loc_of_shr_record (Build_shr_record q r0 s0))).
    cbn [shr_m]. split.
    + change (2 ^ 0) with 1. rewrite Z.div_1_r.
      apply round_nearest_even_bounds.
    + unfold finish. replace e1 with E by lia. reflexivity.
  - rewrite iter_pos_nat.
    destruct (Pos2Nat.is_succ p) as [k Hk]. rewrite Hk.
    rewrite iter_shr_1 by lia.
    replace (Z.of_nat (S k)) with (Z.pos p) by lia.
    match goal with
    | |- context [loc_of_shr_record ?rec] =>
        exists (round_nearest_even (q / 2 ^ Z.pos p) (loc_of_shr_record rec))
    end.
    cbn [shr_m]. split; [apply round_nearest_even_bounds|].
    unfold finish. replace (E + Z.pos p) with e1 by lia. reflexivity.
Qed.

(** A rounded mantissa of 53 digits, or the power of two just above
    them, finishes as a number with a mantissa of 53 digits, or
    overflows. *)
Lemma finish_normal (s : bool) (m1 e1 : Z) :
  2 ^ 52 <= m1 <= 2 ^ 53 -> -1074 <= e1 ->
  exists m e,
    Z.pos (digits2_pos m) = 53 /\ e1 <= e <= e1 + 1 /\
    finish s m1 e1
    = if e <=? 971 then S754_finite s m e else S754_infinity s.
Proof.
  intros Hm He.
  destruct (Z.eq_dec m1 (2 ^ 53)) as [->|Nc].
  - exists (2 ^ 52)%positive, (e1 + 1). split; [reflexivity|].
    split; [lia|]. now apply finish_carry.
  - destruct m1 as [|p|p]; try (change (2 ^ 52) with 4503599627370496 in Hm; lia).
    exists p, e1. split.
    + apply digits2_pos_unique. change (53 - 1) with 52. lia.
    + split; [lia|]. apply finish_small; lia.
Qed.

(** Rounding a mantissa of at least 53 digits, in the range of the
    normal numbers: the result has a mantissa of 53 digits and the
    exponent of the exact value, or one more. *)
Lemma round_aux_normal (s : bool) (q : positive) (E : Z) (l : location) :
  53 <= Z.pos (digits2_pos q) ->
  -1074 <= Z.pos (digits2_pos q) + E - 53 ->
  exists m e,
    Z.pos (digits2_pos m) = 53 /\
    Z.pos (digits2_pos q) + E - 53 <= e <= Z.pos (digits2_pos q) + E - 52 /\
    binary_round_aux 53 1024 s (Z.pos q) E l
    = if e <=? 971 then S754_finite s m e else S754_infinity s.
Proof.
  intros Hd Hr.
  pose proof (digits2_pos_bounds q) as [BL BU].
  set (d := Z.pos (digits2_pos q)) in *.
  assert (Ef : fexp64 (Zdigits2 (Z.pos q) + E) = d + E - 53).
  { cbn [Zdigits2]. fold d. rewrite fexp64_eq. lia. }
  destruct (binary_round_aux_loc s (Z.pos q) E l ltac:(lia)
              ltac:(rewrite Ef; lia)) as (m1 & Hm1 & ->).
  rewrite Ef in *. replace (d + E - 53 - E) with (d - 53) in Hm1 by lia.
  assert (HP : 0 < 2 ^ (d - 53)) by (apply Z.pow_pos_nonneg; lia).
  assert (E1 : 2 ^ (d - 1) = 2 ^ 52 * 2 ^ (d - 53)).
  { rewrite <- Z.pow_add_r by lia. f_equal. lia. }
  assert (E2 : 2 ^ d = 2 ^ 53 * 2 ^ (d - 53)).
  { rewrite <- Z.pow_add_r by lia. f_equal. lia. }
  assert (2 ^ 52 <= Z.pos q / 2 ^ (d - 53))
    by (apply Z.div_le_lower_bound; lia).
  assert (Z.pos q / 2 ^ (d - 53) < 2 ^ 53)
    by (apply Z.div_lt_upper_bound; lia).
  destruct (finish_normal s m1 (d + E - 53) ltac:(lia) ltac:(lia))
    as (m & e & Hdm & He & Hfin).
  exists m, e. split; [exact Hdm|]. split; [lia|exact Hfin].
Qed.

(** ** Conversion and division *)

Lemma binary_round_normal (s : bool) (M : positive) (E : Z) :
  -1074 <= Z.pos (digits2_pos M) + E - 53 ->
  exists m e,
    Z.pos (digits2_pos m) = 53 /\
    Z.pos (digits2_pos M) + E - 53 <= e <= Z.pos (digits2_pos M) + E - 52 /\
    binary_round 53 1024 s M E
    = if e <=? 971 then S754_finite s m e else S754_infinity s.
Proof.
  intros Hr. unfold binary_round.
  set (d := Z.pos (digits2_pos M)) in *.
  assert (Ef : fexp64 (d + E) = d + E - 53) by (rewrite fexp64_eq; lia).
  rewrite Ef.
  destruct (Z_le_gt_dec E (d + E - 53)) as [L|G].
  - rewrite shl_align_ge by exact L.
    apply round_aux_normal; fold d; lia.
  - destruct (shl_align_le M E (d + E - 53) ltac:(lia)) as [Em Ee].
    destruct (shl_align M E (d + E - 53)) as [mz ez].
    cbn [fst snd] in Em, Ee. subst ez.
    pose proof (digits_shift M mz (E - (d + E - 53)) ltac:(lia) Em) as Ed.
    fold d in Ed.
    destruct (round_aux_normal s mz (d + E - 53) loc_Exact ltac:(lia)
                ltac:(lia)) as (m & e & Hdm & He & Hres).
    exists m, e. split; [exact Hdm|]. split; [lia|exact Hres].
Qed.

(** A positive integer converts to a normal number, or overflows. *)
Lemma of_Z_pos (p : positive) :
  exists m e,
    Z.pos (digits2_pos m) = 53 /\
    Z.pos (digits2_pos p) - 53 <= e <= Z.pos (digits2_pos p) - 52 /\
    F64.of_Z (Z.pos p)
    = if e <=? 971 then S754_finite false m e else S754_infinity false.
Proof.
  unfold F64.of_Z. cbn [binary_normalize].
  change F64.prec with 53. change F64.emax with 1024.
  pose proof (digits2_pos_bounds p) as B.
  assert (0 < Z.pos (digits2_pos p)) by lia.
  destruct (binary_round_normal false p 0 ltac:(lia))
    as (m & e & Hdm & He & Hres).
  exists m, e. split; [exact Hdm|]. split; [lia|exact Hres].
Qed.

(** The quotient of two normal numbers is a non-zero finite number as
    long as it neither overflows nor falls below the least
    subnormal. *)
Lemma div_normal (sx sy : bool) (mx my : positive) (ex ey : Z) :
  Z.pos (digits2_pos mx) = 53 -> Z.pos (digits2_pos my) = 53 ->
  -1073 <= ex - ey <= 1022 ->
  exists m e,
    F64.div (S754_finite sx mx ex) (S754_finite sy my ey)
    = S754_finite (xorb sx sy) m e.
Proof.
  intros Hdx Hdy Hr.
  pose proof (digits2_pos_bounds mx) as [XL XU].
  pose proof (digits2_pos_bounds my) as [YL YU].
  rewrite Hdx in XL, XU. rewrite Hdy in YL, YU.
  change (2 ^ (53 - 1)) with 4503599627370496 in *.
  change (2 ^ 53) with 9007199254740992 in *.
  unfold F64.div, SFdiv, SFdiv_core_binary.
  change F64.prec with 53. change F64.emax with 1024.
  cbn [Zdigits2]. rewrite Hdx, Hdy.
  replace (53 + ex - (53 + ey)) with (ex - ey) by lia.
  rewrite fexp64_eq.
  set (e' := Z.min (Z.max (ex - ey - 53) (-1074)) (ex - ey)).
  assert (Hs : 1 <= ex - ey - e' <= 53) by (unfold e'; lia).
  destruct (ex - ey - e') as [|k|k] eqn:Ek; try lia.
  rewrite Z.shiftl_mul_pow2 by lia.
  set (q := Z.pos mx * 2 ^ Z.pos k / Z.pos my).
  assert (Eq : Z.div_eucl (Z.pos mx * 2 ^ Z.pos k) (Z.pos my)
               = (q, (Z.pos mx * 2 ^ Z.pos k) mod Z.pos my)).
  { unfold q, Z.div, Z.modulo.
    now destruct (Z.div_eucl (Z.pos mx * 2 ^ Z.pos k) (Z.pos my)). }
  rewrite Eq.
  assert (HK : 2 <= 2 ^ Z.pos k).
  { change 2 with (2 ^ 1) at 1. apply Z.pow_le_mono_r; lia. }
  (* the quotient has between [k] and [k + 1] digits *)
  assert (Hq1 : 2 ^ (Z.pos k - 1) <= q).
  { apply Z.div_le_lower_bound; [lia|].
    assert (E2 : 2 ^ Z.pos k = 2 * 2 ^ (Z.pos k - 1)).
    { rewrite <- Z.pow_succ_r by lia. f_equal. lia. }
    assert (0 < 2 ^ (Z.pos k - 1)) by (apply Z.pow_pos_nonneg; lia).
    nia. }
  assert (Hq2 : q < 2 ^ (Z.pos k + 1)).
  { apply Z.div_lt_upper_bound; [lia|].
    rewrite Z.pow_add_r by lia. change (2 ^ 1) with 2. nia. }
  assert (Hq0 : 0 < q).
  { assert (0 < 2 ^ (Z.pos k - 1)) by (apply Z.pow_pos_nonneg; lia). lia. }
  destruct q as [|qp|qp] eqn:Eqp; try lia.
  pose proof (digits_ge_pow qp) as DG.
  pose proof (digits_le_of_lt qp (Z.pos k + 1) Hq2) as DU.
  assert (DL : Z.pos k <= Z.pos (digits2_pos qp)).
  { destruct (Z_le_gt_dec (Z.pos k) (Z.pos (digits2_pos qp))) as [L|G];
      [exact L|exfalso].
    pose proof (digits_lt_pow qp (Z.pos k - 1) ltac:(lia)). lia. }
  set (dq := Z.pos (digits2_pos qp)) in *.
  destruct (Z_le_gt_dec (-1074) (ex - ey - 53)) as [Normal|Sub].
  - (* [k = 53]: the quotient has 53 or 54 digits *)
    assert (Ee : e' = ex - ey - 53) by (unfold e'; lia).
    assert (Ek53 : Z.pos k = 53) by lia.
    destruct (round_aux_normal (xorb sx sy) qp e'
                (new_location (Z.pos my)
                   ((Z.pos mx * 2 ^ Z.pos k) mod Z.pos my))
                ltac:(fold dq; lia) ltac:(fold dq; lia))
      as (m & e & Hdm & He & ->).
    fold dq in He.
    exists m, e.
    now replace (e <=? 971) with true by (symmetry; apply Z.leb_le; lia).
  - (* the quotient is subnormal: no shift, at most 53 digits *)
    assert (Ee : e' = -1074) by (unfold e'; lia).
    assert (Ef : fexp64 (Zdigits2 (Z.pos qp) + e') = -1074).
    { cbn [Zdigits2]. fold dq. rewrite fexp64_eq. lia. }
    destruct (binary_round_aux_loc (xorb sx sy) (Z.pos qp) e'
                (new_location (Z.pos my)
                   ((Z.pos mx * 2 ^ Z.pos k) mod Z.pos my))
                ltac:(lia) ltac:(rewrite Ef; lia)) as (m1 & Hm1 & ->).
    rewrite Ef in *. rewrite Ee in Hm1.
    change (2 ^ (-1074 - -1074)) with 1 in Hm1. rewrite Z.div_1_r in Hm1.
    assert (Z.pos qp < 2 ^ 53).
    { assert (2 ^ (Z.pos k + 1) <= 2 ^ 53)
        by (apply Z.pow_le_mono_r; lia). lia. }
    destruct (Z.eq_dec m1 (2 ^ 53)) as [->|Nc].
    + rewrite finish_carry by lia. cbn. eauto.
    + destruct m1 as [|p1|p1]; try lia.
      rewrite finish_small by lia. cbn. eauto.
Qed.

(** * The cube of initial conditions *)

Lemma of_Z_30 : F64.of_Z 30 = S754_finite false 8444249301319680 (-48).
Proof. vm_compute. reflexivity. Qed.

Lemma of_Z_m15 : F64.of_Z (-15) = S754_finite true 8444249301319680 (-49).
Proof. vm_compute. reflexivity. Qed.

Lemma of_Z_15 : F64.of_Z 15 = S754_finite false 8444249301319680 (-49).
Proof. vm_compute. reflexivity. Qed.

(** The mantissa comparison of [SFcompare]. *)
Lemma compare_cont_Eq_spec (m n : positive) :
  CompareSpec (Z.pos m = Z.pos n) (Z.pos m < Z.pos n) (Z.pos n < Z.pos m)
    (Pos.compare_cont Eq m n).
Proof.
  change (Pos.compare_cont Eq m n) with (Pos.compare m n).
  destruct (Pos.compare_spec m n); constructor; lia.
Qed.

(** The doubles of [[0.0, 1.0)]: a zero, or a positive number whose
    exponent is at most [-53]. *)
Lemma in_unit_interval_inv (u : float) :
  in_unit_interval u = true ->
  (exists z, u = S754_zero z) \/
  exists m e, u = S754_finite false m e /\ canonical m e /\ e <= -53.
Proof.
  unfold in_unit_interval. rewrite 2 andb_true_iff. intros [[Hv Hl] Hu].
  destruct u as [z|z| |s m e].
  - left. now exists z.
  - destruct z; discriminate.
  - discriminate.
  - right. destruct s; [discriminate|].
    exists m, e. split; [reflexivity|].
    apply bounded_canonical in Hv. split; [exact Hv|].
    unfold F64.ltb, SFltb, F64.one, SFcompare in Hu.
    destruct (Z.compare_spec e (-52)) as [E|L|G]; [|lia|discriminate].
    exfalso. subst e. destruct Hv as [_ [Hd|[Hd _]]]; [|lia].
    pose proof (digits_ge_pow m 53 ltac:(lia)) as B.
    destruct (compare_cont_Eq_spec m 4503599627370496) as [E|L|G];
      try discriminate.
    change (2 ^ (53 - 1)) with 4503599627370496 in B. lia.
Qed.

(** [30 * u] for [u] in [[0.0, 1.0)] is at most [30 - 2^-48], the
    double just below [30]: the exact product may exceed it, by less
    than half the spacing of the doubles there. *)
Lemma mul_30_unit (u : float) :
  in_unit_interval u = true ->
  at_most false 8444249301319679 (-48) (F64.mul (F64.of_Z 30) u).
Proof.
  intros Hu. rewrite of_Z_30.
  destruct (in_unit_interval_inv u Hu) as [[z ->]|(m & e & -> & Hc & He)].
  - left. exists z. reflexivity.
  - unfold F64.mul, SFmul. cbn [xorb].
    destruct Hc as [Hr Hd].
    assert (Hm : Z.pos m < 2 ^ 53) by (apply digits_lt_pow; lia).
    apply round_aux_at_most.
    + rewrite fexp64_eq.
      assert (53 <= Z.pos (digits2_pos (8444249301319680 * m))); [|lia].
      destruct (Z_le_gt_dec 53 (Z.pos (digits2_pos (8444249301319680 * m))))
        as [L|G]; [exact L|exfalso].
      pose proof (digits_lt_pow (8444249301319680 * m) 52 ltac:(lia)) as B.
      change (2 ^ 52) with 4503599627370496 in B. lia.
    + lia.
    + split; [lia|]. left. reflexivity.
    + replace (-48 - (-48 + e)) with (- e) by lia.
      assert (2 ^ 53 <= 2 ^ (- e)) by (apply Z.pow_le_mono_r; lia).
      change (2 ^ 53) with 9007199254740992 in *. lia.
Qed.

(** [-15 + w] for a [w] as above lies in [[-15, 15)]. *)
Lemma add_m15_range (w : float) :
  at_most false 8444249301319679 (-48) w ->
  F64.leb (F64.of_Z (-15)) (F64.add (F64.of_Z (-15)) w) = true /\
  F64.ltb (F64.add (F64.of_Z (-15)) w) (F64.of_Z 15) = true.
Proof.
  intros Hw. rewrite of_Z_m15, of_Z_15.
  destruct Hw as [[z ->]|(m & e & -> & Hc & Ho)].
  { split; reflexivity. }
  unfold F64.add, SFadd. change F64.prec with 53. change F64.emax with 1024.
  remember (Z.min (-49) e) as ez eqn:Hez.
  destruct (shl_align_le 8444249301319680 (-49) ez ltac:(lia)) as [Ea _].
  destruct (shl_align_le m e ez ltac:(lia)) as [Eb _].
  set (a := fst (shl_align 8444249301319680 (-49) ez)) in *.
  set (b := fst (shl_align m e ez)) in *.
  cbn [cond_Zopp].
  destruct Hc as [Hr Hd].
  assert (Hm : Z.pos m < 2 ^ 53) by (apply digits_lt_pow; lia).
  change (2 ^ 53) with 9007199254740992 in Hm.
  assert (HS : - Z.pos a + Z.pos b < 0 /\
               2 * (Z.pos a - Z.pos b)
               < (2 * 8444249301319680 + 1) * 2 ^ (-49 - ez)
            \/ - Z.pos a + Z.pos b = 0
            \/ 0 < - Z.pos a + Z.pos b /\
               2 * (- Z.pos a + Z.pos b)
               < (2 * 8444249301319678 + 1) * 2 ^ (-49 - ez)).
  { destruct (Z_le_gt_dec e (-49)) as [L|G].
    - assert (Ez : ez = e) by lia. clear Hez. subst ez.
      replace (e - e) with 0 in Eb by lia. rewrite Z.mul_1_r in Eb.
      assert (HK : 0 < 2 ^ (-49 - e)) by (apply Z.pow_pos_nonneg; lia).
      destruct (Z.eq_dec e (-49)) as [E49|N49].
      + subst e. change (2 ^ (-49 - -49)) with 1 in *. lia.
      + assert (2 ^ 1 <= 2 ^ (-49 - e)) by (apply Z.pow_le_mono_r; lia).
        change (2 ^ 1) with 2 in *. left. nia.
    - assert (E48 : e = -48) by lia. subst e.
      assert (Ez : ez = -49) by lia. clear Hez. subst ez.
      change (2 ^ (-49 - -49)) with 1 in *.
      change (2 ^ (-48 - -49)) with 2 in *.
      destruct Hd as [Hd|[Hd _]]; [|lia].
      pose proof (digits_ge_pow m 53 ltac:(lia)) as B.
      change (2 ^ (53 - 1)) with 4503599627370496 in B.
      right; right. lia. }
  destruct HS as [[Hneg Hb]|[Hz|[Hpos Hb]]].
  - destruct (- Z.pos a + Z.pos b) as [|p|p] eqn:Es; try lia.
    cbn [binary_normalize].
    assert (Ep : Z.pos p = Z.pos a - Z.pos b) by lia.
    pose proof (binary_round_at_most true p 8444249301319680 ez (-49)
      ltac:(lia)
      ltac:(split; [lia|left; reflexivity])
      ltac:(rewrite Ep; exact Hb)) as [[z ->]|(m' & e' & -> & Hc' & Ho')].
    + destruct z; split; reflexivity.
    + split; [|reflexivity].
      unfold F64.leb, SFleb, SFcompare.
      destruct Ho' as [Lt'|[Eq' Le']].
      * destruct (Z.compare_spec (-49) e') as [E|L|G];
          first [lia | reflexivity].
      * subst e'. rewrite Z.compare_refl.
        destruct (compare_cont_Eq_spec 8444249301319680 m') as [E|L|G];
          first [reflexivity | lia].
  - rewrite Hz. split; reflexivity.
  - destruct (- Z.pos a + Z.pos b) as [|p|p] eqn:Es; try lia.
    cbn [binary_normalize].
    pose proof (binary_round_at_most false p 8444249301319678 ez (-49)
      ltac:(lia)
      ltac:(split; [lia|left; reflexivity])
      Hb) as [[z ->]|(m' & e' & -> & Hc' & Ho')].
    + destruct z; split; reflexivity.
    + split; [reflexivity|].
      unfold F64.ltb, SFltb, SFcompare.
      destruct Ho' as [Lt'|[Eq' Le']].
      * destruct (Z.compare_spec e' (-49)) as [E|L|G];
          first [lia | reflexivity].
      * subst e'. rewrite Z.compare_refl.
        destruct (compare_cont_Eq_spec m' 8444249301319680) as [E|L|G];
          first [reflexivity | lia].
Qed.

(** Every sample [-15 + 30 * u] lies in [[-15, 15)]. *)
Lemma scale_range (u : float) :
  in_unit_interval u = true ->
  F64.leb (F64.of_Z (-15)) (scale u) = true /\
  F64.ltb (scale u) (F64.of_Z 15) = true.
Proof.
  intros Hu. unfold scale. apply add_m15_range, mul_30_unit, Hu.
Qed.

(** Multiplying a finite double by [1.0] changes nothing. *)
Lemma mul_one_r (x : float) :
  F64.valid x = true -> F64.is_finite x = true -> F64.mul x F64.one = x.
Proof.
  intros Hv Hf. destruct x as [z|z| |s m e]; try discriminate Hf.
  - destruct z; reflexivity.
  - apply bounded_canonical in Hv. destruct Hv as [Hr Hd].
    unfold F64.mul, F64.one, SFmul.
    change F64.prec with 53. change F64.emax with 1024.
    replace (xorb s false) with s by (destruct s; reflexivity).
    assert (Em : Z.pos (m * 4503599627370496) = Z.pos m * 2 ^ 52)
      by (rewrite Pos2Z.inj_mul; reflexivity).
    pose proof (digits_shift m (m * 4503599627370496) 52 ltac:(lia) Em) as Ed.
    assert (Ef : fexp64 (Z.pos (digits2_pos (m * 4503599627370496)) + (e + -52))
                 = e).
    { rewrite Ed, fexp64_eq. lia. }
    rewrite binary_round_aux_finish by (rewrite Ef; lia).
    rewrite Ef. replace (e - (e + -52)) with 52 by lia.
    rewrite round_shift_down.
    + rewrite Em, Z.div_mul by (apply Z.pow_nonzero; lia).
      rewrite finish_small; [|lia|apply digits_lt_pow; lia].
      replace (e <=? 971) with true by (symmetry; apply Z.leb_le; lia).
      reflexivity.
    + rewrite Em, Z.mod_mul by (apply Z.pow_nonzero; lia).
      change (2 ^ 52) with 4503599627370496. lia.
Qed.

(** Subtracting [+0.0] from a finite double changes nothing. *)
Lemma sub_zero_r (x : float) :
  F64.is_finite x = true -> F64.sub x F64.zero = x.
Proof.
  intros Hf. destruct x as [z|z| |s m e]; try discriminate Hf.
  - destruct z; reflexivity.
  - reflexivity.
Qed.

(** * Rounding, two-sided *)

(** Rounding [m / 2^n] to nearest errs by half a unit at most. *)
Lemma round_shift_error (m n : Z) :
  0 <= n ->
  2 * m - 2 ^ n <= 2 * (round_shift m n * 2 ^ n) <= 2 * m + 2 ^ n.
Proof.
  intros Hn.
  assert (HP : 0 < 2 ^ n) by (apply Z.pow_pos_nonneg; lia).
  pose proof (Z.div_mod m (2 ^ n) ltac:(lia)) as E.
  pose proof (Z.mod_pos_bound m (2 ^ n) HP) as Hr.
  unfold round_shift.
  destruct (Z.compare_spec (2 * (m mod 2 ^ n)) (2 ^ n)) as [C|C|C];
    [destruct (Z.even _)| |]; nia.
Qed.

(** Shifting the number and the position together changes nothing. *)
Lemma round_shift_scale (m n b : Z) :
  0 <= n -> 0 <= b ->
  round_shift (m * 2 ^ b) (n + b) = round_shift m n.
Proof.
  intros Hn Hb.
  assert (HPn : 0 < 2 ^ n) by (apply Z.pow_pos_nonneg; lia).
  assert (HPb : 0 < 2 ^ b) by (apply Z.pow_pos_nonneg; lia).
  unfold round_shift. rewrite Z.pow_add_r by lia.
  rewrite Z.div_mul_cancel_r by lia.
  rewrite Zmult_mod_distr_r.
  replace (2 * (m mod 2 ^ n * 2 ^ b)) with (2 * (m mod 2 ^ n) * 2 ^ b) by lia.
  rewrite <- Zmult_compare_compat_r by lia.
  reflexivity.
Qed.

(** The second normalisation keeps the value: a mantissa of 53 digits
    stays, the power [2^53] becomes [2^52] one exponent higher. *)
Lemma finish_value (s : bool) (m1 e1 : Z) :
  2 ^ 52 <= m1 <= 2 ^ 53 -> -1074 <= e1 -> e1 + 1 <= 971 ->
  exists H c,
    0 <= c <= 1 /\ Z.pos (digits2_pos H) = 53 /\
    Z.pos H * 2 ^ c = m1 /\
    finish s m1 e1 = S754_finite s H (e1 + c).
Proof.
  intros Hm He Hu.
  destruct (Z.eq_dec m1 (2 ^ 53)) as [->|Nc].
  - exists (2 ^ 52)%positive, 1. split; [lia|]. split; [reflexivity|].
    split; [reflexivity|]. rewrite finish_carry by lia.
    now replace (e1 + 1 <=? 971) with true by (symmetry; apply Z.leb_le; lia).
  - change (2 ^ 52) with 4503599627370496 in Hm.
    destruct m1 as [|p|p]; try lia.
    exists p, 0. split; [lia|]. split.
    + apply digits2_pos_unique. change (2 ^ (53 - 1)) with 4503599627370496.
      lia.
    + split; [lia|]. rewrite finish_small by lia.
      replace (e1 <=? 971) with true by (symmetry; apply Z.leb_le; lia).
      f_equal. lia.
Qed.

(** Two positive normal numbers compare as their values do. *)
Lemma normal_ltb (H1 H2 : positive) (e n1 n2 : Z) :
  Z.pos (digits2_pos H1) = 53 -> Z.pos (digits2_pos H2) = 53 ->
  0 <= n1 -> 0 <= n2 ->
  Z.pos H1 * 2 ^ n1 < Z.pos H2 * 2 ^ n2 ->
  (S754_finite false H1 (e + n1) <? S754_finite false H2 (e + n2))%f64 = true.
Proof.
  intros Hd1 Hd2 Hn1 Hn2 Hlt.
  pose proof (digits2_pos_bounds H1) as [L1 U1].
  pose proof (digits2_pos_bounds H2) as [L2 U2].
  rewrite Hd1 in L1, U1. rewrite Hd2 in L2, U2.
  change (2 ^ (53 - 1)) with 4503599627370496 in *.
  change (2 ^ 53) with 9007199254740992 in *.
  unfold F64.ltb, SFltb, SFcompare.
  destruct (Z.compare_spec (e + n1) (e + n2)) as [E|L|G].
  - assert (n1 = n2) by lia. subst n2.
    assert (0 < 2 ^ n1) by (apply Z.pow_pos_nonneg; lia).
    destruct (compare_cont_Eq_spec H1 H2) as [E'|L'|G']; try reflexivity; nia.
  - reflexivity.
  - exfalso.
    replace n1 with (n2 + 1 + (n1 - n2 - 1)) in Hlt by lia.
    rewrite !Z.pow_add_r in Hlt by lia. change (2 ^ 1) with 2 in Hlt.
    assert (0 < 2 ^ n2) by (apply Z.pow_pos_nonneg; lia).
    assert (0 < 2 ^ (n1 - n2 - 1)) by (apply Z.pow_pos_nonneg; lia).
    assert (X : Z.pos H1 * 2 * 2 ^ (n1 - n2 - 1) < Z.pos H2).
    { apply (Z.mul_lt_mono_pos_r (2 ^ n2)); lia. }
    nia.
Qed.


(** * The steps of the two grids *)

Lemma of_Z_250 : F64.of_Z 250 = S754_finite false 8796093022208000 (-45).
Proof. vm_compute. reflexivity. Qed.

Lemma digits_mul_250 (mx : positive) :
  Z.pos (digits2_pos mx) + 52
  <= Z.pos (digits2_pos (8796093022208000 * mx))
  <= Z.pos (digits2_pos mx) + 53.
Proof.
  pose proof (digits2_pos_bounds mx) as [L U].
  set (dx := Z.pos (digits2_pos mx)) in *.
  assert (0 < dx) by (unfold dx; lia).
  assert (E1 : 2 ^ (dx + 52 - 1) = 2 ^ 52 * 2 ^ (dx - 1)).
  { rewrite <- Z.pow_add_r by lia. f_equal. lia. }
  assert (E2 : 2 ^ (dx + 53) = 2 ^ 53 * 2 ^ dx).
  { rewrite <- Z.pow_add_r by lia. f_equal. lia. }
  assert (P1 : 0 < 2 ^ (dx - 1)) by (apply Z.pow_pos_nonneg; lia).
  change (2 ^ 52) with 4503599627370496 in E1.
  change (2 ^ 53) with 9007199254740992 in E2.
  split.
  - destruct (Z_le_gt_dec (dx + 52)
      (Z.pos (digits2_pos (8796093022208000 * mx)))) as [A|A]; [exact A|].
    exfalso.
    pose proof (digits_lt_pow (8796093022208000 * mx) (dx + 52 - 1)
                  ltac:(lia)) as B.
    rewrite Pos2Z.inj_mul in B. nia.
  - apply digits_le_of_lt. rewrite Pos2Z.inj_mul. nia.
Qed.

(** What [int(250*max_time) >= 2] tells about the horizon and the
    product: both are positive normal numbers, of exponents seven to
    nine apart. *)
Lemma sample_count_inv (max_time : float) (n : Z) :
  F64.valid max_time = true ->
  sample_count max_time = Ok n -> 2 <= n ->
  exists mx ex mp ep,
    max_time = S754_finite false mx ex /\
    Z.pos (digits2_pos mx) = 53 /\
    Z.pos (digits2_pos mp) = 53 /\
    ex + 7 <= ep <= ex + 9 /\ ep <= 971 /\
    n = Z.shiftl (Z.pos mp) ep.
Proof.
  intros Hv Hn H2. unfold sample_count in Hn. rewrite of_Z_250 in Hn.
  destruct max_time as [z|z| |sx mx ex].
  - destruct z; cbn in Hn; injection Hn as <-; lia.
  - destruct z; cbn in Hn; discriminate Hn.
  - cbn in Hn. discriminate Hn.
  - apply bounded_canonical in Hv. destruct Hv as [Hr Hd].
    unfold F64.mul, SFmul in Hn.
    change F64.prec with 53 in Hn. change F64.emax with 1024 in Hn.
    cbn [xorb] in Hn.
    pose proof (digits_mul_250 mx) as HdM.
    set (M := (8796093022208000 * mx)%positive) in *.
    set (dx := Z.pos (digits2_pos mx)) in *.
    assert (0 < dx) by (unfold dx; lia).
    destruct (Z_le_gt_dec (dx + ex) (-8)) as [Small|Large].
    + (* a horizon below [2^-8]: the product is at most [1.0] *)
      exfalso.
      assert (A : at_most sx 4503599627370496 (-52)
                    (binary_round_aux 53 1024 sx (Z.pos M) (-45 + ex)
                       loc_Exact)).
      { apply round_aux_at_most.
        - rewrite fexp64_eq. lia.
        - lia.
        - split; [lia|]. left. reflexivity.
        - pose proof (digits_lt_pow mx dx ltac:(lia)) as U.
          unfold M. rewrite Pos2Z.inj_mul.
          replace (-52 - (-45 + ex)) with (dx + 1 + (- 8 - dx - ex)) by lia.
          rewrite Z.pow_add_r by lia.
          rewrite (Z.pow_add_r 2 dx 1) by lia. change (2 ^ 1) with 2.
          assert (1 <= 2 ^ (-8 - dx - ex)).
          { change 1 with (2 ^ 0). apply Z.pow_le_mono_r; lia. }
          assert (0 < 2 ^ dx) by (apply Z.pow_pos_nonneg; lia).
          nia. }
      destruct A as [[z E]|(m & e & E & Hc & Ho)]; rewrite E in Hn.
      * cbn in Hn. injection Hn as <-. lia.
      * cbn [int_of_float] in Hn. injection Hn as <-.
        destruct Hc as [Hre Hde].
        assert (Hm : Z.pos m < 2 ^ 53) by (apply digits_lt_pow; lia).
        assert (Z.shiftl (Z.pos m) e <= 1).
        { rewrite Z.shiftl_div_pow2 by lia.
          assert (0 < 2 ^ (- e)) by (apply Z.pow_pos_nonneg; lia).
          destruct Ho as [Lt|[-> Le]].
          - assert (2 ^ 53 <= 2 ^ (- e)) by (apply Z.pow_le_mono_r; lia).
            rewrite Z.div_small by lia. lia.
          - change (2 ^ (- -52)) with 4503599627370496.
            apply Z.lt_succ_r, Z.div_lt_upper_bound; lia. }
        assert (0 <= Z.shiftl (Z.pos m) e) by (apply Z.shiftl_nonneg; lia).
        destruct sx; cbn [cond_Zopp] in H2; lia.
    + (* otherwise the horizon and the product are normal *)
      assert (Hdx : dx = 53) by (unfold dx in *; lia).
      destruct (round_aux_normal sx M (-45 + ex) loc_Exact ltac:(lia)
                  ltac:(lia)) as (mp & ep & Hdp & Hep & Hres).
      rewrite Hres in Hn.
      destruct (Z.leb_spec ep 971) as [Lp|Gp]; [|discriminate Hn].
      cbn [int_of_float] in Hn. injection Hn as <-.
      destruct sx.
      * exfalso. cbn [cond_Zopp] in H2.
        assert (0 <= Z.shiftl (Z.pos mp) ep)
          by (apply Z.shiftl_nonneg; lia).
        lia.
      * exists mx, ex, mp, ep. repeat split; try assumption; lia.
Qed.

(** The count less one converts to a normal number, of an exponent at
    most one above that of the product. *)
Lemma of_Z_pred_count (mp : positive) (ep : Z) :
  Z.pos (digits2_pos mp) = 53 -> ep <= 971 ->
  2 <= Z.shiftl (Z.pos mp) ep ->
  exists my ey,
    F64.of_Z (Z.shiftl (Z.pos mp) ep - 1) = S754_finite false my ey /\
    Z.pos (digits2_pos my) = 53 /\ -52 <= ey <= ep + 1.
Proof.
  intros Hdp Hep H2.
  pose proof (digits2_pos_bounds mp) as [PL PU]. rewrite Hdp in PL, PU.
  set (n := Z.shiftl (Z.pos mp) ep) in *.
  destruct (n - 1) as [|k|k] eqn:Ek; try lia.
  destruct (of_Z_pos k) as (my & ey & Hdy & Hey & Hres).
  pose proof (digits2_pos_bounds k) as [KL KU].
  assert (0 < Z.pos (digits2_pos k)) by lia.
  destruct (Z_le_gt_dec 0 ep) as [Pos|Neg].
  - (* the product is an integer: the count is the product itself *)
    assert (En : n = Z.pos mp * 2 ^ ep)
      by (unfold n; now rewrite Z.shiftl_mul_pow2 by lia).
    assert (A : at_most false mp ep (F64.of_Z (Z.pos k))).
    { unfold F64.of_Z. cbn [binary_normalize].
      apply binary_round_at_most.
      - lia.
      - split; [lia|]. left. exact Hdp.
      - replace (ep - 0) with ep by lia. nia. }
    rewrite Hres in A.
    destruct A as [[z E]|(m & e & E & Hc & Ho)].
    + destruct (ey <=? 971); discriminate E.
    + destruct (Z.leb_spec ey 971) as [L|G]; [|discriminate E].
      injection E as <- <-.
      exists my, ey. rewrite Hres.
      replace (ey <=? 971) with true by (symmetry; apply Z.leb_le; lia).
      repeat split; try assumption; lia.
  - (* the product has a fraction: the count has fewer digits *)
    assert (En : n = Z.pos mp / 2 ^ (- ep))
      by (unfold n; now rewrite Z.shiftl_div_pow2 by lia).
    assert (HP : 0 < 2 ^ (- ep)) by (apply Z.pow_pos_nonneg; lia).
    assert (Hk : Z.pos (digits2_pos k) <= 53 + ep).
    { apply digits_le_of_lt.
      assert (53 + ep >= 0).
      { destruct (Z_le_gt_dec 0 (53 + ep)) as [A|A]; [lia|exfalso].
        assert (2 ^ 53 <= 2 ^ (- ep)) by (apply Z.pow_le_mono_r; lia).
        rewrite Z.div_small in En by lia. lia. }
      assert (n < 2 ^ (53 + ep)); [|lia].
      rewrite En. apply Z.div_lt_upper_bound; [lia|].
      rewrite <- Z.pow_add_r by lia.
      replace (- ep + (53 + ep)) with 53 by lia. exact PU. }
    exists my, ey. rewrite Hres.
    replace (ey <=? 971) with true by (symmetry; apply Z.leb_le; lia).
    repeat split; try assumption; lia.
Qed.

(** The step of the time grid, [max_time / (n - 1)], is a non-zero
    finite double whenever the grid has two samples or more. *)
Lemma grid_step_nonzero (max_time : float) (n : Z) :
  F64.valid max_time = true ->
  sample_count max_time = Ok n -> 2 <= n ->
  F64.is_nonzero_finite (max_time / F64.of_Z (n - 1))%f64 = true.
Proof.
  intros Hv Hn H2.
  destruct (sample_count_inv max_time n Hv Hn H2)
    as (mx & ex & mp & ep & -> & Hdx & Hdp & Hep & Hep' & ->).
  destruct (of_Z_pred_count mp ep Hdp Hep' H2)
    as (my & ey & -> & Hdy & Hey).
  destruct (div_normal false false mx my ex ey Hdx Hdy ltac:(lia))
    as (m & e & ->).
  reflexivity.
Qed.


(** * The generator *)

Lemma mask32_range (x : Z) : 0 <= MT19937.mask32 x < 2 ^ 32.
Proof.
  unfold MT19937.mask32. change 4294967295 with (Z.ones 32).
  rewrite Z.land_ones by lia. apply Z.mod_pos_bound. lia.
Qed.

Lemma next_range (st : MT19937.mt_state) :
  0 <= fst (MT19937.next st) < 2 ^ 32.
Proof. unfold MT19937.next. cbn [fst]. apply mask32_range. Qed.

Lemma dyadic53_in_unit_interval (k : Z) :
  0 <= k < 2 ^ 53 -> in_unit_interval (MT19937.dyadic53 k) = true.
Proof.
  intros Hk. unfold MT19937.dyadic53.
  destruct k as [|p|p]; [reflexivity| |lia].
  cbn [binary_normalize].
  assert (A : at_most false 9007199254740991 (-53)
                (binary_round 53 1024 false p (-53))).
  { apply binary_round_at_most; [lia| |].
    - split; [lia|]. left. reflexivity.
    - replace (-53 - -53) with 0 by lia.
      change (2 ^ 53) with 9007199254740992 in Hk. lia. }
  destruct A as [[z ->]|(m & e & -> & Hc & Ho)].
  - destruct z; reflexivity.
  - unfold in_unit_interval. rewrite 2 andb_true_iff. repeat split.
    + apply bounded_canonical, Hc.
    + unfold F64.ltb, SFltb, F64.one, SFcompare.
      destruct (Z.compare_spec e (-52)) as [E|L|G];
        first [lia | reflexivity].
Qed.

(** NumPy's generator draws from [[0.0, 1.0)]. *)
Lemma numpy_random_unit_interval : draws_in_unit_interval numpy_random.
Proof.
  intros g. cbn [numpy_random rng_double]. unfold MT19937.next_double.
  pose proof (next_range g) as Hx.
  destruct (MT19937.next g) as [x st1]. cbn [fst] in Hx.
  pose proof (next_range st1) as Hy.
  destruct (MT19937.next st1) as [y st2]. cbn [fst] in Hy |- *.
  apply dyadic53_in_unit_interval.
  rewrite 2 Z.shiftr_div_pow2 by lia.
  assert (0 <= x / 2 ^ 5 < 2 ^ 27).
  { split; [apply Z.div_pos; lia|].
    apply Z.div_lt_upper_bound; [lia|]. change (2 ^ 5 * 2 ^ 27) with (2 ^ 32).
    lia. }
  assert (0 <= y / 2 ^ 6 < 2 ^ 26).
  { split; [apply Z.div_pos; lia|].
    apply Z.div_lt_upper_bound; [lia|]. change (2 ^ 6 * 2 ^ 26) with (2 ^ 32).
    lia. }
  change (2 ^ 27) with 134217728 in *. change (2 ^ 26) with 67108864 in *.
  change (2 ^ 53) with 9007199254740992. lia.
Qed.

Lemma constant_zero_unit_interval :
  draws_in_unit_interval constant_zero_random.
Proof. intros g. reflexivity. Qed.

(** * The integrator *)

Lemma euler_from_length (func : state -> float -> state) (ts : list float) :
  forall y t_prev, length (euler_from func y t_prev ts) = length ts.
Proof.
  induction ts as [|t1 ts IH]; intros y t_prev; cbn [euler_from length].
  - reflexivity.
  - now rewrite IH.
Qed.

Lemma euler_contract : integrator_contract euler.
Proof.
  intros func y0 t. destruct t as [|t0 ts]; cbn [euler length].
  - split; [reflexivity|]. intros H. now contradiction H.
  - rewrite euler_from_length. split; reflexivity.
Qed.

(** * [np.linspace] *)

Lemma arange_length (num : Z) : length (arange num) = Z.to_nat num.
Proof. unfold arange. now rewrite length_map, length_seq. Qed.

Lemma arange_succ (num : Z) :
  0 <= num -> arange (num + 1) = arange num ++ [F64.of_Z num].
Proof.
  intros H. unfold arange.
  replace (Z.to_nat (num + 1)) with (S (Z.to_nat num)) by lia.
  rewrite seq_S, map_app. cbn [map Nat.add].
  now rewrite Z2Nat.id by lia.
Qed.

Lemma arange_nth_error (num : Z) (i : nat) :
  (i < Z.to_nat num)%nat ->
  nth_error (arange num) i = Some (F64.of_Z (Z.of_nat i)).
Proof.
  intros H. unfold arange. rewrite nth_error_map, nth_error_seq.
  apply Nat.ltb_lt in H. now rewrite H.
Qed.

Lemma set_last_app (l : list float) (x v : float) :
  set_last (l ++ [x]) v = l ++ [v].
Proof.
  unfold set_last. destruct (l ++ [x]) eqn:E.
  - now destruct l.
  - now rewrite <- E, removelast_last.
Qed.

Lemma linspace_ge_2 (start stop : float) (num : Z) :
  2 <= num ->
  linspace start stop num
  = Ok (map (linspace_sample start stop num) (arange (num - 1))
        ++ [(stop * F64.one)%f64]).
Proof.
  intros H. unfold linspace.
  replace (num <? 0) with false by (symmetry; apply Z.ltb_ge; lia).
  replace (0 <? num - 1) with true by (symmetry; apply Z.ltb_lt; lia).
  replace (1 <? num) with true by (symmetry; apply Z.ltb_lt; lia).
  f_equal.
  replace (arange num) with (arange (num - 1) ++ [F64.of_Z (num - 1)]).
  2:{ rewrite <- arange_succ by lia. f_equal. lia. }
  unfold linspace_sample.
  destruct (F64.eqb _ F64.zero);
    rewrite !map_app; cbn [map]; rewrite set_last_app, map_map; reflexivity.
Qed.

Lemma linspace_neg (start stop : float) (num : Z) :
  num < 0 -> linspace start stop num = Raise ValueError.
Proof.
  intros H. unfold linspace.
  now replace (num <? 0) with true by (symmetry; apply Z.ltb_lt; lia).
Qed.

Lemma set_last_length (l : list float) (v : float) :
  length (set_last l v) = length l.
Proof.
  destruct l as [|x l] using rev_ind; [reflexivity|].
  rewrite set_last_app, !length_app. reflexivity.
Qed.

(** [np.linspace] returns [num] samples whenever [num] is not
    negative. *)
Lemma linspace_ok (start stop : float) (num : Z) :
  0 <= num ->
  exists l, linspace start stop num = Ok l /\ length l = Z.to_nat num.
Proof.
  intros H. unfold linspace.
  replace (num <? 0) with false by (symmetry; apply Z.ltb_ge; lia).
  eexists. split; [reflexivity|].
  destruct (1 <? num); rewrite ?set_last_length, length_map;
    destruct (0 <? num - 1); [destruct (F64.eqb _ _)| | destruct (F64.eqb _ _)|];
    rewrite length_map; apply arange_length.
Qed.

Lemma linspace_0 (start stop : float) : linspace start stop 0 = Ok [].
Proof. reflexivity. Qed.


(** * Running [solve_lorenz] *)

Lemma random_rows_length (R : random_state) (n : nat) :
  forall g, length (fst (random_rows R n g)) = n.
Proof.
  induction n as [|n IH]; intros g; cbn [random_rows].
  - reflexivity.
  - destruct (random_row R g) as [r g1].
    specialize (IH g1). destruct (random_rows R n g1) as [rs g2].
    cbn [fst length] in *. now rewrite IH.
Qed.

Lemma random_rows_unit (R : random_state) :
  draws_in_unit_interval R ->
  forall n g, Forall row_in_unit_interval (fst (random_rows R n g)).
Proof.
  intros HR. induction n as [|n IH]; intros g; cbn [random_rows].
  - constructor.
  - unfold random_row.
    pose proof (HR g) as Ha. destruct (rng_double R g) as [a g1].
    pose proof (HR g1) as Hb. destruct (rng_double R g1) as [b g2].
    pose proof (HR g2) as Hc. destruct (rng_double R g2) as [c g3].
    specialize (IH g3). destruct (random_rows R n g3) as [rs g4].
    cbn [fst] in *. constructor; [|exact IH]. repeat split; assumption.
Qed.

Lemma initial_conditions_run (R : random_state) (N : Z) (g : rng R) :
  initial_conditions R N g
  = if N <? 0 then (Raise ValueError, rng_seed R 1)
    else (Ok (map scale_row (fst (seeded_rows R N))),
          snd (seeded_rows R N)).
Proof.
  unfold initial_conditions, bind, np_random_seed, np_random_random, ret,
    seeded_rows.
  destruct (N <? 0); [reflexivity|].
  destruct (random_rows R (Z.to_nat N) (rng_seed R 1)) as [rows g'].
  reflexivity.
Qed.

(** The plotting loop pairs each trajectory with the colour of the same
    index. *)
Lemma plot_loop_seq (rest_x : list (list state)) :
  forall (rest_c : list rgba) (pre_x : list (list state)) (pre_c : list rgba),
  length pre_x = length pre_c ->
  length rest_x = length rest_c ->
  plot_loop (pre_x ++ rest_x) (pre_c ++ rest_c)
    (seq (length pre_x) (length rest_x))
  = Ok (map (fun p => line_of (fst p) (snd p)) (combine rest_x rest_c)).
Proof.
  induction rest_x as [|tr rest_x IH]; intros rest_c pre_x pre_c Hp Hr.
  - reflexivity.
  - destruct rest_c as [|c rest_c]; [discriminate Hr|].
    cbn [length seq plot_loop combine map fst snd].
    unfold plot_line.
    assert (E1 : nth_error (pre_x ++ tr :: rest_x) (length pre_x) = Some tr).
    { rewrite nth_error_app2 by lia. now rewrite Nat.sub_diag. }
    assert (E2 : nth_error (pre_c ++ c :: rest_c) (length pre_x) = Some c).
    { rewrite Hp, nth_error_app2 by lia. now rewrite Nat.sub_diag. }
    rewrite E1, E2. cbn [result_bind].
    specialize (IH rest_c (pre_x ++ [tr]) (pre_c ++ [c])).
    rewrite <- !app_assoc, !length_app in IH. cbn [app length] in IH.
    replace (length pre_x + 1)%nat with (S (length pre_x)) in IH by lia.
    rewrite IH by (cbn [length] in Hr; lia). reflexivity.
Qed.

Lemma plot_loop_all (xs : list (list state)) (cs : list rgba) :
  length xs = length cs ->
  plot_loop xs cs (seq 0 (length xs))
  = Ok (map (fun p => line_of (fst p) (snd p)) (combine xs cs)).
Proof.
  intros H. exact (plot_loop_seq xs cs [] [] eq_refl H).
Qed.

Lemma trajectories_length (odeint : integrator) (sigma beta rho : float)
  (xs : list state) (tg : list float) :
  length (trajectories odeint sigma beta rho xs tg) = length xs.
Proof. unfold trajectories. apply length_map. Qed.

(** When the number of trajectories is not negative and the time grid
    can be built, [solve_lorenz] returns, with these local variables and
    this figure. *)
Lemma solve_lorenz_run (R : random_state) (odeint : integrator)
  (jet : colormap) (N : Z) (angle max_time sigma beta rho : float)
  (g : rng R) (tg pos : list float) :
  0 <= N ->
  time_grid max_time = Ok tg ->
  color_positions N = Ok pos ->
  length pos = Z.to_nat N ->
  let xs := map scale_row (fst (seeded_rows R N)) in
  let xt := trajectories odeint sigma beta rho xs tg in
  solve_lorenz R odeint jet N angle max_time sigma beta rho g
  = (Ok {| x0 := xs; t := tg; x_t := xt; colors := map jet pos;
           fig := {| xlim := (-25, 25); ylim := (-35, 35); zlim := (5, 55);
                     lines := map (fun p => line_of (fst p) (snd p))
                                (combine xt (map jet pos));
                     view := (30, angle) |} |},
     snd (seeded_rows R N)).
Proof.
  intros HN Ht Hp Hl xs xt. unfold solve_lorenz.
  unfold bind at 1. rewrite initial_conditions_run.
  replace (N <? 0) with false by (symmetry; apply Z.ltb_ge; lia).
  unfold bind at 1. unfold lift at 1. rewrite Ht.
  unfold bind at 1. unfold lift at 1.
  unfold trajectory_colors, result_map. rewrite Hp. cbn [result_bind].
  unfold bind, lift, ret.
  fold xs. fold xt.
  assert (Hx : length xt = Z.to_nat N).
  { unfold xt. rewrite trajectories_length. unfold xs.
    rewrite length_map. apply random_rows_length. }
  rewrite <- Hx. rewrite plot_loop_all by (rewrite length_map; lia).
  reflexivity.
Qed.

(** * Horizons that do not overflow *)

Lemma digits_mul_250_ge (mx : positive) :
  53 <= Z.pos (digits2_pos (8796093022208000 * mx)).
Proof.
  pose proof (digits_mul_250 mx). 
  assert (0 < Z.pos (digits2_pos mx)) by lia. lia.
Qed.

(** The product [250 * x] of a horizon below [2^1015] in magnitude does
    not overflow. *)
Lemma mul_250_bounded (sx : bool) (mx : positive) (ex : Z) :
  canonical mx ex -> ex <= 962 ->
  at_most sx 9007199254740991 971
    (F64.mul (F64.of_Z 250) (S754_finite sx mx ex)).
Proof.
  intros [Hr Hd] He. rewrite of_Z_250. unfold F64.mul, SFmul.
  change F64.prec with 53. change F64.emax with 1024. cbn [xorb].
  pose proof (digits_mul_250_ge mx) as HdM.
  assert (Hm : Z.pos mx < 2 ^ 53) by (apply digits_lt_pow; lia).
  apply round_aux_at_most.
  - rewrite fexp64_eq. lia.
  - lia.
  - split; [lia|]. left. reflexivity.
  - rewrite Pos2Z.inj_mul.
    replace (971 - (-45 + ex)) with (54 + (962 - ex)) by lia.
    rewrite Z.pow_add_r by lia.
    assert (1 <= 2 ^ (962 - ex)).
    { change 1 with (2 ^ 0). apply Z.pow_le_mono_r; lia. }
    change (2 ^ 53) with 9007199254740992 in Hm.
    change (2 ^ 54) with 18014398509481984.
    nia.
Qed.

(** The product [250 * x] of a normal horizon is a normal number of the
    same sign, of an exponent seven to nine above, or an infinity. *)
Lemma mul_250_normal (sx : bool) (mx : positive) (ex : Z) :
  Z.pos (digits2_pos mx) = 53 -> -1074 <= ex ->
  exists m e,
    Z.pos (digits2_pos m) = 53 /\ ex + 7 <= e <= ex + 9 /\
    F64.mul (F64.of_Z 250) (S754_finite sx mx ex)
    = if e <=? 971 then S754_finite sx m e else S754_infinity sx.
Proof.
  intros Hd He. rewrite of_Z_250. unfold F64.mul, SFmul.
  change F64.prec with 53. change F64.emax with 1024. cbn [xorb].
  pose proof (digits_mul_250 mx) as HdM.
  destruct (round_aux_normal sx (8796093022208000 * mx) (-45 + ex) loc_Exact
              ltac:(lia) ltac:(lia)) as (m & e & Hm & Hem & Hres).
  exists m, e. split; [exact Hm|]. split; [lia|exact Hres].
Qed.

Lemma mul_250_shape (sx : bool) (mx : positive) (ex : Z) :
  canonical mx ex ->
  (exists z, F64.mul (F64.of_Z 250) (S754_finite sx mx ex) = S754_zero z) \/
  (exists m e,
     F64.mul (F64.of_Z 250) (S754_finite sx mx ex) = S754_finite sx m e) \/
  F64.mul (F64.of_Z 250) (S754_finite sx mx ex) = S754_infinity sx.
Proof.
  intros Hc. destruct (Z_le_gt_dec ex 962) as [L|G].
  - destruct (mul_250_bounded sx mx ex Hc L) as [[z E]|(m & e & E & _)].
    + left. now exists z.
    + right. left. now exists m, e.
  - destruct Hc as [Hr [Hd|[Hd _]]]; [|lia].
    destruct (mul_250_normal sx mx ex Hd ltac:(lia))
      as (m & e & _ & _ & E).
    rewrite E. destruct (e <=? 971).
    + right. left. now exists m, e.
    + right. right. reflexivity.
Qed.

Lemma int_of_float_sign (s : bool) (m : positive) (e n : Z) :
  int_of_float (S754_finite s m e) = Ok n ->
  if s then n <= 0 else 0 <= n.
Proof.
  cbn [int_of_float]. intros H. injection H as <-.
  assert (0 <= Z.shiftl (Z.pos m) e) by (apply Z.shiftl_nonneg; lia).
  destruct s; cbn [cond_Zopp]; lia.
Qed.

(** The number of samples has the sign of the horizon. *)
Lemma sample_count_sign (max_time : float) (n : Z) :
  F64.valid max_time = true ->
  sample_count max_time = Ok n ->
  if F64.sign max_time then n <= 0 else 0 <= n.
Proof.
  intros Hv Hn. unfold sample_count in Hn.
  destruct max_time as [z|z| |sx mx ex].
  - rewrite of_Z_250 in Hn. cbn in Hn. injection Hn as <-.
    cbn [F64.sign]. destruct z; lia.
  - rewrite of_Z_250 in Hn. cbn in Hn. discriminate Hn.
  - rewrite of_Z_250 in Hn. cbn in Hn. discriminate Hn.
  - apply bounded_canonical in Hv. cbn [F64.sign].
    destruct (mul_250_shape sx mx ex Hv) as [[z E]|[(m & e & E)|E]];
      rewrite E in Hn.
    + cbn in Hn. injection Hn as <-. destruct sx; lia.
    + now apply int_of_float_sign in Hn.
    + discriminate Hn.
Qed.

Lemma upto_4096_inv (max_time : float) :
  F64.valid max_time = true ->
  (F64.zero <=? max_time)%f64 = true ->
  (max_time <=? c_4096)%f64 = true ->
  (exists z, max_time = S754_zero z) \/
  exists m e, max_time = S754_finite false m e /\ canonical m e /\ e <= -40.
Proof.
  intros Hv Hl Hu.
  assert (E : c_4096 = S754_finite false 4503599627370496 (-40))
    by (vm_compute; reflexivity).
  rewrite E in Hu.
  destruct max_time as [z|z| |s m e].
  - left. now exists z.
  - destruct z; discriminate.
  - discriminate.
  - right. destruct s; [discriminate|].
    exists m, e. split; [reflexivity|].
    apply bounded_canonical in Hv. split; [exact Hv|].
    unfold F64.leb, SFleb, SFcompare in Hu.
    destruct (Z.compare_spec e (-40)) as [E'|L|G]; [lia|lia|discriminate].
Qed.

(** A horizon from [0.0] to [4096.0] has a number of samples, and it
    is not negative. *)
Lemma sample_count_upto_4096 (max_time : float) :
  F64.valid max_time = true ->
  (F64.zero <=? max_time)%f64 = true ->
  (max_time <=? c_4096)%f64 = true ->
  exists n, sample_count max_time = Ok n /\ 0 <= n.
Proof.
  intros Hv Hl Hu.
  destruct (upto_4096_inv max_time Hv Hl Hu)
    as [[z ->]|(m & e & -> & Hc & He)].
  - exists 0. split; [|lia]. unfold sample_count. rewrite of_Z_250.
    reflexivity.
  - unfold sample_count.
    destruct (mul_250_bounded false m e Hc ltac:(lia))
      as [[z E]|(m' & e' & E & _)]; rewrite E.
    + exists 0. split; [reflexivity|lia].
    + eexists. split; [reflexivity|].
      apply Z.shiftl_nonneg. lia.
Qed.

(** A horizon with one sample is a positive number, and its grid is
    the single time [0.0]. *)
Lemma time_grid_single (max_time : float) :
  F64.valid max_time = true -> sample_count max_time = Ok 1 ->
  time_grid max_time = Ok [F64.zero]
  /\ (F64.zero == max_time)%f64 = false.
Proof.
  intros Hv Hn.
  pose proof (sample_count_sign max_time 1 Hv Hn) as Hs.
  unfold time_grid. rewrite Hn. cbn [result_bind].
  destruct max_time as [z|z| |s m e].
  - unfold sample_count in Hn. rewrite of_Z_250 in Hn. cbn in Hn.
    discriminate Hn.
  - unfold sample_count in Hn. rewrite of_Z_250 in Hn. discriminate Hn.
  - unfold sample_count in Hn. rewrite of_Z_250 in Hn. discriminate Hn.
  - cbn [F64.sign] in Hs. destruct s; [lia|]. split; [|reflexivity].
    unfold linspace. cbn [Z.ltb Z.compare Z.sub Z.add Z.opp Z.pos_sub].
    change (F64.zero * F64.one)%f64 with F64.zero.
    rewrite mul_one_r, sub_zero_r by (assumption || reflexivity).
    reflexivity.
Qed.

(** * The horizons of a single sample *)

Lemma c_004_eq : c_004 = S754_finite false 4611686018427388 (-60).
Proof.
  vm_compute. reflexivity.
Qed.

Lemma c_008_eq : c_008 = S754_finite false 4611686018427388 (-59).
Proof.
  vm_compute. reflexivity.
Qed.

(** The order of two positive finite numbers, read on exponents and
    mantissas. *)
Lemma ltb_finite_spec (m1 m2 : positive) (e1 e2 : Z) :
  (S754_finite false m1 e1 <? S754_finite false m2 e2)%f64 = true <->
  e1 < e2 \/ (e1 = e2 /\ Z.pos m1 < Z.pos m2).
Proof.
  unfold F64.ltb, SFltb, SFcompare.
  destruct (Z.compare_spec e1 e2) as [E|L|G].
  - destruct (compare_cont_Eq_spec m1 m2) as [E'|L'|G']; split;
      try discriminate; try (intros _; right; split; assumption);
      try reflexivity; intros [H|[_ H]]; lia.
  - split; [intros _; now left|reflexivity].
  - split; [discriminate|]. intros [H|[H _]]; lia.
Qed.

Lemma leb_finite_spec (m1 m2 : positive) (e1 e2 : Z) :
  (S754_finite false m1 e1 <=? S754_finite false m2 e2)%f64 = true <->
  e1 < e2 \/ (e1 = e2 /\ Z.pos m1 <= Z.pos m2).
Proof.
  unfold F64.leb, SFleb, SFcompare.
  destruct (Z.compare_spec e1 e2) as [E|L|G].
  - destruct (compare_cont_Eq_spec m1 m2) as [E'|L'|G']; split;
      try discriminate; try (intros _; right; split; lia);
      try reflexivity; intros [H|[_ H]]; lia.
  - split; [intros _; now left|reflexivity].
  - split; [discriminate|]. intros [H|[H _]]; lia.
Qed.

(** Rounding a number of 53 digits or more, in the normal range: a
    mantissa of 53 digits, within half a unit of the last place. *)
Lemma round_aux_error (s : bool) (M : positive) (E : Z) :
  53 <= Z.pos (digits2_pos M) ->
  -1074 <= Z.pos (digits2_pos M) + E - 53 ->
  Z.pos (digits2_pos M) + E - 52 <= 971 ->
  exists H n,
    binary_round_aux 53 1024 s (Z.pos M) E loc_Exact
    = S754_finite s H (E + n)
    /\ Z.pos (digits2_pos H) = 53
    /\ Z.pos (digits2_pos M) - 53 <= n <= Z.pos (digits2_pos M) - 52
    /\ 2 * Z.pos M - 2 ^ n <= 2 * (Z.pos H * 2 ^ n) <= 2 * Z.pos M + 2 ^ n.
Proof.
  intros Hd HL HU.
  pose proof (digits2_pos_bounds M) as [XL XU].
  set (dM := Z.pos (digits2_pos M)) in *.
  rewrite binary_round_aux_finish by (rewrite fexp64_eq; fold dM; lia).
  rewrite fexp64_eq. fold dM.
  replace (Z.max (dM + E - 53) (-1074)) with (E + (dM - 53)) by lia.
  replace (E + (dM - 53) - E) with (dM - 53) by lia.
  set (n0 := dM - 53) in *.
  set (R := round_shift (Z.pos M) n0).
  pose proof (round_shift_bounds (Z.pos M) n0) as HRb. fold R in HRb.
  pose proof (round_shift_error (Z.pos M) n0 ltac:(unfold n0; lia)) as HRe.
  fold R in HRe.
  assert (HPn : 0 < 2 ^ n0) by (apply Z.pow_pos_nonneg; unfold n0; lia).
  assert (HqL : 2 ^ 52 <= Z.pos M / 2 ^ n0).
  { apply Z.div_le_lower_bound; [lia|].
    rewrite Z.mul_comm, <- Z.pow_add_r by (unfold n0; lia).
    replace (52 + n0) with (dM - 1) by (unfold n0; lia). exact XL. }
  assert (HqU : Z.pos M / 2 ^ n0 < 2 ^ 53).
  { apply Z.div_lt_upper_bound; [lia|].
    rewrite <- Z.pow_add_r by (unfold n0; lia).
    replace (n0 + 53) with dM by (unfold n0; lia). exact XU. }
  destruct (finish_value s R (E + n0) ltac:(lia) ltac:(unfold n0; lia)
              ltac:(unfold n0; lia)) as (H & c & Hc & HdH & HR & ->).
  exists H, (n0 + c). split; [f_equal; lia|]. split; [exact HdH|].
  split; [unfold n0; lia|].
  rewrite Z.pow_add_r by (unfold n0; lia).
  replace (Z.pos H * (2 ^ n0 * 2 ^ c)) with (R * 2 ^ n0) by (rewrite <- HR; lia).
  assert (1 <= 2 ^ c) by (change 1 with (2 ^ 0); apply Z.pow_le_mono_r; lia).
  nia.
Qed.

(** A horizon below [0.004 * 2^j] has fewer than [2^j] samples. *)
Lemma sample_count_below (j : Z) (mx : positive) (ex : Z) :
  0 <= j <= 1 -> canonical mx ex ->
  ex < -60 + j \/ (ex = -60 + j /\ Z.pos mx < 4611686018427388) ->
  exists n, sample_count (S754_finite false mx ex) = Ok n /\ 0 <= n < 2 ^ j.
Proof.
  intros Hj Hc Hlt.
  assert (A : at_most false 9007199254740991 (j - 53)
                (F64.mul (F64.of_Z 250) (S754_finite false mx ex))).
  { rewrite of_Z_250. unfold F64.mul, SFmul.
    change F64.prec with 53. change F64.emax with 1024. cbn [xorb].
    pose proof (digits_mul_250_ge mx) as HdM.
    destruct Hc as [Hr Hd].
    assert (Hm : Z.pos mx < 2 ^ 53) by (apply digits_lt_pow; lia).
    change (2 ^ 53) with 9007199254740992 in Hm.
    apply round_aux_at_most.
    - rewrite fexp64_eq. lia.
    - lia.
    - split; [lia|]. left. reflexivity.
    - rewrite Pos2Z.inj_mul.
      replace (j - 53 - (-45 + ex)) with (52 + (j - 60 - ex)) by lia.
      rewrite Z.pow_add_r by lia.
      change (2 ^ 52) with 4503599627370496.
      destruct Hlt as [L|[E L]].
      + assert (2 ^ 1 <= 2 ^ (j - 60 - ex))
          by (apply Z.pow_le_mono_r; lia).
        change (2 ^ 1) with 2 in H. nia.
      + replace (j - 60 - ex) with 0 by lia. change (2 ^ 0) with 1. lia. }
  unfold sample_count.
  assert (HP : 0 < 2 ^ j) by (apply Z.pow_pos_nonneg; lia).
  destruct A as [[z E]|(m & e & E & [Hre Hde] & Ho)]; rewrite E.
  - exists 0. split; [reflexivity|lia].
  - cbn [int_of_float cond_Zopp]. eexists. split; [reflexivity|].
    split; [apply Z.shiftl_nonneg; lia|].
    assert (Hm : Z.pos m < 2 ^ 53) by (apply digits_lt_pow; lia).
    rewrite Z.shiftl_div_pow2 by lia.
    apply Z.div_lt_upper_bound; [apply Z.pow_pos_nonneg; lia|].
    rewrite <- Z.pow_add_r by lia.
    assert (2 ^ 53 <= 2 ^ (- e + j)) by (apply Z.pow_le_mono_r; lia).
    lia.
Qed.

(** A normal horizon of [0.004 * 2^j] or more has [2^j] samples at
    least, when it has a number of samples at all. *)
Lemma sample_count_above (j : Z) (mx : positive) (ex n : Z) :
  0 <= j <= 1 -> Z.pos (digits2_pos mx) = 53 -> ex <= 971 ->
  -60 + j < ex \/ (ex = -60 + j /\ 4611686018427388 <= Z.pos mx) ->
  sample_count (S754_finite false mx ex) = Ok n -> 2 ^ j <= n.
Proof.
  intros Hj Hd Hex Hge Hn.
  assert (HJ : 2 ^ j <= 2)
    by (change 2 with (2 ^ 1) at 2; apply Z.pow_le_mono_r; lia).
  pose proof (digits2_pos_bounds mx) as [XL XU]. rewrite Hd in XL, XU.
  change (2 ^ (53 - 1)) with 4503599627370496 in XL.
  change (2 ^ 53) with 9007199254740992 in XU.
  destruct (Z_le_gt_dec ex 900) as [Small|Large].
  - unfold sample_count in Hn. rewrite of_Z_250 in Hn.
    unfold F64.mul, SFmul in Hn.
    change F64.prec with 53 in Hn. change F64.emax with 1024 in Hn.
    cbn [xorb] in Hn.
    pose proof (digits_mul_250 mx) as HdM. rewrite Hd in HdM.
    set (M := (8796093022208000 * mx)%positive) in *.
    destruct (round_aux_error false M (-45 + ex) ltac:(lia) ltac:(lia)
                ltac:(lia)) as (H & n' & E & HdH & Hn' & [Herr _]).
    remember (-45 + ex + n') as h eqn:Hh0.
    rewrite E in Hn. cbn [int_of_float cond_Zopp] in Hn.
    injection Hn as <-.
    pose proof (digits2_pos_bounds H) as [HL HU]. rewrite HdH in HL, HU.
    change (2 ^ (53 - 1)) with 4503599627370496 in HL.
    change (2 ^ 53) with 9007199254740992 in HU.
    assert (HM : Z.pos M = 8796093022208000 * Z.pos mx) by reflexivity.
    (* the exponent of the product is [j - 52] at least *)
    assert (Hh : j - 52 <= h).
    { destruct (Z_le_gt_dec (j - 52) h) as [L|G];
        [exact L|exfalso].
      assert (HPn : 0 < 2 ^ n') by (apply Z.pow_pos_nonneg; lia).
      assert (Hk : 2 ^ (53 + n') <= 2 ^ (j + 45 - ex))
        by (apply Z.pow_le_mono_r; lia).
      rewrite Z.pow_add_r in Hk by lia.
      change (2 ^ 53) with 9007199254740992 in Hk.
      (* the exact product is [2^j] at least *)
      assert (Hbig : 2 ^ (j + 45 - ex) <= Z.pos M).
      { rewrite HM.
        replace (j + 45 - ex) with (45 + (j - ex)) by lia.
        rewrite Z.pow_add_r by lia.
        change (2 ^ 45) with 35184372088832.
        assert (2 ^ (j - ex) <= 250 * Z.pos mx); [|lia].
        destruct Hge as [L|[Ee L]].
        - assert (2 ^ (j - ex) <= 2 ^ 59) by (apply Z.pow_le_mono_r; lia).
          change (2 ^ 59) with 576460752303423488 in H0. lia.
        - replace (j - ex) with 60 by lia.
          change (2 ^ 60) with 1152921504606846976. lia. }
      assert (Z.pos H * 2 ^ n' <= 9007199254740991 * 2 ^ n')
        by (apply Z.mul_le_mono_nonneg_r; lia).
      lia. }
    destruct (Z_le_gt_dec 0 h) as [P|Q].
    + rewrite Z.shiftl_mul_pow2 by lia.
      assert (1 <= 2 ^ h)
        by (change 1 with (2 ^ 0); apply Z.pow_le_mono_r; lia).
      nia.
    + rewrite Z.shiftl_div_pow2 by lia.
      apply Z.div_le_lower_bound; [apply Z.pow_pos_nonneg; lia|].
      rewrite <- Z.pow_add_r by lia.
      assert (2 ^ (- h + j) <= 2 ^ 52)
        by (apply Z.pow_le_mono_r; lia).
      change (2 ^ 52) with 4503599627370496 in H0.
      lia.
  - destruct (mul_250_normal false mx ex Hd ltac:(lia))
      as (m' & e' & Hd' & He' & E).
    unfold sample_count in Hn. rewrite E in Hn.
    destruct (e' <=? 971); [|discriminate Hn].
    cbn [int_of_float cond_Zopp] in Hn. injection Hn as <-.
    pose proof (digits2_pos_bounds m') as [L U]. rewrite Hd' in L.
    change (2 ^ (53 - 1)) with 4503599627370496 in L.
    rewrite Z.shiftl_mul_pow2 by lia.
    assert (1 <= 2 ^ e')
      by (change 1 with (2 ^ 0); apply Z.pow_le_mono_r; lia).
    nia.
Qed.

(** The horizons of a single sample: [int(250*max_time)] is 1 exactly
    for the doubles from [1/250] up to, and not including, [2/250]. *)
Lemma sample_count_single (max_time : float) :
  F64.valid max_time = true ->
  sample_count max_time = Ok 1 <->
  ((c_004 <=? max_time) && (max_time <? c_008))%f64 = true.
Proof.
  intros Hv. rewrite c_004_eq, c_008_eq.
  destruct max_time as [z|z| |s m e].
  - split; [|discriminate].
    unfold sample_count. rewrite of_Z_250. cbn. discriminate.
  - split; [|destruct z; discriminate].
    unfold sample_count. rewrite of_Z_250. cbn. discriminate.
  - split; [|discriminate].
    unfold sample_count. rewrite of_Z_250. cbn. discriminate.
  - destruct s.
    + split; [|discriminate]. intros Hn.
      apply sample_count_sign in Hn; [|exact Hv]. cbn [F64.sign] in Hn. lia.
    + apply bounded_canonical in Hv.
      rewrite andb_true_iff, leb_finite_spec, ltb_finite_spec.
      split.
      * intros Hn.
        assert (L : ~ (e < -60 \/ (e = -60 /\ Z.pos m < 4611686018427388))).
        { intros B.
          destruct (sample_count_below 0 m e ltac:(lia) Hv B)
            as (n & En & Hn0 & Hn1).
          rewrite Hn in En. injection En as <-.
          change (2 ^ 0) with 1 in Hn1. lia. }
        assert (U : ~ (-59 < e \/ (e = -59 /\ 4611686018427388 <= Z.pos m))).
        { intros A. destruct Hv as [Hr Hd].
          assert (Hd53 : Z.pos (digits2_pos m) = 53) by lia.
          pose proof (sample_count_above 1 m e 1 ltac:(lia) Hd53
                        ltac:(lia) A Hn) as H2.
          change (2 ^ 1) with 2 in H2. lia. }
        lia.
      * intros [A B].
        destruct (sample_count_below 1 m e ltac:(lia) Hv) as (n & En & Hn0 & Hn1).
        { lia. }
        change (2 ^ 1) with 2 in Hn1.
        destruct Hv as [Hr Hd].
        assert (Hd53 : Z.pos (digits2_pos m) = 53) by lia.
        pose proof (sample_count_above 0 m e n ltac:(lia) Hd53
                      ltac:(lia) ltac:(lia) En) as H1.
        change (2 ^ 0) with 1 in H1.
        rewrite En. f_equal. lia.
Qed.


(** * How a run ends *)

Lemma solve_lorenz_neg_run (R : random_state) (odeint : integrator)
  (jet : colormap) (N : Z) (angle max_time sigma beta rho : float)
  (g : rng R) :
  N < 0 ->
  solve_lorenz R odeint jet N angle max_time sigma beta rho g
  = (Raise ValueError, rng_seed R 1).
Proof.
  intros HN. unfold solve_lorenz. unfold bind at 1.
  rewrite initial_conditions_run.
  replace (N <? 0) with true by (symmetry; apply Z.ltb_lt; lia).
  reflexivity.
Qed.

Lemma solve_lorenz_grid_raise (R : random_state) (odeint : integrator)
  (jet : colormap) (N : Z) (angle max_time sigma beta rho : float)
  (g : rng R) (e : exn) :
  0 <= N -> time_grid max_time = Raise e ->
  solve_lorenz R odeint jet N angle max_time sigma beta rho g
  = (Raise e, snd (seeded_rows R N)).
Proof.
  intros HN Ht. unfold solve_lorenz. unfold bind at 1.
  rewrite initial_conditions_run.
  replace (N <? 0) with false by (symmetry; apply Z.ltb_ge; lia).
  unfold bind at 1. unfold lift at 1. rewrite Ht. reflexivity.
Qed.

Lemma time_grid_negative (max_time : float) (n : Z) :
  sample_count max_time = Ok n -> n < 0 ->
  time_grid max_time = Raise ValueError.
Proof.
  intros Hn H. unfold time_grid. rewrite Hn. cbn [result_bind].
  now apply linspace_neg.
Qed.

Lemma time_grid_raise (max_time : float) (e : exn) :
  sample_count max_time = Raise e -> time_grid max_time = Raise e.
Proof.
  intros Hn. unfold time_grid. rewrite Hn. reflexivity.
Qed.


(** * The vector field *)

(** C1: at every state [(x, y, z)] and for all coefficients the vector
    field returns the triple
    [(sigma*(y-x), x*(rho-z)-y, x*y-beta*z)], each operation being the
    binary64 one; the time argument plays no part. *)
Theorem lorenz_deriv_spec (x y z t0 sigma beta rho : float) :
  lorenz_deriv (x, y, z) t0 sigma beta rho =
  (F64.mul sigma (F64.sub y x),
   F64.sub (F64.mul x (F64.sub rho z)) y,
   F64.sub (F64.mul x y) (F64.mul beta z)).
Proof.
  unfold lorenz_deriv.
  reflexivity.
Qed.

(** C2, as the specification words it, fails: an infinite coefficient
    turns the derivative at the origin into a NaN ([inf * 0.0]). *)
Lemma lorenz_deriv_origin_infinite_sigma :
  lorenz_deriv origin F64.zero F64.infinity beta0 rho0
    = (F64.nan, F64.zero, F64.zero)
  /\ is_origin (lorenz_deriv origin F64.zero F64.infinity beta0 rho0)
     = false.
Proof.
  split; vm_compute; reflexivity.
Qed.

(** C2 (amended): at the origin each component of the derivative
    depends on one coefficient only, and is a zero or a NaN: the first
    is [+-0.0] with the sign of [sigma] when [sigma] is finite, the
    second [+-0.0] with the sign of [rho] when [rho] is finite, the
    third [+0.0] when [beta] is finite, and each is a NaN when its
    coefficient is infinite or a NaN. The derivative therefore equals
    [(0, 0, 0)] under [==] exactly when the three coefficients are
    finite. *)
Theorem lorenz_deriv_origin (t0 sigma beta rho : float) :
  lorenz_deriv origin t0 sigma beta rho
    = (if F64.is_finite sigma then S754_zero (F64.sign sigma) else F64.nan,
       if F64.is_finite rho then S754_zero (F64.sign rho) else F64.nan,
       if F64.is_finite beta then F64.zero else F64.nan)
  /\ is_origin (lorenz_deriv origin t0 sigma beta rho)
     = F64.is_finite sigma && F64.is_finite beta && F64.is_finite rho.
Proof.
  assert (E : lorenz_deriv origin t0 sigma beta rho
    = (if F64.is_finite sigma then S754_zero (F64.sign sigma) else F64.nan,
       if F64.is_finite rho then S754_zero (F64.sign rho) else F64.nan,
       if F64.is_finite beta then F64.zero else F64.nan)).
  { destruct sigma as [ss|ss| |ss ms es];
    destruct beta as [sb|sb| |sb mb eb];
    destruct rho as [sr|sr| |sr mr er];
    try destruct ss; try destruct sb; try destruct sr; reflexivity. }
  split; [exact E|].
  rewrite E.
  destruct sigma as [ss|ss| |ss ms es];
    destruct beta as [sb|sb| |sb mb eb];
    destruct rho as [sr|sr| |sr mr er];
    try destruct ss; try destruct sr; reflexivity.
Qed.

(** With the coefficients the notebook starts from, all finite. *)
Lemma lorenz_deriv_origin_default :
  lorenz_deriv origin F64.zero sigma0 beta0 rho0
    = (if F64.is_finite sigma0 then S754_zero (F64.sign sigma0) else F64.nan,
       if F64.is_finite rho0 then S754_zero (F64.sign rho0) else F64.nan,
       if F64.is_finite beta0 then F64.zero else F64.nan)
  /\ is_origin (lorenz_deriv origin F64.zero sigma0 beta0 rho0)
     = F64.is_finite sigma0 && F64.is_finite beta0 && F64.is_finite rho0.
Proof.
  exact (lorenz_deriv_origin F64.zero sigma0 beta0 rho0).
Defined.

(** * The initial conditions *)

Lemma ltb_leb (a b : float) : F64.ltb a b = true -> F64.leb a b = true.
Proof.
  unfold F64.ltb, F64.leb, SFltb, SFleb.
  destruct (SFcompare a b) as [[]|]; intros H; first [reflexivity | discriminate H].
Qed.

Lemma scale_row_half_open (r : state) :
  row_in_unit_interval r -> in_half_open_cube (scale_row r) = true.
Proof.
  destruct r as [[a b] c]. intros (Ha & Hb & Hc).
  unfold scale_row, in_half_open_cube, in_half_open_range.
  destruct (scale_range a Ha) as [-> ->].
  destruct (scale_range b Hb) as [-> ->].
  destruct (scale_range c Hc) as [-> ->].
  reflexivity.
Qed.

Lemma half_open_cube_in_cube (p : state) :
  in_half_open_cube p = true -> in_cube p = true.
Proof.
  destruct p as [[a b] c].
  unfold in_half_open_cube, in_cube, in_half_open_range, in_range.
  rewrite !andb_true_iff.
  intros [[[A1 A2] [B1 B2]] [C1 C2]].
  repeat split; try assumption; now apply ltb_leb.
Qed.

Lemma seeded_rows_half_open (R : random_state) (N : Z) :
  draws_in_unit_interval R ->
  Forall (fun p => in_half_open_cube p = true)
    (map scale_row (fst (seeded_rows R N))).
Proof.
  intros HR. apply Forall_map.
  eapply Forall_impl; [|apply (random_rows_unit R HR)].
  intros r Hr. now apply scale_row_half_open.
Qed.

(** C3: the initial conditions depend on nothing but the seed [1] the
    code fixes and on [N] (the state the global generator was left in
    plays no part), and when [N] is not negative they are [N] points of
    the cube [[-15, 15]^3]. *)
Theorem initial_conditions_deterministic_in_cube (R : random_state) (N : Z) :
  draws_in_unit_interval R ->
  (forall g g' : rng R, initial_conditions R N g = initial_conditions R N g')
  /\ (0 <= N -> forall g : rng R, exists xs g1,
        initial_conditions R N g = (Ok xs, g1) /\
        length xs = Z.to_nat N /\
        Forall (fun p => in_cube p = true) xs).
Proof.
  intros HR. split.
  - intros g g'. now rewrite 2 initial_conditions_run.
  - intros HN g. rewrite initial_conditions_run.
    replace (N <? 0) with false by (symmetry; apply Z.ltb_ge; lia).
    eexists. eexists. split; [reflexivity|]. split.
    + rewrite length_map. apply random_rows_length.
    + eapply Forall_impl; [|apply (seeded_rows_half_open R N HR)].
      intros p. apply half_open_cube_in_cube.
Qed.

(** With NumPy's generator and the ten trajectories the notebook starts
    from. *)
Lemma initial_conditions_numpy_10 :
  (forall g g' : rng numpy_random,
     initial_conditions numpy_random 10 g = initial_conditions numpy_random 10 g')
  /\ (0 <= 10 -> forall g : rng numpy_random, exists xs g1,
        initial_conditions numpy_random 10 g = (Ok xs, g1) /\
        length xs = Z.to_nat 10 /\
        Forall (fun p => in_cube p = true) xs).
Proof.
  apply (initial_conditions_deterministic_in_cube numpy_random 10).
  exact numpy_random_unit_interval.
Defined.

(** C9: every coordinate of every generated initial condition is at
    least [-15] and strictly less than [15]: [-15 + 30 * u] stays below
    [15] for every double [u] of [[0.0, 1.0)], also after rounding. The
    lower end is attained: [u = 0.0] gives exactly [-15.0]. *)
Theorem initial_conditions_below_15 :
  (forall u, in_unit_interval u = true -> in_half_open_range (scale u) = true)
  /\ (forall (R : random_state) (N : Z) (g : rng R) xs g1,
        draws_in_unit_interval R ->
        initial_conditions R N g = (Ok xs, g1) ->
        Forall (fun p => in_half_open_cube p = true) xs)
  /\ in_unit_interval F64.zero = true
  /\ scale F64.zero = F64.of_Z (-15)
  /\ draws_in_unit_interval constant_zero_random
  /\ fst (initial_conditions constant_zero_random 1 tt)
     = Ok [(F64.of_Z (-15), F64.of_Z (-15), F64.of_Z (-15))].
Proof.
  split; [|split; [|split; [|split; [|split]]]].
  - intros u Hu. unfold in_half_open_range.
    destruct (scale_range u Hu) as [-> ->]. reflexivity.
  - intros R N g xs g1 HR H. rewrite initial_conditions_run in H.
    destruct (N <? 0); [discriminate H|].
    injection H as <- _. now apply seeded_rows_half_open.
  - reflexivity.
  - vm_compute. reflexivity.
  - exact constant_zero_unit_interval.
  - vm_compute. reflexivity.
Qed.

(** * The time grid and the trajectories *)

Lemma time_grid_ok (max_time : float) (n : Z) :
  sample_count max_time = Ok n -> 0 <= n ->
  exists tg, time_grid max_time = Ok tg /\ length tg = Z.to_nat n.
Proof.
  intros Hn H0. unfold time_grid. rewrite Hn. cbn [result_bind].
  now apply linspace_ok.
Qed.

Lemma trajectories_on_grid (odeint : integrator) (sigma beta rho : float)
  (xs : list state) (tg : list float) :
  integrator_contract odeint ->
  Forall (fun tr => length tr = length tg)
    (trajectories odeint sigma beta rho xs tg).
Proof.
  intros Hc. unfold trajectories. apply Forall_map, Forall_forall.
  intros x0i _. apply Hc.
Qed.

(** [solve_lorenz] returns whenever [N] and the number of time samples
    are not negative. *)
Lemma solve_lorenz_returns (R : random_state) (odeint : integrator)
  (jet : colormap) (N : Z) (angle max_time sigma beta rho : float)
  (g : rng R) (n : Z) :
  0 <= N -> sample_count max_time = Ok n -> 0 <= n ->
  exists tg pos,
    time_grid max_time = Ok tg /\ length tg = Z.to_nat n /\
    color_positions N = Ok pos /\ length pos = Z.to_nat N /\
    let xs := map scale_row (fst (seeded_rows R N)) in
    let xt := trajectories odeint sigma beta rho xs tg in
    solve_lorenz R odeint jet N angle max_time sigma beta rho g
    = (Ok {| x0 := xs; t := tg; x_t := xt; colors := map jet pos;
             fig := {| xlim := (-25, 25); ylim := (-35, 35);
                       zlim := (5, 55);
                       lines := map (fun p => line_of (fst p) (snd p))
                                  (combine xt (map jet pos));
                       view := (30, angle) |} |},
       snd (seeded_rows R N)).
Proof.
  intros HN Hn H0.
  destruct (time_grid_ok max_time n Hn H0) as (tg & Ht & Hl).
  destruct (linspace_ok F64.zero F64.one N HN) as (pos & Hp & Hlp).
  exists tg, pos. repeat split; try assumption.
  now apply solve_lorenz_run.
Qed.

Lemma int_of_float_quot (s : bool) (m : positive) (e n : Z) :
  int_of_float (S754_finite s m e) = Ok n ->
  n = Z.quot (cond_Zopp s (Z.pos m * 2 ^ Z.max e 0)) (2 ^ Z.max (- e) 0).
Proof.
  cbn [int_of_float]. intros H. injection H as <-.
  destruct (Z_le_gt_dec 0 e) as [L|G].
  - rewrite Z.shiftl_mul_pow2 by lia.
    replace (Z.max e 0) with e by lia. replace (Z.max (- e) 0) with 0 by lia.
    now rewrite Z.quot_1_r.
  - rewrite Z.shiftl_div_pow2 by lia.
    replace (Z.max e 0) with 0 by lia.
    replace (Z.max (- e) 0) with (- e) by lia.
    rewrite Z.mul_1_r.
    assert (0 < 2 ^ (- e)) by (apply Z.pow_pos_nonneg; lia).
    destruct s; cbn [cond_Zopp].
    + rewrite Z.quot_opp_l by lia. now rewrite Z.quot_div_nonneg by lia.
    + now rewrite Z.quot_div_nonneg by lia.
Qed.

(** C4, as the specification words it, fails: for the horizon [0.25]
    the product [250 * 0.25] is [62.5], and the grid has [62] samples. *)
Lemma sample_count_quarter :
  (F64.of_Z 250 * quarter)%f64 = F64.div (F64.of_Z 125) (F64.of_Z 2)
  /\ sample_count quarter = Ok 62
  /\ result_map (@length float) (time_grid quarter) = Ok 62%nat
  /\ (F64.of_Z 62 == F64.of_Z 250 * quarter)%f64 = false.
Proof.
  repeat split; vm_compute; reflexivity.
Qed.

(** C4 (amended): the number of time samples of every trajectory is
    [int(250*max_time)], the binary64 product [250 * max_time] truncated
    toward zero, whenever that number is defined and not negative. *)
Theorem trajectory_sample_count (R : random_state) (odeint : integrator)
  (jet : colormap) (N : Z) (angle max_time sigma beta rho : float)
  (g : rng R) (n : Z) :
  integrator_contract odeint ->
  0 <= N -> sample_count max_time = Ok n -> 0 <= n ->
  (exists l g',
     solve_lorenz R odeint jet N angle max_time sigma beta rho g = (Ok l, g')
     /\ length (t l) = Z.to_nat n
     /\ Forall (fun tr => length tr = Z.to_nat n) (x_t l))
  /\ (forall s m e,
        (F64.of_Z 250 * max_time)%f64 = S754_finite s m e ->
        n = Z.quot (cond_Zopp s (Z.pos m * 2 ^ Z.max e 0))
              (2 ^ Z.max (- e) 0)).
Proof.
  intros Hc HN Hn H0. split.
  - destruct (solve_lorenz_returns R odeint jet N angle max_time sigma beta
                rho g n HN Hn H0) as (tg & pos & Ht & Hl & Hp & Hlp & Hrun).
    eexists. eexists. split; [exact Hrun|]. cbn [t x_t]. split; [exact Hl|].
    rewrite <- Hl. now apply trajectories_on_grid.
  - intros s m e E. unfold sample_count in Hn. rewrite E in Hn.
    now apply int_of_float_quot.
Qed.

(** The notebook's first run: a horizon of [4.0], a thousand samples. *)
Lemma trajectory_sample_count_default :
  (exists l g',
     solve_lorenz numpy_random euler gray 10 F64.zero (F64.of_Z 4)
       sigma0 beta0 rho0 (MT19937.seed 0) = (Ok l, g')
     /\ length (t l) = Z.to_nat 1000
     /\ Forall (fun tr => length tr = Z.to_nat 1000) (x_t l))
  /\ (forall s m e,
        (F64.of_Z 250 * F64.of_Z 4)%f64 = S754_finite s m e ->
        1000 = Z.quot (cond_Zopp s (Z.pos m * 2 ^ Z.max e 0))
                 (2 ^ Z.max (- e) 0)).
Proof.
  apply (trajectory_sample_count numpy_random euler gray 10 F64.zero
           (F64.of_Z 4) sigma0 beta0 rho0 (MT19937.seed 0) 1000).
  - exact euler_contract.
  - lia.
  - vm_compute. reflexivity.
  - lia.
Defined.

Lemma contract_empty (odeint : integrator) func y0 :
  integrator_contract odeint -> odeint func y0 [] = [].
Proof.
  intros Hc. destruct (Hc func y0 []) as [Hl _].
  now destruct (odeint func y0 []).
Qed.

Lemma contract_single (odeint : integrator) func y0 t0 :
  integrator_contract odeint -> odeint func y0 [t0] = [y0].
Proof.
  intros Hc. destruct (Hc func y0 [t0]) as [Hl Hh].
  specialize (Hh ltac:(discriminate)).
  destruct (odeint func y0 [t0]) as [|y [|y' ys]]; try discriminate Hl.
  cbn in Hh. now injection Hh as ->.
Qed.

Lemma trajectories_single (odeint : integrator) (sigma beta rho : float)
  (xs : list state) (t0 : float) :
  integrator_contract odeint ->
  Forall2 (fun tr x0i => tr = [x0i])
    (trajectories odeint sigma beta rho xs [t0]) xs.
Proof.
  intros Hc. unfold trajectories.
  induction xs as [|x0i xs IH]; cbn [map]; constructor;
    [now apply contract_single|exact IH].
Qed.

(** A run whose trajectories are single samples, and that has one
    trajectory at least, has a time grid of one sample. *)
Lemma single_trajectories_inv (R : random_state) (odeint : integrator)
  (jet : colormap) (N : Z) (angle max_time sigma beta rho : float)
  (g g' : rng R) (l : locals) :
  integrator_contract odeint -> 0 < N ->
  solve_lorenz R odeint jet N angle max_time sigma beta rho g = (Ok l, g') ->
  Forall2 (fun tr x0i => tr = [x0i]) (x_t l) (x0 l) ->
  sample_count max_time = Ok 1.
Proof.
  intros Hc HN Hrun HF.
  destruct (sample_count max_time) as [n|e] eqn:Hn.
  - destruct (Z_lt_le_dec n 0) as [Neg|Pos].
    + rewrite (solve_lorenz_grid_raise R odeint jet N angle max_time sigma
                 beta rho g ValueError ltac:(lia)
                 (time_grid_negative max_time n Hn Neg)) in Hrun.
      discriminate Hrun.
    + destruct (solve_lorenz_returns R odeint jet N angle max_time sigma beta
                  rho g n ltac:(lia) Hn Pos)
        as (tg & pos & Ht & Hl & Hp & Hlp & Hrun').
      cbv zeta in Hrun'. rewrite Hrun' in Hrun.
      injection Hrun as <- _. cbn [x_t x0] in HF.
      pose proof (random_rows_length R (Z.to_nat N) (rng_seed R 1)) as Hr.
      fold (seeded_rows R N) in Hr.
      destruct (fst (seeded_rows R N)) as [|r rs];
        [cbn [length] in Hr; lia|].
      cbn [map trajectories] in HF. unfold trajectories in HF.
      cbn [map] in HF. inversion HF as [|tr x0i trs xs Hx _]; subst.
      destruct (Hc (fun s t0 => lorenz_deriv s t0 sigma beta rho)
                  (scale_row r) tg) as [Hlen _].
      rewrite Hx in Hlen. cbn [length] in Hlen.
      f_equal. lia.
  - rewrite (solve_lorenz_grid_raise R odeint jet N angle max_time sigma
               beta rho g e ltac:(lia) (time_grid_raise max_time e Hn))
      in Hrun.
    discriminate Hrun.
Qed.

(** C5, as the specification words it, fails: with a horizon of [0.0]
    the grid [np.linspace(0, 0.0, int(0.0))] has no sample, and the
    trajectory from the one initial condition is empty. *)
Lemma zero_horizon_empty_trajectory :
  result_map (fun l => (length (x0 l), t l, x_t l))
    (fst (solve_lorenz numpy_random euler gray 1 F64.zero F64.zero
            sigma0 beta0 rho0 (MT19937.seed 0)))
  = Ok (1%nat, [], [[]]).
Proof.
  vm_compute. reflexivity.
Qed.

(** C5 (amended): with a horizon of [0.0] the time grid is empty and so
    is every trajectory; the trajectories are single points equal to
    their initial conditions exactly when the grid has one sample, that
    is when [int(250*max_time) = 1], which is the case of the horizons
    from [1/250] (the double [0.004]) up to, and not including, [2/250]
    (the double [0.008]). *)
Theorem zero_horizon_trajectories (R : random_state) (odeint : integrator)
  (jet : colormap) (N : Z) (angle sigma beta rho : float) (g : rng R) :
  integrator_contract odeint -> 0 <= N ->
  (exists l g',
     solve_lorenz R odeint jet N angle F64.zero sigma beta rho g = (Ok l, g')
     /\ t l = [] /\ length (x_t l) = Z.to_nat N
     /\ Forall (fun tr => tr = []) (x_t l))
  /\ (forall max_time, sample_count max_time = Ok 1 ->
      exists l g',
        solve_lorenz R odeint jet N angle max_time sigma beta rho g
          = (Ok l, g')
        /\ length (t l) = 1%nat
        /\ Forall2 (fun tr x0i => tr = [x0i]) (x_t l) (x0 l))
  /\ (forall max_time l g', 0 < N ->
      solve_lorenz R odeint jet N angle max_time sigma beta rho g
        = (Ok l, g') ->
      Forall2 (fun tr x0i => tr = [x0i]) (x_t l) (x0 l) ->
      sample_count max_time = Ok 1)
  /\ (forall max_time, F64.valid max_time = true ->
      (sample_count max_time = Ok 1 <->
       ((c_004 <=? max_time) && (max_time <? c_008))%f64 = true)).
Proof.
  intros Hc HN. split; [|split; [|split]].
  - destruct (solve_lorenz_returns R odeint jet N angle F64.zero sigma beta
                rho g 0 HN eq_refl ltac:(lia))
      as (tg & pos & Ht & Hl & Hp & Hlp & Hrun).
    destruct tg; [|discriminate Hl].
    eexists. eexists. split; [exact Hrun|]. cbn [t x_t].
    split; [reflexivity|]. split.
    + rewrite trajectories_length, length_map. apply random_rows_length.
    + unfold trajectories. apply Forall_map, Forall_forall.
      intros x0i _. now apply contract_empty.
  - intros max_time Hn.
    destruct (solve_lorenz_returns R odeint jet N angle max_time sigma beta
                rho g 1 HN Hn ltac:(lia))
      as (tg & pos & Ht & Hl & Hp & Hlp & Hrun).
    destruct tg as [|t0 [|t1 tg]]; try discriminate Hl.
    eexists. eexists. split; [exact Hrun|]. cbn [t x_t x0].
    split; [reflexivity|].
    now apply trajectories_single.
  - intros max_time l g' HN' Hrun HF.
    exact (single_trajectories_inv R odeint jet N angle max_time sigma beta
             rho g g' l Hc HN' Hrun HF).
  - intros max_time Hv. now apply sample_count_single.
Qed.

(** With NumPy's generator, the Euler integrator and ten trajectories. *)
Lemma zero_horizon_trajectories_default :
  (exists l g',
     solve_lorenz numpy_random euler gray 10 F64.zero F64.zero
       sigma0 beta0 rho0 (MT19937.seed 0) = (Ok l, g')
     /\ t l = [] /\ length (x_t l) = Z.to_nat 10
     /\ Forall (fun tr => tr = []) (x_t l))
  /\ (forall max_time, sample_count max_time = Ok 1 ->
      exists l g',
        solve_lorenz numpy_random euler gray 10 F64.zero max_time
          sigma0 beta0 rho0 (MT19937.seed 0) = (Ok l, g')
        /\ length (t l) = 1%nat
        /\ Forall2 (fun tr x0i => tr = [x0i]) (x_t l) (x0 l))
  /\ (forall max_time l g', 0 < 10 ->
      solve_lorenz numpy_random euler gray 10 F64.zero max_time
        sigma0 beta0 rho0 (MT19937.seed 0) = (Ok l, g') ->
      Forall2 (fun tr x0i => tr = [x0i]) (x_t l) (x0 l) ->
      sample_count max_time = Ok 1)
  /\ (forall max_time, F64.valid max_time = true ->
      (sample_count max_time = Ok 1 <->
       ((c_004 <=? max_time) && (max_time <? c_008))%f64 = true)).
Proof.
  apply (zero_horizon_trajectories numpy_random euler gray 10 F64.zero
           sigma0 beta0 rho0 (MT19937.seed 0)).
  - exact euler_contract.
  - lia.
Defined.

(** C6: two runs of [solve_lorenz] with the same parameters return the
    same local variables (the trajectory array [x_t] among them), the
    same figure or the same exception, and leave the generator in the
    same state, whatever state each run found it in. *)
Theorem solve_lorenz_deterministic (R : random_state) (odeint : integrator)
  (jet : colormap) (N : Z) (angle max_time sigma beta rho : float)
  (g g' : rng R) :
  solve_lorenz R odeint jet N angle max_time sigma beta rho g
  = solve_lorenz R odeint jet N angle max_time sigma beta rho g'.
Proof.
  unfold solve_lorenz. unfold bind at 1. unfold bind at 4.
  rewrite (initial_conditions_run R N g), (initial_conditions_run R N g').
  reflexivity.
Qed.

(** C10, as the specification words it, fails: with [N = 0] the horizon
    is still looked at, and a negative one such as [-1.0] makes
    [np.linspace] raise [ValueError] for its negative number of
    samples. *)
Lemma solve_lorenz_no_trajectory_negative_horizon :
  sample_count (F64.of_Z (-1)) = Ok (-250)
  /\ fst (solve_lorenz numpy_random euler gray 0 F64.zero (F64.of_Z (-1))
            sigma0 beta0 rho0 (MT19937.seed 0))
     = Raise ValueError.
Proof.
  split; vm_compute; reflexivity.
Qed.

(** C10 (amended): for [N = 0] and a horizon from [0.0] to [4096.0],
    [solve_lorenz] returns: no initial condition, no trajectory, no
    colour, and a figure with no line. *)
Theorem solve_lorenz_no_trajectory (R : random_state) (odeint : integrator)
  (jet : colormap) (angle max_time sigma beta rho : float) (g : rng R) :
  F64.valid max_time = true ->
  (F64.zero <=? max_time)%f64 = true ->
  (max_time <=? c_4096)%f64 = true ->
  exists tg,
    time_grid max_time = Ok tg /\
    solve_lorenz R odeint jet 0 angle max_time sigma beta rho g
    = (Ok {| x0 := []; t := tg; x_t := []; colors := [];
             fig := {| xlim := (-25, 25); ylim := (-35, 35);
                       zlim := (5, 55); lines := [];
                       view := (30, angle) |} |},
       rng_seed R 1).
Proof.
  intros Hv Hl Hu.
  destruct (sample_count_upto_4096 max_time Hv Hl Hu) as (n & Hn & H0).
  destruct (solve_lorenz_returns R odeint jet 0 angle max_time sigma beta
              rho g n ltac:(lia) Hn H0)
    as (tg & pos & Ht & Hlt & Hp & Hlp & Hrun).
  exists tg. split; [exact Ht|].
  destruct pos; [|discriminate Hlp].
  exact Hrun.
Qed.

(** With the horizon [4.0] the notebook starts from. *)
Lemma solve_lorenz_no_trajectory_default :
  exists tg,
    time_grid (F64.of_Z 4) = Ok tg /\
    solve_lorenz numpy_random euler gray 0 F64.zero (F64.of_Z 4)
      sigma0 beta0 rho0 (MT19937.seed 0)
    = (Ok {| x0 := []; t := tg; x_t := []; colors := [];
             fig := {| xlim := (-25, 25); ylim := (-35, 35);
                       zlim := (5, 55); lines := [];
                       view := (30, F64.zero) |} |},
       rng_seed numpy_random 1).
Proof.
  apply (solve_lorenz_no_trajectory numpy_random euler gray F64.zero
           (F64.of_Z 4) sigma0 beta0 rho0 (MT19937.seed 0)).
  - vm_compute. reflexivity.
  - vm_compute. reflexivity.
  - vm_compute. reflexivity.
Defined.


(** * Evenly spaced samples *)

Lemma sample_count_finite (max_time : float) (n : Z) :
  sample_count max_time = Ok n -> F64.is_finite max_time = true.
Proof.
  intros H. destruct max_time as [z|z| |s m e]; try reflexivity;
    exfalso; [destruct z|]; vm_compute in H; discriminate H.
Qed.

Lemma linspace_sample_from_zero (stop v : float) (num : Z) :
  F64.valid stop = true -> F64.is_finite stop = true ->
  F64.is_nonzero_finite (stop / F64.of_Z (num - 1))%f64 = true ->
  linspace_sample F64.zero stop num v
  = (v * (stop / F64.of_Z (num - 1)) + F64.zero)%f64.
Proof.
  intros Hv Hf Hs. unfold linspace_sample.
  change (F64.zero * F64.one)%f64 with F64.zero.
  rewrite mul_one_r, sub_zero_r by assumption.
  destruct (stop / F64.of_Z (num - 1))%f64 as [z|z| |s m e];
    try discriminate Hs.
  destruct s; reflexivity.
Qed.

Lemma hd_error_nth_error {A : Type} (l : list A) :
  hd_error l = nth_error l 0.
Proof. now destruct l. Qed.

(** [np.linspace(0, stop, num)] for [num >= 2]: [num] samples, the
    first [0.0], the last [stop], and the sample of index [i] in
    between the index times the step [stop / (num - 1)]. *)
Lemma linspace_from_zero (stop : float) (num : Z) :
  F64.valid stop = true -> F64.is_finite stop = true -> 2 <= num ->
  F64.is_nonzero_finite (stop / F64.of_Z (num - 1))%f64 = true ->
  exists l,
    linspace F64.zero stop num = Ok l /\
    length l = Z.to_nat num /\
    hd_error l = Some F64.zero /\
    last l F64.nan = stop /\
    forall i, (i < Z.to_nat num - 1)%nat ->
      nth_error l i
      = Some (F64.of_Z (Z.of_nat i) * (stop / F64.of_Z (num - 1))
              + F64.zero)%f64.
Proof.
  intros Hv Hf H2 Hs. eexists. split; [now apply linspace_ge_2|].
  rewrite mul_one_r by assumption.
  assert (Hnth : forall i, (i < Z.to_nat num - 1)%nat ->
    nth_error (map (linspace_sample F64.zero stop num) (arange (num - 1))
               ++ [stop]) i
    = Some (F64.of_Z (Z.of_nat i) * (stop / F64.of_Z (num - 1))
            + F64.zero)%f64).
  { intros i Hi.
    rewrite nth_error_app1 by (rewrite length_map, arange_length; lia).
    rewrite nth_error_map, arange_nth_error by lia. cbn [option_map].
    now rewrite linspace_sample_from_zero. }
  split; [|split; [|split]].
  - rewrite length_app, length_map, arange_length. cbn [length]. lia.
  - rewrite hd_error_nth_error, Hnth by lia.
    change (F64.of_Z (Z.of_nat 0)) with F64.zero.
    destruct (stop / F64.of_Z (num - 1))%f64 as [z|z| |s m e];
      try discriminate Hs.
    destruct s; reflexivity.
  - apply last_last.
  - exact Hnth.
Qed.

(** C7, as the specification words it, fails on short horizons: for
    [max_time = 1/128] the grid [np.linspace(0, 1/128, 1)] is the single
    time [0.0], and does not end at the horizon. *)
Lemma time_grid_short_horizon :
  sample_count one_128th = Ok 1
  /\ time_grid one_128th = Ok [F64.zero]
  /\ (F64.zero == one_128th)%f64 = false.
Proof.
  repeat split; vm_compute; reflexivity.
Qed.

(** C7 (amended): every trajectory is the integrator's answer on one and
    the same time grid, so all have its length. A grid of two samples or
    more starts at [0.0], ends at the horizon, and its sample of index
    [i] before the last is [i] times the step [max_time / (n - 1)], a
    non-zero double. A grid of one sample is the single time [0.0],
    which is not the horizon, and a grid of no sample is empty. *)
Theorem time_grid_shared_evenly_spaced (R : random_state)
  (odeint : integrator) (jet : colormap) (N : Z)
  (angle max_time sigma beta rho : float) (g : rng R) (n : Z) :
  integrator_contract odeint ->
  0 <= N ->
  F64.valid max_time = true ->
  sample_count max_time = Ok n -> 0 <= n ->
  exists l g',
    solve_lorenz R odeint jet N angle max_time sigma beta rho g = (Ok l, g')
    /\ x_t l = map (fun x0i =>
                      odeint (fun s t0 => lorenz_deriv s t0 sigma beta rho)
                        x0i (t l)) (x0 l)
    /\ Forall (fun tr => length tr = length (t l)) (x_t l)
    /\ length (t l) = Z.to_nat n
    /\ (2 <= n ->
        hd_error (t l) = Some F64.zero
        /\ last (t l) F64.nan = max_time
        /\ F64.is_nonzero_finite (max_time / F64.of_Z (n - 1))%f64 = true
        /\ forall i, (i < Z.to_nat n - 1)%nat ->
             nth_error (t l) i
             = Some (F64.of_Z (Z.of_nat i) * (max_time / F64.of_Z (n - 1))
                     + F64.zero)%f64)
    /\ (n = 1 ->
        t l = [F64.zero] /\ (F64.zero == max_time)%f64 = false)
    /\ (n = 0 -> t l = []).
Proof.
  intros Hc HN Hv Hn H0.
  destruct (solve_lorenz_returns R odeint jet N angle max_time sigma beta
              rho g n HN Hn H0) as (tg & pos & Ht & Hl & Hp & Hlp & Hrun).
  eexists. eexists. split; [exact Hrun|]. cbn [t x_t x0].
  split; [reflexivity|].
  split; [now apply trajectories_on_grid|].
  split; [exact Hl|].
  split; [|split].
  - intros H2.
    pose proof (grid_step_nonzero max_time n Hv Hn H2) as Hs.
    pose proof (sample_count_finite max_time n Hn) as Hf.
    destruct (linspace_from_zero max_time n Hv Hf H2 Hs)
      as (tg' & Ht' & _ & Hh & Hlast & Hnth).
    unfold time_grid in Ht. rewrite Hn in Ht. cbn [result_bind] in Ht.
    rewrite Ht' in Ht. injection Ht as <-.
    repeat split; assumption.
  - intros ->.
    destruct (time_grid_single max_time Hv Hn) as [Ht1 Hne].
    rewrite Ht1 in Ht. injection Ht as <-. now split.
  - intros ->. now destruct tg.
Qed.

(** The notebook's first run: a horizon of [4.0], ten trajectories. *)
Lemma time_grid_default :
  exists l g',
    solve_lorenz numpy_random euler gray 10 F64.zero (F64.of_Z 4)
      sigma0 beta0 rho0 (MT19937.seed 0) = (Ok l, g')
    /\ x_t l = map (fun x0i =>
                      euler (fun s t0 => lorenz_deriv s t0 sigma0 beta0 rho0)
                        x0i (t l)) (x0 l)
    /\ Forall (fun tr => length tr = length (t l)) (x_t l)
    /\ length (t l) = Z.to_nat 1000
    /\ (2 <= 1000 ->
        hd_error (t l) = Some F64.zero
        /\ last (t l) F64.nan = F64.of_Z 4
        /\ F64.is_nonzero_finite (F64.of_Z 4 / F64.of_Z (1000 - 1))%f64 = true
        /\ forall i, (i < Z.to_nat 1000 - 1)%nat ->
             nth_error (t l) i
             = Some (F64.of_Z (Z.of_nat i) * (F64.of_Z 4 / F64.of_Z (1000 - 1))
                     + F64.zero)%f64)
    /\ (1000 = 1 ->
        t l = [F64.zero] /\ (F64.zero == F64.of_Z 4)%f64 = false)
    /\ (1000 = 0 -> t l = []).
Proof.
  apply (time_grid_shared_evenly_spaced numpy_random euler gray 10 F64.zero
           (F64.of_Z 4) sigma0 beta0 rho0 (MT19937.seed 0) 1000).
  - exact euler_contract.
  - lia.
  - vm_compute. reflexivity.
  - vm_compute. reflexivity.
  - lia.
Defined.

(** * Colours *)









(** Rounding moves a position by one unit in the last place here: of
    eleven trajectories, the fourth is drawn at the position
    [3 * (1/10)], the double [0.30000000000000004], not at [3/10]; both
    read the entry 76 of the table. *)
Lemma color_position_3_of_11_entry :
  lut_index (S754_finite false 5404319552844596 (-54)) = 76
  /\ lut_index (F64.div (F64.of_Z 3) (F64.of_Z 10)) = 76
  /\ exact_index 11 3 = 76.
Proof.
  repeat split; vm_compute; reflexivity.
Qed.





(** * Errors *)

(** X1: A negative number of trajectories is rejected, whatever the other
    parameters are (also a horizon that would be rejected itself): the
    run raises [ValueError] when it draws the initial conditions, and
    leaves the global generator reseeded. *)
Theorem solve_lorenz_negative_count (R : random_state) (odeint : integrator)
  (jet : colormap) (N : Z) (angle max_time sigma beta rho : float)
  (g : rng R) :
  N < 0 ->
  solve_lorenz R odeint jet N angle max_time sigma beta rho g
  = (Raise ValueError, rng_seed R 1).
Proof.
  intros HN. now apply solve_lorenz_neg_run.
Qed.

Lemma solve_lorenz_negative_count_nan :
  solve_lorenz numpy_random euler gray (-1) F64.zero F64.nan
    sigma0 beta0 rho0 (MT19937.seed 0)
  = (Raise ValueError, rng_seed numpy_random 1).
Proof.
  apply (solve_lorenz_negative_count numpy_random euler gray (-1)).
  lia.
Defined.

(** X2: With a number of trajectories that is not negative, the product
    [250*max_time] decides how a horizon is rejected: [int] raises
    [ValueError] when it is a NaN and [OverflowError] when it is
    infinite, and [np.linspace] raises [ValueError] when its integer
    part is negative. The initial conditions have been drawn by
    then. *)
Theorem solve_lorenz_raises (R : random_state) (odeint : integrator)
  (jet : colormap) (N : Z) (angle max_time sigma beta rho : float)
  (g : rng R) :
  0 <= N ->
  ((F64.of_Z 250 * max_time)%f64 = F64.nan ->
   solve_lorenz R odeint jet N angle max_time sigma beta rho g
   = (Raise ValueError, snd (seeded_rows R N)))
  /\ (forall s, (F64.of_Z 250 * max_time)%f64 = S754_infinity s ->
      solve_lorenz R odeint jet N angle max_time sigma beta rho g
      = (Raise OverflowError, snd (seeded_rows R N)))
  /\ (forall n, sample_count max_time = Ok n -> n < 0 ->
      solve_lorenz R odeint jet N angle max_time sigma beta rho g
      = (Raise ValueError, snd (seeded_rows R N))).
Proof.
  intros HN. split; [|split].
  - intros E. apply solve_lorenz_grid_raise; [exact HN|].
    apply time_grid_raise. unfold sample_count. rewrite E. reflexivity.
  - intros s E. apply solve_lorenz_grid_raise; [exact HN|].
    apply time_grid_raise. unfold sample_count. rewrite E. reflexivity.
  - intros n Hn L. apply solve_lorenz_grid_raise; [exact HN|].
    now apply (time_grid_negative max_time n).
Qed.

Lemma solve_lorenz_raises_minus_one :
  ((F64.of_Z 250 * F64.of_Z (-1))%f64 = F64.nan ->
   solve_lorenz numpy_random euler gray 10 F64.zero (F64.of_Z (-1))
     sigma0 beta0 rho0 (MT19937.seed 0)
   = (Raise ValueError, snd (seeded_rows numpy_random 10)))
  /\ (forall s, (F64.of_Z 250 * F64.of_Z (-1))%f64 = S754_infinity s ->
      solve_lorenz numpy_random euler gray 10 F64.zero (F64.of_Z (-1))
        sigma0 beta0 rho0 (MT19937.seed 0)
      = (Raise OverflowError, snd (seeded_rows numpy_random 10)))
  /\ (forall n, sample_count (F64.of_Z (-1)) = Ok n -> n < 0 ->
      solve_lorenz numpy_random euler gray 10 F64.zero (F64.of_Z (-1))
        sigma0 beta0 rho0 (MT19937.seed 0)
      = (Raise ValueError, snd (seeded_rows numpy_random 10))).
Proof.
  apply (solve_lorenz_raises numpy_random euler gray 10). lia.
Defined.


(** * Which horizons are accepted *)

Lemma minus_one_128th_eq :
  minus_one_128th = S754_finite true 4503599627370496 (-59).
Proof.
  vm_compute. reflexivity.
Qed.

Lemma nonneg_below_inv (max_time : float) :
  F64.valid max_time = true ->
  (F64.zero <=? max_time)%f64 = true ->
  (max_time <? two_pow_1015)%f64 = true ->
  (exists z, max_time = S754_zero z) \/
  exists m e, max_time = S754_finite false m e /\ canonical m e /\ e <= 962.
Proof.
  intros Hv Hl Hu. destruct max_time as [z|z| |s m e].
  - left. now exists z.
  - destruct z; discriminate.
  - discriminate.
  - right. destruct s; [discriminate|].
    exists m, e. split; [reflexivity|].
    apply bounded_canonical in Hv. split; [exact Hv|].
    unfold F64.ltb, SFltb, two_pow_1015, SFcompare in Hu.
    destruct (Z.compare_spec e 963) as [E|L|G]; [|lia|discriminate].
    exfalso. subst e. destruct Hv as [_ [Hd|[Hd _]]]; [|lia].
    pose proof (digits_ge_pow m 53 ltac:(lia)) as B.
    destruct (compare_cont_Eq_spec m 4503599627370496) as [E|L|G];
      try discriminate.
    change (2 ^ (53 - 1)) with 4503599627370496 in B. lia.
Qed.

Lemma at_most_minus_one_128th_inv (max_time : float) :
  F64.valid max_time = true ->
  (max_time <=? minus_one_128th)%f64 = true ->
  max_time = S754_infinity true \/
  exists m e, max_time = S754_finite true m e /\
              Z.pos (digits2_pos m) = 53 /\ -59 <= e.
Proof.
  intros Hv Hl. rewrite minus_one_128th_eq in Hl.
  destruct max_time as [z|z| |s m e].
  - discriminate.
  - destruct z; [now left|discriminate].
  - discriminate.
  - right. destruct s; [|discriminate].
    exists m, e. split; [reflexivity|].
    apply bounded_canonical in Hv.
    unfold F64.leb, SFleb, SFcompare in Hl.
    destruct (Z.compare_spec e (-59)) as [E|L|G]; [| discriminate|].
    + destruct Hv as [_ [Hd|[Hd _]]]; lia.
    + destruct Hv as [_ [Hd|[Hd _]]]; lia.
Qed.

(** X3: A horizon that is a NaN makes [int] raise [ValueError]; an infinite
    one, or a finite one of magnitude [2^1017] or more (a normal double
    of exponent [965] at least), makes it raise [OverflowError], the
    product [250*max_time] being infinite. The initial conditions have
    been drawn by then. *)
Theorem horizon_not_finite_or_huge (R : random_state) (odeint : integrator)
  (jet : colormap) (N : Z) (angle sigma beta rho : float) (g : rng R) :
  0 <= N ->
  solve_lorenz R odeint jet N angle F64.nan sigma beta rho g
  = (Raise ValueError, snd (seeded_rows R N))
  /\ (forall s,
        solve_lorenz R odeint jet N angle (S754_infinity s) sigma beta rho g
        = (Raise OverflowError, snd (seeded_rows R N)))
  /\ (forall s m e,
        Z.pos (digits2_pos m) = 53 -> 965 <= e ->
        solve_lorenz R odeint jet N angle (S754_finite s m e) sigma beta rho g
        = (Raise OverflowError, snd (seeded_rows R N))).
Proof.
  intros HN. split; [|split].
  - apply solve_lorenz_grid_raise; [exact HN|].
    apply time_grid_raise. unfold sample_count. rewrite of_Z_250. reflexivity.
  - intros s. apply solve_lorenz_grid_raise; [exact HN|].
    apply time_grid_raise. unfold sample_count. rewrite of_Z_250.
    reflexivity.
  - intros s m e Hd He. apply solve_lorenz_grid_raise; [exact HN|].
    apply time_grid_raise. unfold sample_count.
    destruct (mul_250_normal s m e Hd ltac:(lia)) as (m' & e' & _ & He' & E).
    rewrite E.
    replace (e' <=? 971) with false by (symmetry; apply Z.leb_gt; lia).
    reflexivity.
Qed.

Lemma horizon_not_finite_or_huge_default :
  solve_lorenz numpy_random euler gray 10 F64.zero F64.nan sigma0 beta0 rho0
    (MT19937.seed 0)
  = (Raise ValueError, snd (seeded_rows numpy_random 10))
  /\ (forall s,
        solve_lorenz numpy_random euler gray 10 F64.zero (S754_infinity s)
          sigma0 beta0 rho0 (MT19937.seed 0)
        = (Raise OverflowError, snd (seeded_rows numpy_random 10)))
  /\ (forall s m e,
        Z.pos (digits2_pos m) = 53 -> 965 <= e ->
        solve_lorenz numpy_random euler gray 10 F64.zero (S754_finite s m e)
          sigma0 beta0 rho0 (MT19937.seed 0)
        = (Raise OverflowError, snd (seeded_rows numpy_random 10))).
Proof.
  apply (horizon_not_finite_or_huge numpy_random euler gray 10). lia.
Defined.

(** X4: For every horizon from [0.0] up to, but excluding, [2^1015] the
    number of samples [int(250*max_time)] is defined and not negative:
    neither [int] nor the check [np.linspace] makes of the sign of its
    number of samples rejects the horizon. *)
Theorem horizon_sample_count_defined (max_time : float) :
  F64.valid max_time = true ->
  (F64.zero <=? max_time)%f64 = true ->
  (max_time <? two_pow_1015)%f64 = true ->
  exists n, sample_count max_time = Ok n /\ 0 <= n.
Proof.
  intros Hv Hl Hu.
  destruct (nonneg_below_inv max_time Hv Hl Hu)
    as [[z ->]|(m & e & -> & Hc & He)].
  - exists 0. split; [|lia]. unfold sample_count. rewrite of_Z_250.
    reflexivity.
  - unfold sample_count.
    destruct (mul_250_bounded false m e Hc He)
      as [[z E]|(m' & e' & E & _)]; rewrite E.
    + exists 0. split; [reflexivity|lia].
    + eexists. split; [reflexivity|].
      apply Z.shiftl_nonneg. lia.
Qed.

Lemma horizon_sample_count_defined_default :
  exists n, sample_count (F64.of_Z 4) = Ok n /\ 0 <= n.
Proof.
  apply (horizon_sample_count_defined (F64.of_Z 4)).
  - vm_compute. reflexivity.
  - vm_compute. reflexivity.
  - vm_compute. reflexivity.
Defined.


(** X5: A horizon of [0.0] or less never gives a time sample: a run that
    returns has an empty grid. From [-2^-7] downwards the run raises,
    [ValueError] for the negative number of samples or [OverflowError]
    when the product [250*max_time] is infinite. *)
Theorem horizon_not_positive (R : random_state) (odeint : integrator)
  (jet : colormap) (N : Z) (angle max_time sigma beta rho : float)
  (g : rng R) :
  0 <= N ->
  F64.valid max_time = true ->
  (max_time <=? F64.zero)%f64 = true ->
  (forall l g',
     solve_lorenz R odeint jet N angle max_time sigma beta rho g = (Ok l, g')
     -> t l = [])
  /\ ((max_time <=? minus_one_128th)%f64 = true ->
      exists e,
        solve_lorenz R odeint jet N angle max_time sigma beta rho g
        = (Raise e, snd (seeded_rows R N))
        /\ (e = ValueError \/ e = OverflowError)).
Proof.
  intros HN Hv Hl. split.
  - intros l g' Hrun.
    destruct (sample_count max_time) as [n|e] eqn:Hn.
    + assert (Hs : n <= 0).
      { pose proof (sample_count_sign max_time n Hv Hn) as S.
        destruct max_time as [z|z| |s m e]; cbn [F64.sign] in S.
        - unfold sample_count in Hn. rewrite of_Z_250 in Hn. cbn in Hn.
          injection Hn as <-. lia.
        - unfold sample_count in Hn. rewrite of_Z_250 in Hn.
          discriminate Hn.
        - discriminate Hl.
        - destruct s; [exact S|discriminate Hl]. }
      destruct (Z_lt_ge_dec n 0) as [L|G].
      * rewrite (solve_lorenz_grid_raise R odeint jet N angle max_time sigma
                   beta rho g ValueError HN
                   (time_grid_negative max_time n Hn L)) in Hrun.
        discriminate Hrun.
      * assert (n = 0) by lia. subst n.
        destruct (solve_lorenz_returns R odeint jet N angle max_time sigma
                    beta rho g 0 HN Hn ltac:(lia))
          as (tg & pos & Ht & Hlt & _ & _ & Hrun').
        cbv zeta in Hrun'. rewrite Hrun' in Hrun. injection Hrun as <- _.
        cbn [t]. now destruct tg.
    + rewrite (solve_lorenz_grid_raise R odeint jet N angle max_time sigma
                 beta rho g e HN (time_grid_raise max_time e Hn)) in Hrun.
      discriminate Hrun.
  - intros Hm.
    destruct (at_most_minus_one_128th_inv max_time Hv Hm)
      as [->|(m & e & -> & Hd & He)].
    + exists OverflowError. split; [|now right].
      apply solve_lorenz_grid_raise; [exact HN|].
      apply time_grid_raise. unfold sample_count. rewrite of_Z_250.
      reflexivity.
    + destruct (mul_250_normal true m e Hd ltac:(lia))
        as (m' & e' & Hd' & He' & E).
      destruct (Z.leb_spec e' 971) as [Le|Gt].
      * exists ValueError. split; [|now left].
        apply solve_lorenz_grid_raise; [exact HN|].
        apply (time_grid_negative _ (- Z.shiftl (Z.pos m') e')).
        -- unfold sample_count. rewrite E. reflexivity.
        -- assert (1 <= Z.shiftl (Z.pos m') e'); [|lia].
           pose proof (digits_ge_pow m' 53 ltac:(lia)) as B.
           change (2 ^ (53 - 1)) with 4503599627370496 in B.
           destruct (Z_le_gt_dec 0 e') as [P|Q].
           ++ rewrite Z.shiftl_mul_pow2 by lia.
              assert (0 < 2 ^ e') by (apply Z.pow_pos_nonneg; lia). nia.
           ++ rewrite Z.shiftl_div_pow2 by lia.
              apply Z.div_le_lower_bound.
              ** apply Z.pow_pos_nonneg; lia.
              ** assert (2 ^ (- e') <= 2 ^ 52)
                   by (apply Z.pow_le_mono_r; lia).
                 change (2 ^ 52) with 4503599627370496 in *. lia.
      * exists OverflowError. split; [|now right].
        apply solve_lorenz_grid_raise; [exact HN|].
        apply time_grid_raise. unfold sample_count. rewrite E. reflexivity.
Qed.

Lemma horizon_not_positive_minus_one :
  (forall l g',
     solve_lorenz numpy_random euler gray 10 F64.zero (F64.of_Z (-1))
       sigma0 beta0 rho0 (MT19937.seed 0) = (Ok l, g')
     -> t l = [])
  /\ ((F64.of_Z (-1) <=? minus_one_128th)%f64 = true ->
      exists e,
        solve_lorenz numpy_random euler gray 10 F64.zero (F64.of_Z (-1))
          sigma0 beta0 rho0 (MT19937.seed 0)
        = (Raise e, snd (seeded_rows numpy_random 10))
        /\ (e = ValueError \/ e = OverflowError)).
Proof.
  apply (horizon_not_positive numpy_random euler gray 10 F64.zero
           (F64.of_Z (-1)) sigma0 beta0 rho0 (MT19937.seed 0)).
  - lia.
  - vm_compute. reflexivity.
  - vm_compute. reflexivity.
Defined.

(** * Whole horizons *)

(** A number [c * 2^j] that fits the format is not changed by rounding:
    the mantissa [c] is only shifted to 53 digits. *)
Lemma round_aux_exact (s : bool) (M c : positive) (j E : Z) :
  0 <= j -> Z.pos M = Z.pos c * 2 ^ j ->
  Z.pos (digits2_pos c) <= 53 ->
  53 <= Z.pos (digits2_pos c) + j ->
  -1074 <= Z.pos (digits2_pos c) + j + E - 53 <= 971 ->
  exists m,
    Z.pos m = Z.pos c * 2 ^ (53 - Z.pos (digits2_pos c)) /\
    binary_round_aux 53 1024 s (Z.pos M) E loc_Exact
    = S754_finite s m (Z.pos (digits2_pos c) + j + E - 53).
Proof.
  intros Hj HM Hd Hdj He.
  pose proof (digits_shift c M j Hj HM) as HdM.
  set (D := Z.pos (digits2_pos c)) in *.
  assert (HD : 0 < D) by (unfold D; lia).
  rewrite binary_round_aux_finish by (rewrite fexp64_eq; lia).
  rewrite fexp64_eq, HdM.
  replace (Z.max (D + j + E - 53) (-1074)) with (D + j + E - 53) by lia.
  replace (D + j + E - 53 - E) with (D + j - 53) by lia.
  assert (Hsplit : Z.pos M = (Z.pos c * 2 ^ (53 - D)) * 2 ^ (D + j - 53)).
  { rewrite HM, <- Z.mul_assoc, <- Z.pow_add_r by lia.
    do 2 f_equal. lia. }
  assert (HP : 0 < 2 ^ (D + j - 53)) by (apply Z.pow_pos_nonneg; lia).
  assert (HQ : 0 < 2 ^ (53 - D)) by (apply Z.pow_pos_nonneg; lia).
  rewrite round_shift_down.
  2:{ rewrite Hsplit, Z.mod_mul by lia. lia. }
  rewrite Hsplit, Z.div_mul by lia.
  assert (Hpos : 0 < Z.pos c * 2 ^ (53 - D)) by lia.
  destruct (Z.pos c * 2 ^ (53 - D)) as [|m|m] eqn:Em; try lia.
  exists m. split; [reflexivity|].
  rewrite finish_small.
  - replace (D + j + E - 53 <=? 971) with true
      by (symmetry; apply Z.leb_le; lia).
    reflexivity.
  - lia.
  - rewrite <- Em.
    pose proof (digits_lt_pow c D ltac:(unfold D; lia)) as B.
    replace 53 with (D + (53 - D)) at 2 by lia.
    rewrite Z.pow_add_r by lia. nia.
Qed.

(** A positive integer of at most 53 bits converts exactly. *)
Lemma of_Z_exact (k : positive) :
  Z.pos (digits2_pos k) <= 53 ->
  exists m,
    Z.pos m = Z.pos k * 2 ^ (53 - Z.pos (digits2_pos k)) /\
    F64.of_Z (Z.pos k) = S754_finite false m (Z.pos (digits2_pos k) - 53).
Proof.
  intros Hd. unfold F64.of_Z, binary_normalize, binary_round.
  change F64.prec with 53. change F64.emax with 1024.
  set (d := Z.pos (digits2_pos k)) in *.
  assert (Hd0 : 0 < d) by (unfold d; lia).
  replace (fexp 53 1024 (d + 0)) with (d - 53)
    by (rewrite fexp64_eq; lia).
  destruct (shl_align_le k 0 (d - 53) ltac:(lia)) as [Hm He].
  destruct (shl_align k 0 (d - 53)) as [mz ez]. cbn [fst snd] in Hm, He.
  subst ez.
  replace (0 - (d - 53)) with (53 - d) in Hm by lia.
  destruct (round_aux_exact false mz k (53 - d) (d - 53) ltac:(lia) Hm
              ltac:(fold d; lia) ltac:(fold d; lia) ltac:(fold d; lia))
    as (m & Em & E).
  exists m. split; [exact Em|]. rewrite E. fold d. f_equal. lia.
Qed.

Lemma sample_count_whole (k : positive) :
  250 * Z.pos k < 2 ^ 53 ->
  sample_count (F64.of_Z (Z.pos k)) = Ok (250 * Z.pos k).
Proof.
  intros Hk.
  assert (Hdk : Z.pos (digits2_pos k) <= 53).
  { apply digits_le_of_lt. lia. }
  destruct (of_Z_exact k Hdk) as (mz & Hmz & Ek).
  unfold sample_count. rewrite Ek, of_Z_250.
  unfold F64.mul, SFmul. change F64.prec with 53. change F64.emax with 1024.
  cbn [xorb].
  set (d := Z.pos (digits2_pos k)) in *.
  set (c := (250 * k)%positive).
  assert (Hc : Z.pos c = 250 * Z.pos k) by reflexivity.
  assert (HdcU : Z.pos (digits2_pos c) <= 53).
  { apply digits_le_of_lt. lia. }
  assert (HdcL : d <= Z.pos (digits2_pos c)).
  { pose proof (digits2_pos_bounds k) as [Bk _]. fold d in Bk.
    pose proof (digits2_pos_bounds c) as [_ Bc].
    destruct (Z_le_gt_dec d (Z.pos (digits2_pos c))) as [L|G]; [exact L|].
    exfalso.
    assert (2 ^ Z.pos (digits2_pos c) <= 2 ^ (d - 1))
      by (apply Z.pow_le_mono_r; lia).
    lia. }
  assert (Hd0 : 0 < d) by (unfold d; lia).
  assert (HM : Z.pos (8796093022208000 * mz) = Z.pos c * 2 ^ (98 - d)).
  { rewrite Pos2Z.inj_mul, Hmz, Hc.
    replace (98 - d) with (45 + (53 - d)) by lia.
    rewrite Z.pow_add_r by lia.
    change (2 ^ 45) with 35184372088832. lia. }
  destruct (round_aux_exact false (8796093022208000 * mz) c (98 - d)
              (-45 + (d - 53)) ltac:(lia) HM HdcU ltac:(lia) ltac:(lia))
    as (m & Em & E).
  rewrite E. cbn [int_of_float cond_Zopp]. f_equal.
  set (D := Z.pos (digits2_pos c)) in *.
  replace (D + (98 - d) + (-45 + (d - 53)) - 53) with (- (53 - D)) by lia.
  rewrite Z.shiftl_div_pow2 by lia.
  rewrite Z.opp_involutive, Em, Z.div_mul.
  - exact Hc.
  - apply Z.pow_nonzero; lia.
Qed.

(** X6: For a whole number of time units the number of samples is exactly
    [250] times the horizon: with [max_time = k] (and [250 * k] below
    [2^53]) the time grid has [250 * k] samples. *)
Theorem whole_horizon_sample_count (k : Z) :
  0 <= k -> 250 * k < 2 ^ 53 ->
  sample_count (F64.of_Z k) = Ok (250 * k)
  /\ exists tg,
       time_grid (F64.of_Z k) = Ok tg /\ length tg = Z.to_nat (250 * k).
Proof.
  intros H0 Hk.
  assert (Hn : sample_count (F64.of_Z k) = Ok (250 * k)).
  { destruct k as [|p|p]; [|now apply sample_count_whole|lia].
    vm_compute. reflexivity. }
  split; [exact Hn|].
  apply time_grid_ok; [exact Hn|lia].
Qed.

Lemma whole_horizon_sample_count_4 :
  sample_count (F64.of_Z 4) = Ok (250 * 4)
  /\ exists tg,
       time_grid (F64.of_Z 4) = Ok tg /\ length tg = Z.to_nat (250 * 4).
Proof.
  apply (whole_horizon_sample_count 4); [lia|].
  vm_compute. reflexivity.
Defined.

(** * The global generator and the order of the draws *)

Lemma advance_add (R : random_state) (a b : nat) (g : rng R) :
  advance R (a + b) g = advance R b (advance R a g).
Proof.
  unfold advance. rewrite Nat.add_comm. apply Nat.iter_add.
Qed.

Lemma advance_succ_l (R : random_state) (k : nat) (g : rng R) :
  advance R (S k) g = advance R k (snd (rng_double R g)).
Proof.
  change (S k) with (1 + k)%nat. now rewrite advance_add.
Qed.

Lemma draw_succ_l (R : random_state) (k : nat) (g : rng R) :
  draw R (S k) g = draw R k (snd (rng_double R g)).
Proof.
  unfold draw. now rewrite advance_succ_l.
Qed.

Lemma random_row_draws (R : random_state) (g : rng R) :
  random_row R g = ((draw R 0 g, draw R 1 g, draw R 2 g), advance R 3 g).
Proof.
  unfold random_row, draw, advance. cbv [Nat.iter nat_rect].
  destruct (rng_double R g) as [a g1]. cbn [fst snd].
  destruct (rng_double R g1) as [b g2]. cbn [fst snd].
  destruct (rng_double R g2) as [c g3]. reflexivity.
Qed.

(** Drawing [n] rows takes [3 * n] doubles. *)
Lemma random_rows_advance (R : random_state) (n : nat) :
  forall g, snd (random_rows R n g) = advance R (3 * n) g.
Proof.
  induction n as [|n IH]; intros g.
  - reflexivity.
  - cbn [random_rows]. rewrite random_row_draws.
    specialize (IH (advance R 3 g)).
    destruct (random_rows R n (advance R 3 g)) as [rs g2].
    cbn [snd] in *. rewrite IH.
    replace (3 * S n)%nat with (3 + 3 * n)%nat by lia.
    now rewrite advance_add.
Qed.

(** The rows are filled in order: row [i] holds the draws [3*i],
    [3*i + 1] and [3*i + 2]. *)
Lemma random_rows_nth (R : random_state) (n : nat) :
  forall g i, (i < n)%nat ->
  nth_error (fst (random_rows R n g)) i
  = Some (draw R (3 * i) g, draw R (3 * i + 1) g, draw R (3 * i + 2) g).
Proof.
  induction n as [|n IH]; intros g i Hi; [lia|].
  cbn [random_rows]. rewrite random_row_draws.
  specialize (IH (advance R 3 g)).
  destruct (random_rows R n (advance R 3 g)) as [rs g2]. cbn [fst] in *.
  destruct i as [|i].
  - reflexivity.
  - cbn [nth_error]. rewrite IH by lia.
    assert (E : forall k, draw R k (advance R 3 g) = draw R (3 + k) g).
    { intros k. unfold draw. now rewrite (advance_add R 3 k). }
    rewrite !E.
    replace (3 + 3 * i)%nat with (3 * S i)%nat by lia.
    replace (3 + (3 * i + 1))%nat with (3 * S i + 1)%nat by lia.
    replace (3 + (3 * i + 2))%nat with (3 * S i + 2)%nat by lia.
    reflexivity.
Qed.

(** Asking for more rows leaves the first ones as they were. *)
Lemma random_rows_firstn (R : random_state) (n : nat) :
  forall g k,
  firstn n (fst (random_rows R (n + k) g)) = fst (random_rows R n g).
Proof.
  induction n as [|n IH]; intros g k.
  - reflexivity.
  - cbn [Nat.add random_rows].
    destruct (random_row R g) as [r g1].
    specialize (IH g1 k).
    destruct (random_rows R (n + k) g1) as [rs g2].
    destruct (random_rows R n g1) as [rs' g2'].
    cbn [fst firstn] in *. now rewrite IH.
Qed.

Lemma seeded_rows_advance (R : random_state) (N : Z) :
  snd (seeded_rows R N) = advance R (3 * Z.to_nat N) (rng_seed R 1).
Proof.
  unfold seeded_rows. apply random_rows_advance.
Qed.


(** X8: The array of initial conditions is filled row by row from the
    stream of doubles that follows [np.random.seed(1)]: the point of
    index [i] is made of the draws [3*i], [3*i + 1] and [3*i + 2], each
    scaled by [-15 + 30 * u]. *)
Theorem initial_conditions_row_major (R : random_state) (N : Z)
  (g : rng R) :
  0 <= N ->
  exists xs,
    initial_conditions R N g
    = (Ok xs, advance R (3 * Z.to_nat N) (rng_seed R 1))
    /\ length xs = Z.to_nat N
    /\ forall i, (i < Z.to_nat N)%nat ->
         nth_error xs i
         = Some (scale (draw R (3 * i) (rng_seed R 1)),
                 scale (draw R (3 * i + 1) (rng_seed R 1)),
                 scale (draw R (3 * i + 2) (rng_seed R 1))).
Proof.
  intros HN. rewrite initial_conditions_run.
  replace (N <? 0) with false by (symmetry; apply Z.ltb_ge; lia).
  rewrite seeded_rows_advance.
  eexists. split; [reflexivity|]. split.
  - rewrite length_map. apply random_rows_length.
  - intros i Hi. rewrite nth_error_map. unfold seeded_rows.
    rewrite random_rows_nth by exact Hi. reflexivity.
Qed.

Lemma initial_conditions_row_major_numpy_10 :
  exists xs,
    initial_conditions numpy_random 10 (MT19937.seed 0)
    = (Ok xs, advance numpy_random (3 * Z.to_nat 10) (rng_seed numpy_random 1))
    /\ length xs = Z.to_nat 10
    /\ forall i, (i < Z.to_nat 10)%nat ->
         nth_error xs i
         = Some (scale (draw numpy_random (3 * i) (rng_seed numpy_random 1)),
                 scale (draw numpy_random (3 * i + 1) (rng_seed numpy_random 1)),
                 scale (draw numpy_random (3 * i + 2) (rng_seed numpy_random 1))).
Proof.
  apply (initial_conditions_row_major numpy_random 10). lia.
Defined.

Lemma seeded_rows_firstn (R : random_state) (N M : Z) :
  0 <= N <= M ->
  firstn (Z.to_nat N) (fst (seeded_rows R M)) = fst (seeded_rows R N).
Proof.
  intros H. unfold seeded_rows.
  replace (Z.to_nat M) with (Z.to_nat N + (Z.to_nat M - Z.to_nat N))%nat
    by lia.
  apply random_rows_firstn.
Qed.

(** X9: Asking for more trajectories keeps the ones there were: with the
    same horizon and coefficients, the initial conditions and the
    trajectories of a run with [N] trajectories are the first [N] of a
    run with [M >= N], on the same time grid. *)
Theorem more_trajectories_keep_the_first (R : random_state)
  (odeint : integrator) (jet : colormap) (N M : Z)
  (angle angle' max_time sigma beta rho : float) (g g' : rng R) (n : Z) :
  0 <= N <= M -> sample_count max_time = Ok n -> 0 <= n ->
  exists l gl l' gl',
    solve_lorenz R odeint jet N angle max_time sigma beta rho g = (Ok l, gl)
    /\ solve_lorenz R odeint jet M angle' max_time sigma beta rho g'
       = (Ok l', gl')
    /\ x0 l = firstn (Z.to_nat N) (x0 l')
    /\ t l = t l'
    /\ x_t l = firstn (Z.to_nat N) (x_t l').
Proof.
  intros HNM Hn H0.
  destruct (solve_lorenz_returns R odeint jet N angle max_time sigma beta
              rho g n ltac:(lia) Hn H0)
    as (tg & pos & Ht & _ & _ & _ & Hrun).
  destruct (solve_lorenz_returns R odeint jet M angle' max_time sigma beta
              rho g' n ltac:(lia) Hn H0)
    as (tg' & pos' & Ht' & _ & _ & _ & Hrun').
  cbv zeta in Hrun, Hrun'.
  rewrite Ht in Ht'. injection Ht' as <-.
  eexists. eexists. eexists. eexists.
  split; [exact Hrun|]. split; [exact Hrun'|].
  cbn [x0 t x_t]. unfold trajectories.
  rewrite <- (seeded_rows_firstn R N M HNM), !firstn_map.
  repeat split; reflexivity.
Qed.

Lemma more_trajectories_keep_the_first_default :
  exists l gl l' gl',
    solve_lorenz numpy_random euler gray 10 F64.zero (F64.of_Z 4)
      sigma0 beta0 rho0 (MT19937.seed 0) = (Ok l, gl)
    /\ solve_lorenz numpy_random euler gray 11 F64.zero (F64.of_Z 4)
         sigma0 beta0 rho0 (MT19937.seed 0) = (Ok l', gl')
    /\ x0 l = firstn (Z.to_nat 10) (x0 l')
    /\ t l = t l'
    /\ x_t l = firstn (Z.to_nat 10) (x_t l').
Proof.
  apply (more_trajectories_keep_the_first numpy_random euler gray 10 11
           F64.zero F64.zero (F64.of_Z 4) sigma0 beta0 rho0
           (MT19937.seed 0) (MT19937.seed 0) 1000).
  - lia.
  - vm_compute. reflexivity.
  - lia.
Defined.

(** * What the parameters reach, and what is drawn *)

(** What a run gives when the number of trajectories is not negative. *)
Lemma solve_lorenz_outcome (R : random_state) (odeint : integrator)
  (jet : colormap) (N : Z) :
  0 <= N ->
  exists pos,
    color_positions N = Ok pos /\ length pos = Z.to_nat N /\
    forall (angle max_time sigma beta rho : float) (g : rng R),
      solve_lorenz R odeint jet N angle max_time sigma beta rho g
      = (match time_grid max_time with
         | Raise e => Raise e
         | Ok tg =>
             let xs := map scale_row (fst (seeded_rows R N)) in
             let xt := trajectories odeint sigma beta rho xs tg in
             Ok {| x0 := xs; t := tg; x_t := xt; colors := map jet pos;
                   fig := {| xlim := (-25, 25); ylim := (-35, 35);
                             zlim := (5, 55);
                             lines := map (fun p => line_of (fst p) (snd p))
                                        (combine xt (map jet pos));
                             view := (30, angle) |} |}
         end, snd (seeded_rows R N)).
Proof.
  intros HN.
  destruct (linspace_ok F64.zero F64.one N HN) as (pos & Hp & Hlp).
  exists pos. split; [exact Hp|]. split; [exact Hlp|].
  intros angle max_time sigma beta rho g.
  destruct (time_grid max_time) as [tg|e] eqn:Ht.
  - now apply solve_lorenz_run.
  - now apply solve_lorenz_grid_raise.
Qed.

Lemma map_fst_combine {A B : Type} (a : list A) :
  forall b : list B, length a = length b -> map fst (combine a b) = a.
Proof.
  induction a as [|x a IH]; intros [|y b] H; try discriminate H.
  - reflexivity.
  - cbn. f_equal. apply IH. now injection H.
Qed.

Lemma map_snd_combine {A B : Type} (a : list A) :
  forall b : list B, length a = length b -> map snd (combine a b) = b.
Proof.
  induction a as [|x a IH]; intros [|y b] H; try discriminate H.
  - reflexivity.
  - cbn. f_equal. apply IH. now injection H.
Qed.

Lemma line_points_line_of (tr : list state) (c : rgba) :
  line_points (line_of tr c) = tr.
Proof.
  unfold line_points, line_of, transpose. cbn [line_x line_y line_z].
  induction tr as [|[[x y] z] tr IH]; [reflexivity|].
  cbn [map combine fst snd]. now rewrite IH.
Qed.

Lemma line_c_line_of (tr : list state) (c : rgba) :
  line_c (line_of tr c) = c.
Proof.
  reflexivity.
Qed.

Lemma lines_points (xt : list (list state)) (cs : list rgba) :
  length xt = length cs ->
  map line_points (map (fun p => line_of (fst p) (snd p)) (combine xt cs))
  = xt.
Proof.
  intros H. rewrite map_map.
  rewrite (map_ext _ fst) by (intros [tr c]; apply line_points_line_of).
  now apply map_fst_combine.
Qed.

Lemma lines_colors (xt : list (list state)) (cs : list rgba) :
  length xt = length cs ->
  map line_c (map (fun p => line_of (fst p) (snd p)) (combine xt cs))
  = cs.
Proof.
  intros H. rewrite map_map.
  rewrite (map_ext _ snd) by (intros [tr c]; reflexivity).
  now apply map_snd_combine.
Qed.

Lemma trajectories_colors_length (R : random_state) (odeint : integrator)
  (jet : colormap) (N : Z) (sigma beta rho : float) (tg pos : list float) :
  length pos = Z.to_nat N ->
  length (trajectories odeint sigma beta rho
            (map scale_row (fst (seeded_rows R N))) tg)
  = length (map jet pos).
Proof.
  intros H. rewrite trajectories_length, !length_map. unfold seeded_rows.
  now rewrite random_rows_length.
Qed.

(** X10: The angle turns the camera and nothing else: a run with another
    angle raises the same exception, or returns the same initial
    conditions, time grid, trajectories, colours, bounding box and
    lines, and leaves the generator in the same state. *)
Theorem angle_only_turns_the_camera (R : random_state) (odeint : integrator)
  (jet : colormap) (N : Z) (angle angle' max_time sigma beta rho : float)
  (g : rng R) :
  solve_lorenz R odeint jet N angle' max_time sigma beta rho g
  = (result_map (with_azimuth angle')
       (fst (solve_lorenz R odeint jet N angle max_time sigma beta rho g)),
     snd (solve_lorenz R odeint jet N angle max_time sigma beta rho g)).
Proof.
  destruct (Z_lt_ge_dec N 0) as [L|G].
  - rewrite !solve_lorenz_neg_run by exact L. reflexivity.
  - destruct (solve_lorenz_outcome R odeint jet N ltac:(lia))
      as (pos & _ & _ & Hrun).
    rewrite !Hrun. destruct (time_grid max_time); reflexivity.
Qed.

(** X11: The coefficients reach the figure through the integrated
    coordinates only: runs that differ in [sigma], [beta] and [rho]
    raise the same exception, or agree on the initial conditions, the
    time grid, the colours, the bounding box, the camera and the colour
    of every line, and leave the generator in the same state. *)
Theorem coefficients_only_move_the_lines (R : random_state)
  (odeint : integrator) (jet : colormap) (N : Z)
  (angle max_time sigma beta rho sigma' beta' rho' : float) (g : rng R) :
  result_map surroundings
    (fst (solve_lorenz R odeint jet N angle max_time sigma beta rho g))
  = result_map surroundings
      (fst (solve_lorenz R odeint jet N angle max_time sigma' beta' rho' g))
  /\ snd (solve_lorenz R odeint jet N angle max_time sigma beta rho g)
     = snd (solve_lorenz R odeint jet N angle max_time sigma' beta' rho' g).
Proof.
  destruct (Z_lt_ge_dec N 0) as [L|G].
  - rewrite !solve_lorenz_neg_run by exact L. now split.
  - destruct (solve_lorenz_outcome R odeint jet N ltac:(lia))
      as (pos & _ & Hlp & Hrun).
    rewrite !Hrun. split; [|reflexivity].
    destruct (time_grid max_time) as [tg|e]; [|reflexivity].
    cbv zeta. cbn [fst result_map result_bind]. unfold surroundings.
    cbn [x0 t colors fig xlim ylim zlim view lines].
    rewrite !lines_colors
      by (now apply (trajectories_colors_length R odeint jet N)).
    reflexivity.
Qed.

Lemma trajectories_heads (odeint : integrator) (sigma beta rho : float)
  (xs : list state) (tg : list float) :
  integrator_contract odeint -> tg <> [] ->
  Forall2 (fun tr x0i => hd_error tr = Some x0i)
    (trajectories odeint sigma beta rho xs tg) xs.
Proof.
  intros Hc Ht. unfold trajectories.
  induction xs as [|x0i xs IH]; cbn [map]; constructor; [|exact IH].
  now apply Hc.
Qed.

(** X12: The plotted lines are the trajectories: putting the three
    coordinate arrays of line [i] side by side again gives the samples
    of trajectory [i], none lost and none moved; its colour is
    [colors[i]]; and each coordinate array has one entry for each time
    of the grid. *)
Theorem lines_are_the_trajectories (R : random_state) (odeint : integrator)
  (jet : colormap) (N : Z) (angle max_time sigma beta rho : float)
  (g : rng R) (n : Z) :
  integrator_contract odeint ->
  0 <= N -> sample_count max_time = Ok n -> 0 <= n ->
  exists l g',
    solve_lorenz R odeint jet N angle max_time sigma beta rho g = (Ok l, g')
    /\ map line_points (lines (fig l)) = x_t l
    /\ map line_c (lines (fig l)) = colors l
    /\ Forall (fun ln => length (line_x ln) = Z.to_nat n /\
                         length (line_y ln) = Z.to_nat n /\
                         length (line_z ln) = Z.to_nat n) (lines (fig l)).
Proof.
  intros Hc HN Hn H0.
  destruct (solve_lorenz_returns R odeint jet N angle max_time sigma beta
              rho g n HN Hn H0) as (tg & pos & Ht & Hl & Hp & Hlp & Hrun).
  cbv zeta in Hrun. eexists. eexists. split; [exact Hrun|].
  cbn [fig lines x_t colors].
  pose proof (trajectories_colors_length R odeint jet N sigma beta rho tg pos
                Hlp) as Hlen.
  split; [now apply lines_points|]. split; [now apply lines_colors|].
  apply Forall_map, Forall_forall. intros [tr c] Hin.
  apply in_combine_l in Hin. cbn [fst snd].
  assert (Htr : length tr = Z.to_nat n).
  { pose proof (trajectories_on_grid odeint sigma beta rho
                  (map scale_row (fst (seeded_rows R N))) tg Hc) as F.
    rewrite Forall_forall in F. rewrite (F tr Hin). exact Hl. }
  unfold line_of, transpose. cbn [line_x line_y line_z].
  rewrite !length_map. repeat split; exact Htr.
Qed.

Lemma lines_are_the_trajectories_default :
  exists l g',
    solve_lorenz numpy_random euler gray 10 F64.zero (F64.of_Z 4)
      sigma0 beta0 rho0 (MT19937.seed 0) = (Ok l, g')
    /\ map line_points (lines (fig l)) = x_t l
    /\ map line_c (lines (fig l)) = colors l
    /\ Forall (fun ln => length (line_x ln) = Z.to_nat 1000 /\
                         length (line_y ln) = Z.to_nat 1000 /\
                         length (line_z ln) = Z.to_nat 1000) (lines (fig l)).
Proof.
  apply (lines_are_the_trajectories numpy_random euler gray 10 F64.zero
           (F64.of_Z 4) sigma0 beta0 rho0 (MT19937.seed 0) 1000).
  - exact euler_contract.
  - lia.
  - vm_compute. reflexivity.
  - lia.
Defined.

Lemma Forall2_map_left {A B C : Type} (f : A -> B) (P : B -> C -> Prop)
  (l : list A) :
  forall xs, Forall2 P (map f l) xs -> Forall2 (fun a x => P (f a) x) l xs.
Proof.
  induction l as [|a l IH]; intros xs H; inversion H; subst; constructor;
    [assumption|now apply IH].
Qed.

(** X13: When the time grid has a sample at all, every trajectory starts at
    its initial condition, and so does the line drawn for it: a point
    of the cube [[-15, 15)^3]. *)
Theorem trajectories_start_at_initial_conditions (R : random_state)
  (odeint : integrator) (jet : colormap) (N : Z)
  (angle max_time sigma beta rho : float) (g : rng R) (n : Z) :
  integrator_contract odeint -> draws_in_unit_interval R ->
  0 <= N -> sample_count max_time = Ok n -> 1 <= n ->
  exists l g',
    solve_lorenz R odeint jet N angle max_time sigma beta rho g = (Ok l, g')
    /\ Forall2 (fun tr x0i => hd_error tr = Some x0i) (x_t l) (x0 l)
    /\ Forall2 (fun ln x0i => hd_error (line_points ln) = Some x0i)
         (lines (fig l)) (x0 l)
    /\ Forall (fun x0i => in_half_open_cube x0i = true) (x0 l).
Proof.
  intros Hc HR HN Hn H1.
  destruct (solve_lorenz_returns R odeint jet N angle max_time sigma beta
              rho g n HN Hn ltac:(lia))
    as (tg & pos & Ht & Hl & Hp & Hlp & Hrun).
  cbv zeta in Hrun. eexists. eexists. split; [exact Hrun|].
  cbn [fig lines x_t x0].
  assert (Hne : tg <> []).
  { intros ->. cbn in Hl. lia. }
  pose proof (trajectories_heads odeint sigma beta rho
                (map scale_row (fst (seeded_rows R N))) tg Hc Hne) as Hh.
  split; [exact Hh|]. split.
  - pose proof (lines_points _ _
                  (trajectories_colors_length R odeint jet N sigma beta rho
                     tg pos Hlp)) as E.
    rewrite <- E in Hh.
    now apply Forall2_map_left in Hh.
  - now apply seeded_rows_half_open.
Qed.

Lemma trajectories_start_at_initial_conditions_default :
  exists l g',
    solve_lorenz numpy_random euler gray 10 F64.zero (F64.of_Z 4)
      sigma0 beta0 rho0 (MT19937.seed 0) = (Ok l, g')
    /\ Forall2 (fun tr x0i => hd_error tr = Some x0i) (x_t l) (x0 l)
    /\ Forall2 (fun ln x0i => hd_error (line_points ln) = Some x0i)
         (lines (fig l)) (x0 l)
    /\ Forall (fun x0i => in_half_open_cube x0i = true) (x0 l).
Proof.
  apply (trajectories_start_at_initial_conditions numpy_random euler gray 10
           F64.zero (F64.of_Z 4) sigma0 beta0 rho0 (MT19937.seed 0) 1000).
  - exact euler_contract.
  - exact numpy_random_unit_interval.
  - lia.
  - vm_compute. reflexivity.
  - lia.
Defined.

(** * Symmetries of the vector field *)

Lemma same_number_refl (x : float) : same_number x x = true.
Proof.
  destruct x as [s|s| |s m e]; cbn; try reflexivity.
  - apply eqb_reflx.
  - now rewrite eqb_reflx, Pos.eqb_refl, Z.eqb_refl.
Qed.

Lemma same_number_spec (x y : float) :
  same_number x y = true <->
  x = y \/ (is_zero x = true /\ is_zero y = true).
Proof.
  split.
  - destruct x as [s|s| |s m e], y as [s'|s'| |s' m' e']; cbn;
      try discriminate; intros H.
    + right. now split.
    + left. apply eqb_prop in H. now subst.
    + now left.
    + left. apply andb_true_iff in H. destruct H as [H He].
      apply andb_true_iff in H. destruct H as [Hs Hm].
      apply eqb_prop in Hs. apply Pos.eqb_eq in Hm. apply Z.eqb_eq in He.
      now subst.
  - intros [->|[Hx Hy]]; [apply same_number_refl|].
    destruct x, y; try discriminate; reflexivity.
Qed.

Lemma binary_round_aux_opp (s : bool) (m e : Z) (l : location) :
  binary_round_aux 53 1024 (negb s) m e l
  = SFopp (binary_round_aux 53 1024 s m e l).
Proof.
  unfold binary_round_aux.
  destruct (shr_fexp 53 1024 m e l) as [mrs e'].
  destruct (shr_fexp 53 1024 _ e' loc_Exact) as [mrs' e''].
  destruct (shr_m mrs') as [|p|p]; [reflexivity| |reflexivity].
  destruct (e'' <=? 1024 - 53); reflexivity.
Qed.

Lemma binary_round_opp (s : bool) (m : positive) (e : Z) :
  binary_round 53 1024 (negb s) m e = SFopp (binary_round 53 1024 s m e).
Proof.
  unfold binary_round.
  destruct (shl_align m e _) as [mz ez]. apply binary_round_aux_opp.
Qed.

(** [(-x) * y = -(x * y)], bit for bit. *)
Lemma mul_neg_l (x y : float) : (neg x * y)%f64 = neg (x * y)%f64.
Proof.
  unfold neg, F64.mul.
  destruct x as [sx|sx| |sx mx ex], y as [sy|sy| |sy my ey];
    cbn [SFopp SFmul]; try reflexivity;
    try (destruct sx, sy; reflexivity).
  replace (xorb (negb sx) sy) with (negb (xorb sx sy))
    by (destruct sx, sy; reflexivity).
  apply binary_round_aux_opp.
Qed.

Lemma mul_neg_r (x y : float) : (x * neg y)%f64 = neg (x * y)%f64.
Proof.
  unfold neg, F64.mul.
  destruct x as [sx|sx| |sx mx ex], y as [sy|sy| |sy my ey];
    cbn [SFopp SFmul]; try reflexivity;
    try (destruct sx, sy; reflexivity).
  replace (xorb sx (negb sy)) with (negb (xorb sx sy))
    by (destruct sx, sy; reflexivity).
  apply binary_round_aux_opp.
Qed.

Lemma neg_involutive (x : float) : neg (neg x) = x.
Proof.
  destruct x; cbn; try reflexivity; now rewrite negb_involutive.
Qed.

Lemma binary_normalize_opp (m e : Z) :
  m <> 0 ->
  binary_normalize 53 1024 (- m) e false
  = SFopp (binary_normalize 53 1024 m e false).
Proof.
  intros Hm. destruct m as [|p|p]; [contradiction| |]; cbn [Z.opp binary_normalize].
  - apply (binary_round_opp false).
  - apply (binary_round_opp true).
Qed.

Lemma cond_Zopp_negb (s : bool) (m : Z) :
  cond_Zopp (negb s) m = - cond_Zopp s m.
Proof.
  destruct s; cbn; lia.
Qed.

(** [(-x) - (-y)] is [-(x - y)], but for the sign of a zero. *)
Lemma sub_neg_neg (x y : float) :
  same_number (neg x - neg y)%f64 (neg (x - y)%f64) = true.
Proof.
  unfold neg, F64.sub.
  destruct x as [sx|sx| |sx mx ex], y as [sy|sy| |sy my ey];
    cbn [SFopp SFsub];
    try (destruct sx, sy; reflexivity);
    try (destruct sx; reflexivity);
    try (destruct sy; reflexivity);
    try reflexivity;
    try apply same_number_refl.
  change F64.prec with 53. change F64.emax with 1024.
  rewrite !cond_Zopp_negb.
  set (a := cond_Zopp sx _). set (b := cond_Zopp sy _).
  replace (- a - - b) with (- (a - b)) by lia.
  destruct (Z.eq_dec (a - b) 0) as [E|NE].
  - rewrite E. reflexivity.
  - rewrite binary_normalize_opp by exact NE. apply same_number_refl.
Qed.

Lemma mul_same_number (s u u' : float) :
  same_number u u' = true -> same_number (s * u)%f64 (s * u')%f64 = true.
Proof.
  intros H. apply same_number_spec in H. destruct H as [->|[Hu Hu']].
  - apply same_number_refl.
  - destruct u as [a| | |]; try discriminate Hu.
    destruct u' as [b| | |]; try discriminate Hu'.
    destruct s; reflexivity.
Qed.

(** X14: The vector field has the symmetry of the Lorenz system:
    reflecting a state through the [z] axis, [(x, y, z)] to
    [(-x, -y, z)], negates the first two components of the derivative
    and keeps the third, for all doubles and all coefficients. A
    component that is a NaN stays a NaN, and nothing is said of its
    sign; one that is not comes back the same bit for bit in the third
    place, and negated in the first two, except that a zero may come
    with either sign there. *)
Theorem lorenz_deriv_reflection (x y z t0 sigma beta rho : float) :
  let '(a, b, c) := lorenz_deriv (x, y, z) t0 sigma beta rho in
  let '(a', b', c') := lorenz_deriv (neg x, neg y, z) t0 sigma beta rho in
  (is_nan a' = is_nan a
   /\ (is_nan a = false -> same_number a' (neg a) = true))
  /\ (is_nan b' = is_nan b
      /\ (is_nan b = false -> same_number b' (neg b) = true))
  /\ (is_nan c' = is_nan c /\ (is_nan c = false -> c' = c)).
Proof.
  unfold lorenz_deriv.
  assert (Hnan : forall u v, same_number u (neg v) = true ->
                             is_nan u = is_nan v).
  { intros u v H. destruct u, v; cbn in H |- *;
      first [reflexivity | discriminate H]. }
  assert (A : same_number (sigma * (neg y - neg x))%f64
                (neg (sigma * (y - x))%f64) = true).
  { rewrite <- mul_neg_r. apply mul_same_number, sub_neg_neg. }
  assert (B : same_number (neg x * (rho - z) - neg y)%f64
                (neg (x * (rho - z) - y)%f64) = true).
  { rewrite mul_neg_l. apply sub_neg_neg. }
  assert (C : (neg x * neg y - beta * z)%f64 = (x * y - beta * z)%f64).
  { now rewrite mul_neg_l, mul_neg_r, neg_involutive. }
  split; [|split].
  - split; [now apply Hnan|]. intros _. exact A.
  - split; [now apply Hnan|]. intros _. exact B.
  - rewrite C. split; [reflexivity|]. intros _. reflexivity.
Qed.

(** X15: On the [z] axis (both [x] and [y] a zero of either sign) the vector
    field points along the axis: the first component is a zero exactly
    when [sigma] is finite, the second exactly when [rho - z] is, and
    the third is [-(beta * z)], up to the sign of a zero. *)
Theorem lorenz_deriv_on_z_axis (x y z t0 sigma beta rho : float) :
  is_zero x = true -> is_zero y = true ->
  let '(a, b, c) := lorenz_deriv (x, y, z) t0 sigma beta rho in
  is_zero a = F64.is_finite sigma
  /\ is_zero b = F64.is_finite (rho - z)%f64
  /\ same_number c (neg (beta * z)%f64) = true.
Proof.
  intros Hx Hy.
  destruct x as [sx| | |]; try discriminate Hx.
  destruct y as [sy| | |]; try discriminate Hy.
  unfold lorenz_deriv. split; [|split].
  - destruct sigma, sx, sy; reflexivity.
  - destruct (rho - z)%f64 as [s|s| |s m e]; destruct sx, sy; try reflexivity;
      destruct s; reflexivity.
  - destruct (beta * z)%f64 as [s|s| |s m e]; destruct sx, sy; try reflexivity;
      try (destruct s; reflexivity); cbn;
      now rewrite eqb_reflx, Pos.eqb_refl, Z.eqb_refl.
Qed.

Lemma lorenz_deriv_on_z_axis_default :
  let '(a, b, c) :=
    lorenz_deriv (F64.zero, F64.zero, F64.one) F64.zero sigma0 beta0 rho0 in
  is_zero a = F64.is_finite sigma0
  /\ is_zero b = F64.is_finite (rho0 - F64.one)%f64
  /\ same_number c (neg (beta0 * F64.one)%f64) = true.
Proof.
  apply (lorenz_deriv_on_z_axis F64.zero F64.zero F64.one F64.zero
           sigma0 beta0 rho0); reflexivity.
Defined.

Lemma sub_diag_zero (x : float) :
  F64.is_finite x = true -> is_zero (x - x)%f64 = true.
Proof.
  intros Hx. destruct x as [s|s| |s m e]; try discriminate Hx.
  - destruct s; reflexivity.
  - unfold F64.sub, SFsub. rewrite Z.sub_diag. reflexivity.
Qed.

(** X16: On the plane [x = y] the first component of the vector field
    vanishes: the difference [y - x] cancels exactly, for every finite
    [x] and finite [sigma]. *)
Theorem lorenz_deriv_on_diagonal (x z t0 sigma beta rho : float) :
  F64.is_finite x = true -> F64.is_finite sigma = true ->
  is_zero (fst (fst (lorenz_deriv (x, x, z) t0 sigma beta rho))) = true.
Proof.
  intros Hx Hs. unfold lorenz_deriv. cbn [fst].
  pose proof (sub_diag_zero x Hx) as H.
  destruct (x - x)%f64 as [a| | |]; try discriminate H.
  destruct sigma; try discriminate Hs; reflexivity.
Qed.

Lemma lorenz_deriv_on_diagonal_default :
  is_zero (fst (fst (lorenz_deriv (F64.one, F64.one, F64.one) F64.zero
                       sigma0 beta0 rho0))) = true.
Proof.
  apply (lorenz_deriv_on_diagonal F64.one F64.one F64.zero sigma0 beta0 rho0);
    reflexivity.
Defined.

(** * Rounding of the grid's products *)

(** The product of an index below [2^50] and a normal step: a normal
    number, within half a unit of its last place of the exact
    product, read in units of the last place of the step. *)
Lemma mul_index (p ms : positive) (es : Z) :
  Z.pos p < 2 ^ 50 -> Z.pos (digits2_pos ms) = 53 -> -1074 <= es <= 900 ->
  exists H n,
    (F64.of_Z (Z.pos p) * S754_finite false ms es)%f64
    = S754_finite false H (es + n)
    /\ Z.pos (digits2_pos H) = 53 /\ 0 <= n <= 51
    /\ 2 * (Z.pos p * Z.pos ms) - 2 ^ n <= 2 * (Z.pos H * 2 ^ n)
       <= 2 * (Z.pos p * Z.pos ms) + 2 ^ n.
Proof.
  intros Hp Hd Hes.
  assert (Hdp : Z.pos (digits2_pos p) <= 50) by (now apply digits_le_of_lt).
  destruct (of_Z_exact p ltac:(lia)) as (mi & Hmi & ->).
  set (dp := Z.pos (digits2_pos p)) in *.
  assert (Hdp0 : 0 < dp) by (unfold dp; lia).
  unfold F64.mul, SFmul. change F64.prec with 53. change F64.emax with 1024.
  cbn [xorb].
  set (X := (p * ms)%positive).
  assert (HM : Z.pos (mi * ms) = Z.pos X * 2 ^ (53 - dp)).
  { unfold X. rewrite !Pos2Z.inj_mul, Hmi. lia. }
  pose proof (digits_shift X (mi * ms) (53 - dp) ltac:(lia) HM) as HdM.
  pose proof (digits2_pos_bounds X) as [XL XU].
  pose proof (digits2_pos_bounds ms) as [SL SU]. rewrite Hd in SL, SU.
  pose proof (digits2_pos_bounds p) as [PL PU]. fold dp in PL, PU.
  set (dX := Z.pos (digits2_pos X)) in *.
  assert (HX : Z.pos X = Z.pos p * Z.pos ms) by reflexivity.
  assert (HdXL : 53 <= dX).
  { destruct (Z_le_gt_dec 53 dX) as [L|G]; [exact L|exfalso].
    assert (2 ^ dX <= 2 ^ 52) by (apply Z.pow_le_mono_r; lia).
    change (2 ^ (53 - 1)) with (2 ^ 52) in SL. nia. }
  assert (HdXU : dX <= 53 + dp).
  { destruct (Z_le_gt_dec dX (53 + dp)) as [L|G]; [exact L|exfalso].
    assert (2 ^ (53 + dp) <= 2 ^ (dX - 1)) by (apply Z.pow_le_mono_r; lia).
    rewrite Z.pow_add_r in H by lia.
    assert (0 < 2 ^ dp) by (apply Z.pow_pos_nonneg; lia).
    assert (0 < 2 ^ 53) by (apply Z.pow_pos_nonneg; lia).
    nia. }
  rewrite binary_round_aux_finish by (rewrite fexp64_eq, HdM; lia).
  rewrite fexp64_eq, HdM.
  replace (Z.max (dX + (53 - dp) + (dp - 53 + es) - 53) (-1074))
    with (es + (dX - 53)) by lia.
  replace (es + (dX - 53) - (dp - 53 + es)) with ((dX - 53) + (53 - dp))
    by lia.
  rewrite HM, round_shift_scale by lia.
  set (n0 := dX - 53) in *.
  set (R := round_shift (Z.pos X) n0).
  pose proof (round_shift_bounds (Z.pos X) n0) as HRb. fold R in HRb.
  pose proof (round_shift_error (Z.pos X) n0 ltac:(unfold n0; lia)) as HRe.
  fold R in HRe.
  assert (HPn : 0 < 2 ^ n0) by (apply Z.pow_pos_nonneg; unfold n0; lia).
  assert (HqL : 2 ^ 52 <= Z.pos X / 2 ^ n0).
  { apply Z.div_le_lower_bound; [lia|].
    rewrite Z.mul_comm, <- Z.pow_add_r by (unfold n0; lia).
    replace (52 + n0) with (dX - 1) by (unfold n0; lia). exact XL. }
  assert (HqU : Z.pos X / 2 ^ n0 < 2 ^ 53).
  { apply Z.div_lt_upper_bound; [lia|].
    rewrite <- Z.pow_add_r by (unfold n0; lia).
    replace (n0 + 53) with dX by (unfold n0; lia). exact XU. }
  destruct (finish_value false R (es + n0) ltac:(lia) ltac:(unfold n0; lia)
              ltac:(unfold n0; lia)) as (H & c & Hc & HdH & HR & ->).
  exists H, (n0 + c). split; [f_equal; lia|]. split; [exact HdH|].
  split; [unfold n0; lia|].
  rewrite Z.pow_add_r by (unfold n0; lia).
  replace (Z.pos H * (2 ^ n0 * 2 ^ c)) with (R * 2 ^ n0) by (rewrite <- HR; lia).
  assert (1 <= 2 ^ c) by (change 1 with (2 ^ 0); apply Z.pow_le_mono_r; lia).
  rewrite <- HX. nia.
Qed.

(** The quotient of a normal number by a count between [2] and [2^50]:
    a normal number that exceeds the exact quotient by less than one
    unit of its last place. *)
Lemma div_index (mx p : positive) (ex : Z) :
  Z.pos (digits2_pos mx) = 53 -> 2 <= Z.pos p <= 2 ^ 50 ->
  -1000 <= ex <= 971 ->
  exists ms w,
    (S754_finite false mx ex / F64.of_Z (Z.pos p))%f64
    = S754_finite false ms (ex - w)
    /\ Z.pos (digits2_pos ms) = 53 /\ 0 <= w <= 52
    /\ Z.pos p * Z.pos ms <= Z.pos mx * 2 ^ w + Z.pos p.
Proof.
  intros Hdx Hp Hex.
  assert (Hdp : Z.pos (digits2_pos p) <= 51).
  { apply digits_le_of_lt. change (2 ^ 51) with (2 * 2 ^ 50). lia. }
  assert (Hdp2 : 2 <= Z.pos (digits2_pos p)).
  { apply (digits_ge_pow p 2) in Hp || idtac.
    destruct (Z_le_gt_dec 2 (Z.pos (digits2_pos p))) as [L|G]; [exact L|].
    exfalso. pose proof (digits_lt_pow p 1 ltac:(lia)) as B.
    change (2 ^ 1) with 2 in B. lia. }
  destruct (of_Z_exact p ltac:(lia)) as (my & Hmy & ->).
  set (dp := Z.pos (digits2_pos p)) in *.
  set (a := 53 - dp) in *.
  assert (Ha : 2 <= a <= 51) by (unfold a; lia).
  pose proof (digits_shift p my a ltac:(lia) Hmy) as Hdy. fold dp in Hdy.
  replace (dp + a) with 53 in Hdy by (unfold a; lia).
  pose proof (digits2_pos_bounds mx) as [XL XU].
  pose proof (digits2_pos_bounds my) as [YL YU].
  rewrite Hdx in XL, XU. rewrite Hdy in YL, YU.
  change (2 ^ (53 - 1)) with 4503599627370496 in *.
  change (2 ^ 53) with 9007199254740992 in XU, YU.
  unfold F64.div, SFdiv, SFdiv_core_binary.
  change F64.prec with 53. change F64.emax with 1024.
  cbn [Zdigits2 xorb]. rewrite Hdx, Hdy.
  replace (53 + ex - (53 + (dp - 53))) with (ex + a) by (unfold a; lia).
  rewrite fexp64_eq.
  replace (Z.min (Z.max (ex + a - 53) (-1074)) (ex - (dp - 53)))
    with (ex + a - 53) by (unfold a; lia).
  replace (ex - (dp - 53) - (ex + a - 53)) with 53 by (unfold a; lia).
  rewrite Z.shiftl_mul_pow2 by lia.
  set (q := Z.pos mx * 2 ^ 53 / Z.pos my).
  assert (Eq : Z.div_eucl (Z.pos mx * 2 ^ 53) (Z.pos my)
               = (q, (Z.pos mx * 2 ^ 53) mod Z.pos my)).
  { unfold q, Z.div, Z.modulo.
    now destruct (Z.div_eucl (Z.pos mx * 2 ^ 53) (Z.pos my)). }
  rewrite Eq.
  assert (Hqm : q * Z.pos my <= Z.pos mx * 2 ^ 53).
  { unfold q. rewrite Z.mul_comm. apply Z.mul_div_le. lia. }
  assert (Hq1 : 2 ^ 52 <= q).
  { apply Z.div_le_lower_bound; [lia|].
    change (2 ^ 53) with 9007199254740992.
    change (2 ^ 52) with 4503599627370496. nia. }
  assert (Hq2 : q < 2 ^ 54).
  { apply Z.div_lt_upper_bound; [lia|].
    change (2 ^ 53) with 9007199254740992.
    change (2 ^ 54) with 18014398509481984. nia. }
  destruct q as [|qp|qp] eqn:Eqp;
    try (change (2 ^ 52) with 4503599627370496 in Hq1; lia).
  assert (DL : 53 <= Z.pos (digits2_pos qp)).
  { destruct (Z_le_gt_dec 53 (Z.pos (digits2_pos qp))) as [L|G];
      [exact L|exfalso].
    pose proof (digits_lt_pow qp 52 ltac:(lia)). lia. }
  pose proof (digits_le_of_lt qp 54 Hq2) as DU.
  set (dq := Z.pos (digits2_pos qp)) in *.
  destruct (binary_round_aux_loc false (Z.pos qp) (ex + a - 53)
              (new_location (Z.pos my) ((Z.pos mx * 2 ^ 53) mod Z.pos my))
              ltac:(lia)
              ltac:(cbn [Zdigits2]; fold dq; rewrite fexp64_eq; lia))
    as (m1 & Hm1 & ->).
  cbn [Zdigits2] in *. fold dq in Hm1 |- *. rewrite fexp64_eq in *.
  replace (Z.max (dq + (ex + a - 53) - 53) (-1074))
    with (ex + a - 53 + (dq - 53)) in * by lia.
  replace (ex + a - 53 + (dq - 53) - (ex + a - 53)) with (dq - 53) in Hm1
    by lia.
  set (kk := dq - 53) in *.
  assert (Hkk : 0 <= kk <= 1) by (unfold kk; lia).
  assert (HK : 0 < 2 ^ kk) by (apply Z.pow_pos_nonneg; lia).
  assert (HqL : 2 ^ 52 <= Z.pos qp / 2 ^ kk).
  { apply Z.div_le_lower_bound; [lia|].
    rewrite Z.mul_comm, <- Z.pow_add_r by lia.
    replace (52 + kk) with (dq - 1) by (unfold kk; lia).
    apply digits2_pos_bounds. }
  assert (HqU : Z.pos qp / 2 ^ kk < 2 ^ 53).
  { apply Z.div_lt_upper_bound; [lia|].
    rewrite <- Z.pow_add_r by lia.
    replace (kk + 53) with dq by (unfold kk; lia).
    apply digits2_pos_bounds. }
  destruct (finish_value false m1 (ex + a - 53 + kk) ltac:(lia) ltac:(lia)
              ltac:(lia)) as (ms & c & Hc & Hds & Hms & ->).
  exists ms, (53 - a - kk - c). split; [f_equal; lia|].
  split; [exact Hds|]. split; [lia|].
  (* the bound, after multiplying by [2^(a + kk + c)] *)
  assert (HA : 0 < 2 ^ a) by (apply Z.pow_pos_nonneg; lia).
  assert (HC : 1 <= 2 ^ c)
    by (change 1 with (2 ^ 0); apply Z.pow_le_mono_r; lia).
  assert (Hfl : Z.pos qp / 2 ^ kk * 2 ^ kk <= Z.pos qp).
  { rewrite Z.mul_comm. apply Z.mul_div_le. lia. }
  assert (E53 : 2 ^ 53 = 2 ^ (53 - a - kk - c) * (2 ^ a * 2 ^ kk * 2 ^ c)).
  { rewrite <- !Z.pow_add_r by lia. f_equal. lia. }
  set (W := 2 ^ (53 - a - kk - c)) in *.
  set (A := 2 ^ a) in *. set (K := 2 ^ kk) in *. set (C := 2 ^ c) in *.
  assert (HAKC : 0 < A * K * C).
  { apply Z.mul_pos_pos; [apply Z.mul_pos_pos|]; lia. }
  apply (Z.mul_le_mono_pos_r _ _ (A * K * C)); [exact HAKC|].
  assert (S1 : m1 * K <= Z.pos qp + K).
  { assert (m1 * K <= (Z.pos qp / K + 1) * K)
      by (apply Z.mul_le_mono_nonneg_r; lia).
    lia. }
  assert (S2 : m1 * K * Z.pos my <= (Z.pos qp + K) * Z.pos my).
  { apply Z.mul_le_mono_nonneg_r; lia. }
  assert (S3 : 0 <= K * (Z.pos p * A) * (C - 1)).
  { apply Z.mul_nonneg_nonneg; [|lia].
    apply Z.mul_nonneg_nonneg; [lia|]. apply Z.mul_nonneg_nonneg; lia. }
  rewrite Hmy in S2, Hqm. rewrite <- Hms in S2. rewrite E53 in Hqm.
  lia.
Qed.

(** * Sorted samples *)

Lemma nth_error_last {A : Type} (l : list A) (d : A) :
  l <> [] -> nth_error l (length l - 1) = Some (last l d).
Proof.
  induction l as [|a l IH]; intros H; [contradiction|].
  destruct l as [|b l]; [reflexivity|].
  change (last (a :: b :: l) d) with (last (b :: l) d).
  rewrite <- IH by discriminate.
  cbn [length].
  replace (S (S (length l)) - 1)%nat with (S (S (length l) - 1)) by lia.
  reflexivity.
Qed.

Lemma increasing_nth (l : list float) :
  (forall i a b, nth_error l i = Some a -> nth_error l (S i) = Some b ->
                 (a <? b)%f64 = true) ->
  increasing l = true.
Proof.
  induction l as [|a l IH]; intros H; [reflexivity|].
  destruct l as [|b l]; [reflexivity|].
  change (((a <? b)%f64 && increasing (b :: l)) = true).
  rewrite (H 0%nat a b eq_refl eq_refl). cbn [andb].
  apply IH. intros i x y Hx Hy. exact (H (S i) x y Hx Hy).
Qed.

Lemma Forall_nth_error_intro {A : Type} (P : A -> Prop) (l : list A) :
  (forall i x, nth_error l i = Some x -> P x) -> Forall P l.
Proof.
  intros H. apply Forall_forall. intros x Hin.
  destruct (In_nth_error l x Hin) as [i Hi]. exact (H i x Hi).
Qed.

Lemma leb_refl_finite (s : bool) (m : positive) (e : Z) :
  (S754_finite s m e <=? S754_finite s m e)%f64 = true.
Proof.
  unfold F64.leb, SFleb, SFcompare. rewrite Z.compare_refl.
  destruct (compare_cont_Eq_spec m m) as [E|L|G]; try lia.
  destruct s; reflexivity.
Qed.

(** The samples [np.linspace(0, stop, num)] computes before the last
    one, for a normal [stop] and at most [2^50] samples: the first is
    [0.0], the others are normal numbers, each within half a unit of
    its last place of the index times the step, and the step times the
    number of intervals exceeds [stop] by less than that number of
    units of the step's last place. *)
Lemma linspace_samples (mx : positive) (ex num : Z) :
  Z.pos (digits2_pos mx) = 53 -> -1000 <= ex <= 900 ->
  3 <= num <= 2 ^ 50 ->
  exists l ms w,
    linspace F64.zero (S754_finite false mx ex) num = Ok l
    /\ length l = Z.to_nat num
    /\ nth_error l 0 = Some F64.zero
    /\ nth_error l (Z.to_nat num - 1) = Some (S754_finite false mx ex)
    /\ Z.pos (digits2_pos ms) = 53 /\ 0 <= w <= 52
    /\ (num - 1) * Z.pos ms <= Z.pos mx * 2 ^ w + (num - 1)
    /\ forall i, 1 <= i < num - 1 ->
         exists H n,
           nth_error l (Z.to_nat i) = Some (S754_finite false H (ex - w + n))
           /\ Z.pos (digits2_pos H) = 53 /\ 0 <= n <= 51
           /\ 2 * (i * Z.pos ms) - 2 ^ n <= 2 * (Z.pos H * 2 ^ n)
              <= 2 * (i * Z.pos ms) + 2 ^ n.
Proof.
  intros Hd Hex Hnum.
  assert (Hv : F64.valid (S754_finite false mx ex) = true).
  { apply bounded_canonical. split; [lia|]. now left. }
  destruct (num - 1) as [|p|p] eqn:Ep; try lia.
  destruct (div_index mx p ex Hd ltac:(lia) ltac:(lia))
    as (ms & w & Hstep & Hds & Hw & Hb).
  destruct (linspace_from_zero (S754_finite false mx ex) num Hv eq_refl
              ltac:(lia) ltac:(rewrite Ep, Hstep; reflexivity))
    as (l & Hl & Hlen & Hhd & Hlast & Hnth).
  rewrite Ep, Hstep in Hnth.
  exists l, ms, w. split; [exact Hl|]. split; [exact Hlen|].
  split; [now rewrite <- hd_error_nth_error|].
  split.
  { rewrite <- Hlast, <- Hlen. apply nth_error_last.
    intros ->. cbn in Hlen. lia. }
  split; [exact Hds|]. split; [exact Hw|]. split; [exact Hb|].
  intros i Hi.
  destruct i as [|q|q]; try lia.
  destruct (mul_index q ms (ex - w) ltac:(lia) Hds ltac:(lia))
    as (H & n & Hmul & HdH & Hn & He).
  exists H, n. split; [|now repeat split].
  rewrite Hnth by lia. rewrite Z2Nat.id by lia. rewrite Hmul. reflexivity.
Qed.

Lemma pow2_le_51 (n : Z) : 0 <= n <= 51 -> 0 < 2 ^ n <= 2 ^ 51.
Proof.
  intros H. split; [apply Z.pow_pos_nonneg; lia|].
  apply Z.pow_le_mono_r; lia.
Qed.

(** [np.linspace(0, stop, num)] for a normal positive [stop] and
    between two and [2^50] samples: every sample is strictly below the
    next, and all lie within [[0, stop]]. *)
Lemma linspace_increasing (mx : positive) (ex num : Z) :
  Z.pos (digits2_pos mx) = 53 -> -1000 <= ex <= 900 ->
  2 <= num <= 2 ^ 50 ->
  exists l,
    linspace F64.zero (S754_finite false mx ex) num = Ok l
    /\ length l = Z.to_nat num
    /\ increasing l = true
    /\ Forall (fun y => in_horizon (S754_finite false mx ex) y = true) l.
Proof.
  intros Hd Hex Hnum.
  assert (Hv : F64.valid (S754_finite false mx ex) = true).
  { apply bounded_canonical. split; [lia|]. now left. }
  pose proof (leb_refl_finite false mx ex) as Hrefl.
  destruct (Z.eq_dec num 2) as [->|Hn2].
  - (* two samples: [0.0] and [stop] *)
    assert (Hs : F64.is_nonzero_finite
                   (S754_finite false mx ex / F64.of_Z (2 - 1))%f64 = true).
    { change (F64.of_Z (2 - 1)) with (S754_finite false 4503599627370496 (-52)).
      destruct (div_normal false false mx 4503599627370496 ex (-52) Hd
                  eq_refl ltac:(lia)) as (m & e & ->).
      reflexivity. }
    destruct (linspace_from_zero (S754_finite false mx ex) 2 Hv eq_refl
                ltac:(lia) Hs) as (l & Hl & Hlen & Hhd & Hlast & _).
    exists l. split; [exact Hl|]. split; [exact Hlen|].
    destruct l as [|a [|b [|c l]]]; try discriminate Hlen.
    cbn in Hhd, Hlast. injection Hhd as ->. subst b.
    split; [reflexivity|].
    repeat constructor. unfold in_horizon. now rewrite Hrefl.
  - destruct (linspace_samples mx ex num Hd Hex ltac:(lia))
      as (l & ms & w & Hl & Hlen & H0 & Hlast & Hds & Hw & Hb & Hmid).
    exists l. split; [exact Hl|]. split; [exact Hlen|].
    pose proof (digits2_pos_bounds ms) as [SL SU]. rewrite Hds in SL, SU.
    change (2 ^ (53 - 1)) with 4503599627370496 in SL.
    change (2 ^ 50) with 1125899906842624 in Hnum.
    (* every sample in between is strictly below [stop] *)
    assert (Hbelow : forall i H n,
      1 <= i < num - 1 -> 0 <= n <= 51 ->
      2 * (Z.pos H * 2 ^ n) <= 2 * (i * Z.pos ms) + 2 ^ n ->
      Z.pos H * 2 ^ n < Z.pos mx * 2 ^ w).
    { intros i H n Hi Hn He.
      pose proof (pow2_le_51 n Hn) as Hp.
      change (2 ^ 51) with 2251799813685248 in Hp.
      assert (i * Z.pos ms <= (num - 2) * Z.pos ms)
        by (apply Z.mul_le_mono_nonneg_r; lia).
      lia. }
    split.
    + apply increasing_nth. intros i a b Ha Hb'.
      assert (Hi : (S i < Z.to_nat num)%nat).
      { rewrite <- Hlen. apply nth_error_Some. rewrite Hb'. discriminate. }
      destruct (Nat.eq_dec i 0) as [->|Hi0].
      * rewrite H0 in Ha. injection Ha as <-.
        destruct (Hmid 1 ltac:(lia)) as (H & n & Hnth & _).
        change (Z.to_nat 1) with 1%nat in Hnth.
        rewrite Hnth in Hb'. injection Hb' as <-. reflexivity.
      * destruct (Hmid (Z.of_nat i) ltac:(lia))
          as (H1 & n1 & Hnth1 & HdH1 & Hn1 & He1).
        rewrite Nat2Z.id in Hnth1. rewrite Hnth1 in Ha. injection Ha as <-.
        destruct (Nat.eq_dec (S i) (Z.to_nat num - 1)) as [El|Nl].
        -- rewrite El, Hlast in Hb'. injection Hb' as <-.
           replace ex with (ex - w + w) at 2 by lia.
           apply normal_ltb; try assumption; try lia.
           apply (Hbelow (Z.of_nat i)); lia.
        -- destruct (Hmid (Z.of_nat (S i)) ltac:(lia))
             as (H2 & n2 & Hnth2 & HdH2 & Hn2' & He2).
           rewrite Nat2Z.id in Hnth2. rewrite Hnth2 in Hb'.
           injection Hb' as <-.
           apply normal_ltb; try assumption; try lia.
           pose proof (pow2_le_51 n1 Hn1) as Hp1.
           pose proof (pow2_le_51 n2 Hn2') as Hp2.
           change (2 ^ 51) with 2251799813685248 in Hp1, Hp2.
           replace (Z.of_nat (S i)) with (Z.of_nat i + 1) in He2 by lia.
           lia.
    + apply Forall_nth_error_intro. intros i x Hx.
      assert (Hi : (i < Z.to_nat num)%nat).
      { rewrite <- Hlen. apply nth_error_Some. rewrite Hx. discriminate. }
      unfold in_horizon.
      destruct (Nat.eq_dec i 0) as [->|Hi0].
      * rewrite H0 in Hx. injection Hx as <-. reflexivity.
      * destruct (Nat.eq_dec i (Z.to_nat num - 1)) as [El|Nl].
        -- rewrite El, Hlast in Hx. injection Hx as <-.
           now rewrite Hrefl.
        -- destruct (Hmid (Z.of_nat i) ltac:(lia))
             as (H1 & n1 & Hnth1 & HdH1 & Hn1 & He1).
           rewrite Nat2Z.id in Hnth1. rewrite Hnth1 in Hx. injection Hx as <-.
           cbn [andb]. change (F64.zero <=? S754_finite false H1 (ex - w + n1))%f64
             with true. cbn [andb].
           apply ltb_leb.
           replace ex with (ex - w + w) at 2 by lia.
           apply normal_ltb; try assumption; try lia.
           apply (Hbelow (Z.of_nat i)); lia.
Qed.

(** The time grid of a horizon that gives at most [2^50] samples: each
    time is strictly below the next, and all lie within
    [[0, max_time]]. *)
Lemma time_grid_sorted (max_time : float) (n : Z) :
  F64.valid max_time = true ->
  sample_count max_time = Ok n -> 0 <= n <= 2 ^ 50 ->
  exists tg,
    time_grid max_time = Ok tg
    /\ length tg = Z.to_nat n
    /\ increasing tg = true
    /\ Forall (fun s => in_horizon max_time s = true) tg.
Proof.
  intros Hv Hn Hr. unfold time_grid. rewrite Hn. cbn [result_bind].
  destruct (Z_le_gt_dec 2 n) as [H2|H2].
  - destruct (sample_count_inv max_time n Hv Hn H2)
      as (mx & ex & mp & ep & -> & Hdx & Hdp & Hep & Hep' & ->).
    pose proof (digits2_pos_bounds mp) as [PL PU]. rewrite Hdp in PL, PU.
    change (2 ^ (53 - 1)) with 4503599627370496 in PL.
    change (2 ^ 53) with 9007199254740992 in PU.
    change (2 ^ 50) with 1125899906842624 in Hr.
    assert (Hneg : ep < 0).
    { destruct (Z_lt_ge_dec ep 0) as [L|G]; [exact L|exfalso].
      rewrite Z.shiftl_mul_pow2 in Hr by lia.
      assert (1 <= 2 ^ ep)
        by (change 1 with (2 ^ 0); apply Z.pow_le_mono_r; lia).
      nia. }
    assert (Hlow : -52 <= ep).
    { destruct (Z_le_gt_dec (-52) ep) as [L|G]; [exact L|exfalso].
      rewrite Z.shiftl_div_pow2 in H2 by lia.
      assert (2 ^ 53 <= 2 ^ (- ep)) by (apply Z.pow_le_mono_r; lia).
      change (2 ^ 53) with 9007199254740992 in H.
      rewrite Z.div_small in H2 by lia. lia. }
    apply linspace_increasing; [exact Hdx|lia|].
    change (2 ^ 50) with 1125899906842624. lia.
  - assert (Hf : F64.is_finite max_time = true)
      by (now apply (sample_count_finite max_time n)).
    destruct (Z.eq_dec n 0) as [->|N0].
    + rewrite linspace_0. exists []. repeat split. constructor.
    + assert (n = 1) by lia. subst n.
      pose proof (sample_count_sign max_time 1 Hv Hn) as Hs.
      destruct max_time as [z| | |s m e]; try discriminate Hf.
      * unfold sample_count in Hn. rewrite of_Z_250 in Hn. cbn in Hn.
        discriminate Hn.
      * cbn [F64.sign] in Hs. destruct s; [lia|].
        exists [F64.zero]. split.
        -- unfold linspace. cbn [Z.ltb Z.compare Z.sub Z.add Z.opp Z.pos_sub].
           change (F64.zero * F64.one)%f64 with F64.zero.
           rewrite mul_one_r, sub_zero_r by (assumption || reflexivity).
           reflexivity.
        -- repeat split. constructor; [reflexivity|constructor].
Qed.

(** X17: The times of the grid are strictly increasing, from [0.0] to the
    horizon, and none leaves [[0, max_time]], rounding included, for
    every horizon that gives at most [2^50] samples. *)
Theorem time_grid_increasing (R : random_state) (odeint : integrator)
  (jet : colormap) (N : Z) (angle max_time sigma beta rho : float)
  (g : rng R) (n : Z) :
  0 <= N -> F64.valid max_time = true ->
  sample_count max_time = Ok n -> 0 <= n <= 2 ^ 50 ->
  exists l g',
    solve_lorenz R odeint jet N angle max_time sigma beta rho g = (Ok l, g')
    /\ length (t l) = Z.to_nat n
    /\ increasing (t l) = true
    /\ Forall (fun s => in_horizon max_time s = true) (t l).
Proof.
  intros HN Hv Hn Hr.
  destruct (time_grid_sorted max_time n Hv Hn Hr) as (tg & Ht & Hl & Hi & Hb).
  destruct (solve_lorenz_returns R odeint jet N angle max_time sigma beta
              rho g n HN Hn ltac:(lia))
    as (tg' & pos & Ht' & _ & _ & _ & Hrun).
  cbv zeta in Hrun. rewrite Ht in Ht'. injection Ht' as <-.
  eexists. eexists. split; [exact Hrun|]. cbn [t]. now repeat split.
Qed.

Lemma time_grid_increasing_default :
  exists l g',
    solve_lorenz numpy_random euler gray 10 F64.zero (F64.of_Z 4)
      sigma0 beta0 rho0 (MT19937.seed 0) = (Ok l, g')
    /\ length (t l) = Z.to_nat 1000
    /\ increasing (t l) = true
    /\ Forall (fun s => in_horizon (F64.of_Z 4) s = true) (t l).
Proof.
  apply (time_grid_increasing numpy_random euler gray 10 F64.zero
           (F64.of_Z 4) sigma0 beta0 rho0 (MT19937.seed 0) 1000).
  - lia.
  - vm_compute. reflexivity.
  - vm_compute. reflexivity.
  - split; [lia|]. vm_compute. discriminate.
Defined.

(** X18: The positions on the colour map, [np.linspace(0, 1, N)], for up to
    [2^50] trajectories (the slider stops at [50]): one for each
    trajectory, each strictly below the next, so that no two
    trajectories share a position, and all within [[0, 1]], rounding
    included. *)
Theorem color_positions_increasing (N : Z) :
  0 <= N <= 2 ^ 50 ->
  exists pos,
    color_positions N = Ok pos
    /\ length pos = Z.to_nat N
    /\ increasing pos = true
    /\ forallb in_unit_range pos = true.
Proof.
  intros HN. unfold color_positions.
  destruct (Z_le_gt_dec 2 N) as [H2|H2].
  - change F64.one with (S754_finite false 4503599627370496 (-52)).
    destruct (linspace_increasing 4503599627370496 (-52) N eq_refl
                ltac:(lia) ltac:(lia)) as (pos & Hp & Hl & Hi & Hb).
    exists pos. split; [exact Hp|]. split; [exact Hl|]. split; [exact Hi|].
    apply forallb_forall. rewrite Forall_forall in Hb. exact Hb.
  - destruct (Z.eq_dec N 0) as [->|N0].
    + exists []. repeat split.
    + assert (N = 1) by lia. subst N. exists [F64.zero]. repeat split.
Qed.

Lemma color_positions_increasing_default :
  exists pos,
    color_positions 10 = Ok pos
    /\ length pos = Z.to_nat 10
    /\ increasing pos = true
    /\ forallb in_unit_range pos = true.
Proof.
  apply (color_positions_increasing 10). split; [lia|].
  vm_compute. discriminate.
Defined.

(** * From the horizon to the grid *)

Lemma one_64th_eq : one_64th = S754_finite false 4503599627370496 (-58).
Proof.
  vm_compute. reflexivity.
Qed.

Lemma c_4096_eq : c_4096 = S754_finite false 4503599627370496 (-40).
Proof.
  vm_compute. reflexivity.
Qed.

Lemma between_64th_and_4096_inv (max_time : float) :
  F64.valid max_time = true ->
  (one_64th <=? max_time)%f64 = true ->
  (max_time <=? c_4096)%f64 = true ->
  exists m e, max_time = S754_finite false m e /\ canonical m e /\
              Z.pos (digits2_pos m) = 53 /\ -58 <= e /\
              (e < -40 \/ (e = -40 /\ Z.pos m <= 4503599627370496)).
Proof.
  intros Hv Hl Hu. rewrite one_64th_eq in Hl. rewrite c_4096_eq in Hu.
  destruct max_time as [z|z| |s m e].
  - discriminate Hl.
  - destruct z; discriminate.
  - discriminate.
  - destruct s; [discriminate|].
    exists m, e. split; [reflexivity|].
    apply bounded_canonical in Hv. split; [exact Hv|].
    apply leb_finite_spec in Hl. apply leb_finite_spec in Hu.
    destruct Hv as [Hr [Hd|[He Hd]]].
    + split; [exact Hd|]. split; [lia|exact Hu].
    + lia.
Qed.

(** A horizon of [4096.0] at most has [1024000] samples at most. *)
Lemma sample_count_upto_4096_bound (mx : positive) (ex : Z) :
  canonical mx ex ->
  ex < -40 \/ (ex = -40 /\ Z.pos mx <= 4503599627370496) ->
  exists n, sample_count (S754_finite false mx ex) = Ok n
            /\ 0 <= n <= 1024000.
Proof.
  intros Hc Hle.
  assert (A : at_most false 8796093022208000 (-33)
                (F64.mul (F64.of_Z 250) (S754_finite false mx ex))).
  { rewrite of_Z_250. unfold F64.mul, SFmul.
    change F64.prec with 53. change F64.emax with 1024. cbn [xorb].
    pose proof (digits_mul_250_ge mx) as HdM.
    destruct Hc as [Hr Hd].
    assert (Hm : Z.pos mx < 2 ^ 53) by (apply digits_lt_pow; lia).
    change (2 ^ 53) with 9007199254740992 in Hm.
    apply round_aux_at_most.
    - rewrite fexp64_eq. lia.
    - lia.
    - split; [lia|]. left. reflexivity.
    - rewrite Pos2Z.inj_mul.
      replace (-33 - (-45 + ex)) with (52 + (-40 - ex)) by lia.
      rewrite Z.pow_add_r by lia.
      change (2 ^ 52) with 4503599627370496.
      destruct Hle as [L|[E L]].
      + assert (2 ^ 1 <= 2 ^ (-40 - ex))
          by (apply Z.pow_le_mono_r; lia).
        change (2 ^ 1) with 2 in H. nia.
      + replace (-40 - ex) with 0 by lia. change (2 ^ 0) with 1. lia. }
  unfold sample_count.
  destruct A as [[z E]|(m & e & E & [Hre Hde] & Ho)]; rewrite E.
  - exists 0. split; [reflexivity|lia].
  - cbn [int_of_float cond_Zopp]. eexists. split; [reflexivity|].
    split; [apply Z.shiftl_nonneg; lia|].
    assert (Hm : Z.pos m < 2 ^ 53) by (apply digits_lt_pow; lia).
    change (2 ^ 53) with 9007199254740992 in Hm.
    rewrite Z.shiftl_div_pow2 by lia.
    assert (HP : 0 < 2 ^ (- e)) by (apply Z.pow_pos_nonneg; lia).
    apply Z.lt_succ_r, Z.div_lt_upper_bound; [exact HP|].
    destruct Ho as [L|[-> L]].
    + assert (2 ^ 34 <= 2 ^ (- e)) by (apply Z.pow_le_mono_r; lia).
      change (2 ^ 34) with 17179869184 in H. nia.
    + change (2 ^ (- -33)) with 8589934592. lia.
Qed.

(** X19: For every horizon from [1/64] to [4096.0] time units the number
    of samples is between two and [1024000], and the time grid
    [np.linspace(0, max_time, int(250*max_time))] starts at exactly
    [0.0], ends at exactly [max_time] and is strictly increasing in
    between. *)
Theorem time_grid_spans_horizon (max_time : float) :
  F64.valid max_time = true ->
  (one_64th <=? max_time)%f64 = true ->
  (max_time <=? c_4096)%f64 = true ->
  exists n tg,
    sample_count max_time = Ok n /\ 2 <= n <= 1024000
    /\ time_grid max_time = Ok tg
    /\ length tg = Z.to_nat n
    /\ hd_error tg = Some F64.zero
    /\ last tg F64.nan = max_time
    /\ increasing tg = true.
Proof.
  intros Hv Hl Hu.
  destruct (between_64th_and_4096_inv max_time Hv Hl Hu)
    as (m & e & E & Hc & Hd & He & Hle).
  destruct (sample_count_upto_4096_bound m e Hc Hle) as (n & Hn & Hn0 & Hn1).
  rewrite <- E in Hn.
  assert (Hn2 : 2 <= n).
  { rewrite E in Hn.
    pose proof (sample_count_above 1 m e n ltac:(lia) Hd ltac:(lia)
                  ltac:(lia) Hn) as H2.
    change (2 ^ 1) with 2 in H2. exact H2. }
  exists n.
  assert (H50 : 1024000 <= 2 ^ 50) by (change (2 ^ 50) with 1125899906842624; lia).
  destruct (time_grid_sorted max_time n Hv Hn ltac:(lia))
    as (tg & Ht & Hlen & Hi & _).
  destruct (linspace_from_zero max_time n Hv
              (sample_count_finite max_time n Hn) Hn2
              (grid_step_nonzero max_time n Hv Hn Hn2))
    as (tg' & Ht' & _ & Hh & Hlast & _).
  pose proof Ht as Ht2.
  unfold time_grid in Ht2. rewrite Hn in Ht2. cbn [result_bind] in Ht2.
  rewrite Ht2 in Ht'. injection Ht' as <-.
  exists tg. split; [exact Hn|]. split; [lia|].
  split; [exact Ht|]. split; [exact Hlen|]. split; [exact Hh|].
  split; [exact Hlast|exact Hi].
Qed.

Lemma time_grid_spans_horizon_default :
  exists n tg,
    sample_count (F64.of_Z 4) = Ok n /\ 2 <= n <= 1024000
    /\ time_grid (F64.of_Z 4) = Ok tg
    /\ length tg = Z.to_nat n
    /\ hd_error tg = Some F64.zero
    /\ last tg F64.nan = F64.of_Z 4
    /\ increasing tg = true.
Proof.
  apply (time_grid_spans_horizon (F64.of_Z 4)).
  - vm_compute. reflexivity.
  - vm_compute. reflexivity.
  - vm_compute. reflexivity.
Defined.
